(** * Manuscript formatter: extraction, citation detection and placement

    A shallow embedding of [document_processor.py] (title, abstract and
    figure extraction, citation detection) and of the placement half of
    [formatter.py] ([_add_body_with_citations], [_insert_figure],
    [_insert_table]), with the properties of the pipeline proved over it.

    Conventions of the embedding.
    - Python [str] values are [list ascii]; the character classes of
      [str.strip], [str.lower], [int] and of the [re] module are given on
      the 7-bit range, where they coincide with Python's, and codes above
      127 are read as caseless letters that are neither space nor digit.
    - Python [int] values are [Z]; the [float] inch values of the formatter
      are exact rationals [Q].
    - A python-docx [Document] is the list of its body blocks in order;
      functions that append to it thread the list through a small
      state-and-exception monad in which, as in Python, what was appended
      before an exception was raised stays appended.
    - The two image decoders the formatter calls (PIL's [Image.open] and
      python-docx's [add_picture]) are section variables.
    - The text and font-size setters of python-docx are modelled where
      they succeed: on text XML can hold and on a font size Word has.  A
      property that depends on it carries the condition ([xml_text],
      [font_size_ok]).
    - [int] refuses more than 4300 digits, CPython's default limit. *)

From Stdlib Require Import List Ascii String ZArith QArith Lia Bool.
From Stdlib Require Import Sorting.Sorted Permutation DecimalString.
From stdpp Require Import gmap.
Import ListNotations.

Close Scope Q_scope.
Open Scope Z_scope.

(* ================================================================== *)
(** * Python strings *)
(* ================================================================== *)

Abbreviation str := (list ascii).

Definition s_ (s : string) : str := list_ascii_of_string s.
Arguments s_ s%_string.

Module Py.

Definition code (c : ascii) : nat := nat_of_ascii c.

(** [str.isspace] on one character: TAB..CR, FS..US and SPACE. *)
Definition is_space (c : ascii) : bool :=
  let n := code c in
  ((9 <=? n) && (n <=? 13) || (28 <=? n) && (n <=? 32))%nat.

Definition is_digit (c : ascii) : bool :=
  let n := code c in ((48 <=? n) && (n <=? 57))%nat.

Definition is_upper (c : ascii) : bool :=
  let n := code c in ((65 <=? n) && (n <=? 90))%nat.

Definition is_lower (c : ascii) : bool :=
  let n := code c in ((97 <=? n) && (n <=? 122))%nat.

Definition lower_char (c : ascii) : ascii :=
  if is_upper c then ascii_of_nat (code c + 32) else c.

Definition upper_char (c : ascii) : ascii :=
  if is_lower c then ascii_of_nat (code c - 32) else c.

(** [s.lower()] *)
Definition lower (s : str) : str := map lower_char s.

(** [s.lstrip()], [s.rstrip()], [s.strip()] *)
Fixpoint lstrip (s : str) : str :=
  match s with
  | c :: s' => if is_space c then lstrip s' else s
  | [] => []
  end.

Definition rstrip (s : str) : str := rev (lstrip (rev s)).

Definition strip (s : str) : str := rstrip (lstrip s).

(** [s.rstrip(chars)] for a set of characters given by a predicate. *)
Fixpoint drop_while (p : ascii -> bool) (s : str) : str :=
  match s with
  | c :: s' => if p c then drop_while p s' else s
  | [] => []
  end.

Definition rstrip_chars (p : ascii -> bool) (s : str) : str :=
  rev (drop_while p (rev s)).

(** [s.startswith(w)], and the part of [s] after [w]. *)
Fixpoint strip_prefix (w s : str) : option str :=
  match w, s with
  | [], _ => Some s
  | a :: w', c :: s' => if Ascii.eqb a c then strip_prefix w' s' else None
  | _ :: _, [] => None
  end.

(** [w in s] *)
Fixpoint contains (w s : str) : bool :=
  match strip_prefix w s with
  | Some _ => true
  | None => match s with
            | [] => false
            | _ :: s' => contains w s'
            end
  end.

(** [s.replace(old, new)] for a non-empty [old]: occurrences are found
    from the left and do not overlap.  [skip] counts the characters
    of the occurrence just replaced that are still to be passed over. *)
Fixpoint replace_from (old new : str) (skip : nat) (s : str) : str :=
  match s with
  | [] => []
  | c :: s' =>
      match skip with
      | S k => replace_from old new k s'
      | O =>
          match strip_prefix old s with
          | Some _ => new ++ replace_from old new (length old - 1) s'
          | None => c :: replace_from old new O s'
          end
      end
  end.

Definition replace (old new s : str) : str := replace_from old new O s.

(** [sep.join(parts)] *)
Fixpoint join (sep : str) (parts : list str) : str :=
  match parts with
  | [] => []
  | [p] => p
  | p :: ps => p ++ sep ++ join sep ps
  end.

(** [str(n)] and the [{n}] of an f-string for an [int]. *)
Definition str_of_int (n : Z) : str :=
  list_ascii_of_string (NilZero.string_of_int (Z.to_int n)).

(** [int(s)]: surrounding whitespace is ignored, one sign is allowed,
    then decimal digits, single underscores allowed between digits.
    [None] stands for [ValueError]. *)
Definition digit_val (c : ascii) : Z := Z.of_nat (code c) - 48.

Fixpoint int_digits (acc : Z) (prev_digit : bool) (s : str) : option Z :=
  match s with
  | [] => if prev_digit then Some acc else None
  | c :: s' =>
      if is_digit c then int_digits (10 * acc + digit_val c) true s'
      else if Ascii.eqb c "_" && prev_digit then
        match s' with
        | d :: _ => if is_digit d then int_digits acc false s' else None
        | [] => None
        end
      else None
  end.

(** CPython refuses to convert a decimal string of more than
    [sys.get_int_max_str_digits()] digits, 4300 unless the program sets
    another limit, which this one does not (versions 3.11 and later, and
    the security releases of 3.7 to 3.10; earlier ones have no limit).
    Every digit counts, leading zeros too; the sign, the underscores
    and the surrounding whitespace do not.  The refusal is a
    [ValueError] as well. *)
Definition max_str_digits : Z := 4300.

Definition digit_count (s : str) : nat := length (List.filter is_digit s).

Definition int_body (s : str) : option Z :=
  if Z.of_nat (digit_count s) <=? max_str_digits then int_digits 0 false s
  else None.

Definition int (s : str) : option Z :=
  match strip s with
  | c :: s' =>
      if Ascii.eqb c "-" then option_map Z.opp (int_body s')
      else if Ascii.eqb c "+" then int_body s'
      else int_body (c :: s')
  | [] => None
  end.

End Py.

(* ================================================================== *)
(** * The fragment of Python's [re] the processor uses *)
(* ================================================================== *)

Module Re.

(** One item of a bracket expression, or a single escaped class. *)
Inductive citem :=
| CLit (c : ascii)
| CRange (lo hi : ascii)
| CSpace                       (* \s *)
| CDigit.                      (* \d *)

Inductive cclass :=
| CDot                         (* . : anything but a newline *)
| CSet (items : list citem).

(** Regular expressions are sequences of atoms.  Repetition is only
    ever applied to a character class in the source patterns, and
    alternation only to literal words inside a group. *)
Inductive atom :=
| One (c : cclass)
| Opt (c : cclass)             (* c?  greedy *)
| Star (c : cclass)            (* c*  greedy *)
| Plus (c : cclass)            (* c+  greedy *)
| Bol                          (* ^ *)
| Eol                          (* $ *)
| GOpen                        (* ( of group 1 *)
| GClose                       (* ) of group 1 *)
| AltLit (words : list str).   (* w1|w2|... *)

Definition regex := list atom.

Definition lit (c : ascii) : atom := One (CSet [CLit c]).
Definition lits (w : string) : regex := map lit (list_ascii_of_string w).
Arguments lits w%_string.

Definition in_range (lo hi c : ascii) : bool :=
  ((Py.code lo <=? Py.code c) && (Py.code c <=? Py.code hi))%nat.

Section Matching.

(** [re.IGNORECASE] *)
Variable ignorecase : bool.

Definition char_eq (a c : ascii) : bool :=
  if ignorecase then Ascii.eqb (Py.lower_char a) (Py.lower_char c)
  else Ascii.eqb a c.

Definition in_item (it : citem) (c : ascii) : bool :=
  match it with
  | CLit a => char_eq a c
  | CRange lo hi =>
      in_range lo hi c
      || ignorecase && (in_range lo hi (Py.lower_char c)
                        || in_range lo hi (Py.upper_char c))
  | CSpace => Py.is_space c
  | CDigit => Py.is_digit c
  end.

Definition in_class (cl : cclass) (c : ascii) : bool :=
  match cl with
  | CDot => negb (Ascii.eqb c "010")
  | CSet items => existsb (fun it => in_item it c) items
  end.

(** The state of one match attempt: the text still to read, the
    index reached, and the span of group 1. *)
Record mstate := MState {
  rest : str;
  pos : nat;
  gopen : option nat;
  group1 : option (nat * nat)
}.

Definition advance (st : mstate) (s' : str) : mstate :=
  MState s' (S (pos st)) (gopen st) (group1 st).

(** Greedy repetition of a class: the longest run first, then
    shorter ones, each followed by the continuation [k]. *)
Fixpoint rep (cl : cclass) (s : str) (i : nat)
         (k : str -> nat -> option mstate) : option mstate :=
  match s with
  | c :: s' =>
      if in_class cl c then
        match rep cl s' (S i) k with
        | Some r => Some r
        | None => k s i
        end
      else k s i
  | [] => k s i
  end.

(** A literal word at the head of [s]; the rest and the new index. *)
Fixpoint word (w s : str) (i : nat) : option (str * nat) :=
  match w, s with
  | [], _ => Some (s, i)
  | a :: w', c :: s' => if char_eq a c then word w' s' (S i) else None
  | _ :: _, [] => None
  end.

Fixpoint alt (ws : list str) (s : str) (i : nat)
         (k : str -> nat -> option mstate) : option mstate :=
  match ws with
  | [] => None
  | w :: ws' =>
      match match word w s i with
            | Some (s', i') => k s' i'
            | None => None
            end with
      | Some r => Some r
      | None => alt ws' s i k
      end
  end.

(** [$] without [re.MULTILINE]: the end of the text, or just before
    a newline that ends it. *)
Definition at_end (s : str) : bool :=
  match s with
  | [] => true
  | [c] => Ascii.eqb c "010"
  | _ => false
  end.

(** Backtracking match of [r] from state [st]; the first success in
    Python's priority order. *)
Fixpoint run (r : regex) (st : mstate) {struct r} : option mstate :=
  let resume s i := MState s i (gopen st) (group1 st) in
  match r with
  | [] => Some st
  | One cl :: r' =>
      match rest st with
      | c :: s' => if in_class cl c then run r' (advance st s') else None
      | [] => None
      end
  | Opt cl :: r' =>
      match rest st with
      | c :: s' =>
          if in_class cl c then
            match run r' (advance st s') with
            | Some m => Some m
            | None => run r' st
            end
          else run r' st
      | [] => run r' st
      end
  | Star cl :: r' =>
      rep cl (rest st) (pos st) (fun s i => run r' (resume s i))
  | Plus cl :: r' =>
      match rest st with
      | c :: s' =>
          if in_class cl c
          then rep cl s' (S (pos st)) (fun s i => run r' (resume s i))
          else None
      | [] => None
      end
  | Bol :: r' => if (pos st =? 0)%nat then run r' st else None
  | Eol :: r' => if at_end (rest st) then run r' st else None
  | GOpen :: r' =>
      run r' (MState (rest st) (pos st) (Some (pos st)) (group1 st))
  | GClose :: r' =>
      run r' (MState (rest st) (pos st) (gopen st)
                     (match gopen st with
                      | Some a => Some (a, pos st)
                      | None => group1 st
                      end))
  | AltLit ws :: r' =>
      alt ws (rest st) (pos st) (fun s i => run r' (resume s i))
  end.

(** A match object: its span and the span of group 1. *)
Record rmatch := RMatch {
  m_start : nat;
  m_end : nat;
  m_group1 : option (nat * nat)
}.

Definition match_at (r : regex) (s : str) (i : nat) : option rmatch :=
  match run r (MState s i None None) with
  | Some st => Some (RMatch i (pos st) (group1 st))
  | None => None
  end.

(** [re.match(r, text)] *)
Definition rematch (r : regex) (text : str) : option rmatch :=
  match_at r text 0.

(** [re.finditer(r, text)]: the leftmost match, then the leftmost
    match that starts at or after its end, and so on.  [next] is the
    index before which no match may start.  The patterns handed to
    [finditer] in the source all contain a literal word, so none
    matches the empty string; after an empty match the scan here
    just moves on by one character. *)
Fixpoint scan (r : regex) (s : str) (i next : nat) : list rmatch :=
  let found :=
    if (i <? next)%nat then None else match_at r s i in
  match s with
  | [] => match found with Some m => [m] | None => [] end
  | _ :: s' =>
      match found with
      | Some m => m :: scan r s' (S i) (Nat.max (m_end m) (S i))
      | None => scan r s' (S i) next
      end
  end.

Definition finditer (r : regex) (text : str) : list rmatch :=
  scan r text 0 0.

End Matching.

Definition substr (text : str) (a b : nat) : str :=
  firstn (b - a) (skipn a text).

(** [m.group(0)] and [m.group(1)] *)
Definition group0 (text : str) (m : rmatch) : str :=
  substr text (m_start m) (m_end m).

Definition group_1 (text : str) (m : rmatch) : str :=
  match m_group1 m with
  | Some (a, b) => substr text a b
  | None => []
  end.

End Re.

(* ================================================================== *)
(** * document_processor.py *)
(* ================================================================== *)

(** ** The source document as python-docx exposes it *)

(** [run.bold] is tri-state: [True], [False] or [None]. *)
Record docx_run := DocxRun { run_bold : option bool }.

(** A paragraph of [self.doc.paragraphs]: its text, its runs and the
    name of its style when it has one. *)
Record docx_paragraph := DocxParagraph {
  para_text : str;
  para_runs : list docx_run;
  para_style : option str
}.

(** Outcome of a call that may raise. *)
Inductive result (A : Type) :=
| Ok (a : A)
| Raise (msg : str).
Arguments Ok {A} a.
Arguments Raise {A} msg.

(** One entry of [self.doc.part.rels]: [rel.target_ref] and what reading
    [rel.target_part.blob] gives. *)
Record relationship := Relationship {
  target_ref : str;
  target_part_blob : result (list Byte.byte)
}.

(** ** The content dictionary *)

Record body_paragraph := BodyParagraph {
  bp_text : str;
  bp_style : str;
  bp_is_heading : bool
}.

Record figure := Figure {
  fig_number : Z;
  fig_image_data : list Byte.byte;
  fig_caption : str;
  fig_rel_id : str
}.

Record table := Table {
  tab_number : Z;
  tab_data : list (list str);
  tab_caption : str
}.

Record content := Content {
  title : str;
  authors : list str;
  abstract : str;
  body : list body_paragraph;
  references : list str;
  figures : list figure;
  tables : list table
}.

(** [self.content] as [__init__] leaves it. *)
Definition empty_content : content := Content [] [] [] [] [] [] [].

Definition set_title (c : content) (t : str) : content :=
  Content t (authors c) (abstract c) (body c) (references c)
          (figures c) (tables c).

Definition set_abstract (c : content) (a : str) : content :=
  Content (title c) (authors c) a (body c) (references c)
          (figures c) (tables c).

Definition set_figures (c : content) (fs : list figure) : content :=
  Content (title c) (authors c) (abstract c) (body c) (references c)
          fs (tables c).

(** Truth value of a [str]. *)
Definition nonempty (s : str) : bool :=
  match s with [] => false | _ => true end.

(** ** [_extract_title] *)

(** [para.runs and para.runs[0].bold] *)
Definition first_run_bold (p : docx_paragraph) : bool :=
  match para_runs p with
  | r :: _ => match run_bold r with Some b => b | None => false end
  | [] => false
  end.

(** [para.style and 'Title' in para.style.name] *)
Definition style_has_Title (p : docx_paragraph) : bool :=
  match para_style p with
  | Some name => Py.contains (s_ "Title") name
  | None => false
  end.

Definition title_heuristic (p : docx_paragraph) : bool :=
  first_run_bold p
  || Py.contains (s_ "title:") (Py.lower (para_text p))
  || style_has_Title p.

(** The first loop: the first paragraph with text that passes the
    heuristic gives the title. *)
Fixpoint title_by_heuristic (ps : list docx_paragraph) : option str :=
  match ps with
  | [] => None
  | p :: ps' =>
      if nonempty (Py.strip (para_text p)) && title_heuristic p
      then Some (Py.strip (Py.replace (s_ "Title:") [] (para_text p)))
      else title_by_heuristic ps'
  end.

(** The fallback loop: the first paragraph with text. *)
Fixpoint title_fallback (ps : list docx_paragraph) : option str :=
  match ps with
  | [] => None
  | p :: ps' =>
      if nonempty (Py.strip (para_text p))
      then Some (Py.strip (para_text p))
      else title_fallback ps'
  end.

Definition _extract_title (paragraphs : list docx_paragraph)
           (c : content) : content :=
  match title_by_heuristic (firstn 10 paragraphs) with
  | Some t => set_title c t
  | None =>
      match title_fallback paragraphs with
      | Some t => set_title c t
      | None => c
      end
  end.

(** ** [_extract_abstract] *)

(** [^abstract:?$] *)
Definition abstract_start_re : Re.regex :=
  Re.Bol :: Re.lits "abstract"
  ++ [Re.Opt (Re.CSet [Re.CLit ":"]); Re.Eol].

(** [^(introduction|methods|keywords):?$] *)
Definition abstract_end_re : Re.regex :=
  [Re.Bol; Re.GOpen;
   Re.AltLit [s_ "introduction"; s_ "methods"; s_ "keywords"];
   Re.GClose; Re.Opt (Re.CSet [Re.CLit ":"]); Re.Eol].

Definition matches (r : Re.regex) (text : str) : bool :=
  match Re.rematch true r text with Some _ => true | None => false end.

(** The loop over the paragraphs with its two variables [in_abstract]
    and [abstract_text]; the result is [abstract_text] when the loop
    ends or breaks. *)
Fixpoint abstract_loop (ps : list docx_paragraph) (in_abstract : bool)
         (abstract_text : list str) : list str :=
  match ps with
  | [] => abstract_text
  | p :: ps' =>
      let text := Py.strip (para_text p) in
      if matches abstract_start_re text then
        abstract_loop ps' true abstract_text
      else if in_abstract && matches abstract_end_re text then
        abstract_text
      else if in_abstract && nonempty text then
        abstract_loop ps' in_abstract (abstract_text ++ [text])
      else
        abstract_loop ps' in_abstract abstract_text
  end.

Definition _extract_abstract (paragraphs : list docx_paragraph)
           (c : content) : content :=
  set_abstract c (Py.join (s_ " ") (abstract_loop paragraphs false [])).

(** ** [_find_figure_caption] and [_extract_figures] *)

(** [^\*?\*?figure\s+{figure_num}[\.:)\s]+(.+)] *)
Definition figure_caption_re (figure_num : Z) : Re.regex :=
  [Re.Bol; Re.Opt (Re.CSet [Re.CLit "*"]); Re.Opt (Re.CSet [Re.CLit "*"])]
  ++ Re.lits "figure"
  ++ [Re.Plus (Re.CSet [Re.CSpace])]
  ++ map Re.lit (Py.str_of_int figure_num)
  ++ [Re.Plus (Re.CSet [Re.CLit "."; Re.CLit ":"; Re.CLit ")"; Re.CSpace]);
      Re.GOpen; Re.Plus Re.CDot; Re.GClose].

Fixpoint find_caption (r : Re.regex) (ps : list docx_paragraph)
  : option str :=
  match ps with
  | [] => None
  | p :: ps' =>
      let text := Py.strip (para_text p) in
      match Re.rematch true r text with
      | Some m => Some (Py.strip (Re.group_1 text m))
      | None => find_caption r ps'
      end
  end.

Definition _find_figure_caption (paragraphs : list docx_paragraph)
           (figure_num : Z) : str :=
  match find_caption (figure_caption_re figure_num) paragraphs with
  | Some cap => cap
  | None => s_ "Figure " ++ Py.str_of_int figure_num
  end.

(** The loop over [self.doc.part.rels.items()]: the figures appended so
    far (in order), [figure_counter], and the warnings printed. *)
Fixpoint figures_loop (paragraphs : list docx_paragraph)
         (rels : list (str * relationship))
         (figs : list figure) (figure_counter : Z) (out : list str)
  : list figure * list str :=
  match rels with
  | [] => (figs, out)
  | (rel_id, rel) :: rels' =>
      if Py.contains (s_ "image") (target_ref rel) then
        match target_part_blob rel with
        | Ok image_data =>
            let caption :=
              _find_figure_caption paragraphs (figure_counter + 1) in
            figures_loop paragraphs rels'
              (figs ++ [Figure (figure_counter + 1) image_data
                               caption rel_id])
              (figure_counter + 1) out
        | Raise e =>
            figures_loop paragraphs rels' figs figure_counter
              (out ++ [s_ "Warning: Could not extract image "
                       ++ Py.str_of_int (figure_counter + 1)
                       ++ s_ ": " ++ e])
        end
      else figures_loop paragraphs rels' figs figure_counter out
  end.

(** [_extract_figures]: the new content and what was printed. *)
Definition _extract_figures (paragraphs : list docx_paragraph)
           (rels : list (str * relationship)) (c : content)
  : content * list str :=
  let '(figs, out) := figures_loop paragraphs rels [] 0 [] in
  (set_figures c figs, out).

(** ** [detect_citations] *)

Inductive kind := KFigure | KTable.

Global Instance kind_eq_dec : EqDecision kind.
Proof. solve_decision. Defined.

Global Instance kind_countable : Countable kind.
Proof.
  refine (inj_countable' (fun k => match k with KFigure => true | KTable => false end)
                         (fun b => if b then KFigure else KTable) _).
  intros []; reflexivity.
Defined.

Record citation := Citation {
  c_type : kind;
  c_number : str;
  c_position : Z;
  c_context : str;
  c_match_text : str
}.

Definition star_opt : Re.regex :=
  [Re.Opt (Re.CSet [Re.CLit "*"]); Re.Opt (Re.CSet [Re.CLit "*"])].
Definition spaces0 : Re.atom := Re.Star (Re.CSet [Re.CSpace]).
Definition spaces1 : Re.atom := Re.Plus (Re.CSet [Re.CSpace]).
Definition digits1 : Re.atom := Re.Plus (Re.CSet [Re.CDigit]).
Definition panel_opt : Re.atom := Re.Opt (Re.CSet [Re.CRange "A" "Z"]).
Definition dot_opt : Re.atom := Re.Opt (Re.CSet [Re.CLit "."]).

Definition figure_patterns : list Re.regex :=
  [ (* \(\s*\*?\*?Fig\.?\s+(\d+[A-Z]?)\s*\) *)
    [Re.lit "("; spaces0] ++ star_opt ++ Re.lits "Fig"
    ++ [dot_opt; spaces1; Re.GOpen; digits1; panel_opt; Re.GClose;
        spaces0; Re.lit ")"];
    (* \*?\*?Figure\s+(\d+[A-Z]?)\*?\*? *)
    star_opt ++ Re.lits "Figure"
    ++ [spaces1; Re.GOpen; digits1; panel_opt; Re.GClose] ++ star_opt;
    (* \(\s*\*?\*?Figure\s+(\d+[A-Z]?)\s*\) *)
    [Re.lit "("; spaces0] ++ star_opt ++ Re.lits "Figure"
    ++ [spaces1; Re.GOpen; digits1; panel_opt; Re.GClose;
        spaces0; Re.lit ")"] ].

Definition table_patterns : list Re.regex :=
  [ (* \(\s*\*?\*?Tab\.?\s+(\d+)\s*\) *)
    [Re.lit "("; spaces0] ++ star_opt ++ Re.lits "Tab"
    ++ [dot_opt; spaces1; Re.GOpen; digits1; Re.GClose;
        spaces0; Re.lit ")"];
    (* \*?\*?Table\s+(\d+)\*?\*? *)
    star_opt ++ Re.lits "Table"
    ++ [spaces1; Re.GOpen; digits1; Re.GClose] ++ star_opt;
    (* \(\s*\*?\*?Table\s+(\d+)\s*\) *)
    [Re.lit "("; spaces0] ++ star_opt ++ Re.lits "Table"
    ++ [spaces1; Re.GOpen; digits1; Re.GClose; spaces0; Re.lit ")"] ].

(** The citations one family of patterns appends for one paragraph:
    pattern by pattern, match by match. *)
Definition citations_of (k : kind) (patterns : list Re.regex)
           (para_idx : Z) (text : str) : list citation :=
  flat_map
    (fun pattern =>
       map (fun m => Citation k (Re.group_1 text m) para_idx text
                              (Re.group0 text m))
           (Re.finditer true pattern text))
    patterns.

(** The first loop of [detect_citations]: what it appends to
    [citations] from paragraph [para_idx] on. *)
Fixpoint collect_citations (para_idx : Z) (body : list body_paragraph)
  : list citation :=
  match body with
  | [] => []
  | para_dict :: body' =>
      let text := bp_text para_dict in
      citations_of KFigure figure_patterns para_idx text
      ++ citations_of KTable table_patterns para_idx text
      ++ collect_citations (para_idx + 1) body'
  end.

Definition citation_key (c : citation) : kind * str * Z :=
  (c_type c, c_number c, c_position c).

(** The second loop: [unique_citations] given the set [seen]. *)
Fixpoint unique_from (seen : gset (kind * str * Z)) (cs : list citation)
  : list citation :=
  match cs with
  | [] => []
  | c :: cs' =>
      if decide (citation_key c ∈ seen) then unique_from seen cs'
      else c :: unique_from ({[citation_key c]} ∪ seen) cs'
  end.

(** [sorted(l, key=lambda x: x['position'])].  Python's sort is stable;
    it is given here as the insertion sort that puts an element before
    the first later element with a key not smaller than its own. *)
Fixpoint insert_by_position (c : citation) (l : list citation)
  : list citation :=
  match l with
  | [] => [c]
  | d :: l' =>
      if c_position c <=? c_position d then c :: d :: l'
      else d :: insert_by_position c l'
  end.

Definition sorted_by_position (l : list citation) : list citation :=
  foldr insert_by_position [] l.

Definition detect_citations (c : content) : list citation :=
  sorted_by_position (unique_from ∅ (collect_citations 0 (body c))).

(* ================================================================== *)
(** * formatter.py *)
(* ================================================================== *)

(** ** The output document *)

Record font := Font {
  font_name : option str;
  font_size : option Z;            (* Pt *)
  font_bold : bool;
  font_italic : bool
}.

Definition plain_font : font := Font None None false false.

(** An inline picture: the image stream and the width handed to
    [add_picture], in inches.  No height is handed over. *)
Record picture := Picture {
  pic_data : list Byte.byte;
  pic_width : Q
}.

Record out_run := OutRun {
  or_text : str;
  or_font : font;
  or_picture : option picture
}.

Record out_paragraph := OutParagraph {
  op_style : str;
  op_centered : bool;              (* alignment = CENTER *)
  op_runs : list out_run;
  op_line_spacing : option Q       (* set by _set_paragraph_spacing *)
}.

Record out_cell := OutCell {
  oc_text : str;
  oc_font : font;
  oc_centered : bool
}.

Inductive block :=
| BParagraph (p : out_paragraph)
| BTable (style : str) (cells : list (list out_cell)).

Definition document := list block.

(** [doc.add_paragraph()] gives an empty paragraph of style Normal. *)
Definition empty_paragraph : out_paragraph :=
  OutParagraph (s_ "Normal") false [] None.

Definition FONT_NAME : str := s_ "Times New Roman".

(** ** Statements that append to the document and may raise *)

Inductive exn :=
| ValueError
| ZeroDivisionError
| IndexError
| ImageError.

Inductive outcome (A : Type) :=
| Done (a : A)
| Raised (e : exn).
Arguments Done {A} a.
Arguments Raised {A} e.

(** A statement maps the document to an outcome and the document as it
    is when the statement ends or raises. *)
Definition stmt (A : Type) : Type := document -> outcome A * document.

Definition ret {A} (a : A) : stmt A := fun doc => (Done a, doc).

Definition raise {A} (e : exn) : stmt A := fun doc => (Raised e, doc).

Definition bind {A B} (m : stmt A) (f : A -> stmt B) : stmt B :=
  fun doc =>
    match m doc with
    | (Done a, doc') => f a doc'
    | (Raised e, doc') => (Raised e, doc')
    end.

(** [try: m except Exception as e: h e] *)
Definition try_except {A} (m : stmt A) (h : exn -> stmt A) : stmt A :=
  fun doc =>
    match m doc with
    | (Done a, doc') => (Done a, doc')
    | (Raised e, doc') => h e doc'
    end.

Notation "x <- m ;; k" := (bind m (fun x => k))
  (at level 100, m at level 90, right associativity, only parsing).
Notation "m ;;; k" := (bind m (fun _ => k))
  (at level 100, k at level 100, right associativity, only parsing).

Definition emit (b : block) : stmt unit := fun doc => (Done tt, doc ++ [b]).

Definition of_option {A} (e : exn) (o : option A) : stmt A :=
  match o with Some a => ret a | None => raise e end.

(** [for x in xs: f x] *)
Fixpoint for_each {A} (xs : list A) (f : A -> stmt unit) : stmt unit :=
  match xs with
  | [] => ret tt
  | x :: xs' => f x ;;; for_each xs' f
  end.

(** ** The formatter and its collaborators *)

Record formatter := Formatter {
  fmt_font_size : Z;
  fmt_line_spacing : Q;
  fmt_figure_width : Q
}.

(** [min(a, b)] on numbers: [b] when it is smaller, else [a]. *)
Definition py_min (a b : Q) : Q := if Qle_bool a b then a else b.

(** Lines 212-217 of [_insert_figure]: from the image size, the pair
    ([width_inches], [height_inches]); [None] is the [ZeroDivisionError]
    of a zero pixel width. *)
Definition figure_geometry (figure_width : Q) (size : Z * Z)
  : option (Q * Q) :=
  let '(img_width, img_height) := size in
  if img_width =? 0 then None
  else
    let aspect_ratio := (inject_Z img_height / inject_Z img_width)%Q in
    let width_inches := py_min figure_width (65 # 10) in
    let height_inches := (width_inches * aspect_ratio)%Q in
    Some (width_inches, height_inches).

Definition caption_paragraph (text : str) : out_paragraph :=
  OutParagraph (s_ "Normal") true
               [OutRun text (Font (Some FONT_NAME) (Some 10) true false) None]
               None.

(** The placeholder of the [except] branches: one run, italic. *)
Definition placeholder (text : str) : out_paragraph :=
  OutParagraph (s_ "Normal") false
               [OutRun text (Font None None false true) None] None.

Definition figure_placeholder (number : str) : block :=
  BParagraph (placeholder (s_ "[Figure " ++ number
                           ++ s_ " - insertion failed]")).

Definition table_placeholder (number : str) : block :=
  BParagraph (placeholder (s_ "[Table " ++ number
                           ++ s_ " - insertion failed]")).

(** The empty paragraph put before and after a figure or a table. *)
Definition spacing : block := BParagraph empty_paragraph.

(** A centred paragraph whose one run holds the picture, and the same
    paragraph while its run is still empty. *)
Definition picture_block (data : list Byte.byte) (w : Q) : block :=
  BParagraph (OutParagraph (s_ "Normal") true
                [OutRun [] plain_font (Some (Picture data w))] None).

Definition pending_picture_block : block :=
  BParagraph (OutParagraph (s_ "Normal") true
                [OutRun [] plain_font None] None).

Definition figure_caption_block (fig_num : Z) (f : figure) : block :=
  BParagraph (caption_paragraph
                (s_ "Figure " ++ Py.str_of_int fig_num ++ s_ ": "
                 ++ fig_caption f)).

Definition table_caption_block (table_num : Z) (t : table) : block :=
  BParagraph (caption_paragraph
                (s_ "Table " ++ Py.str_of_int table_num ++ s_ ": "
                 ++ tab_caption t)).

Section Formatter.

(** PIL: [Image.open(io.BytesIO(data)).size]; [None] when it raises. *)
Variable image_size : list Byte.byte -> option (Z * Z).

(** python-docx: whether [run.add_picture] accepts the stream. *)
Variable picture_ok : list Byte.byte -> bool.

Variable self : formatter.

(** [para = doc.add_paragraph(); para.alignment = CENTER;
    run = para.add_run(); run.add_picture(stream, width=Inches(w))]:
    the centred paragraph and its run are in the document before
    [add_picture] reads the stream, and stay there when it raises. *)
Definition add_picture_paragraph (data : list Byte.byte) (w : Q)
  : stmt unit :=
  fun doc =>
    if picture_ok data then (Done tt, doc ++ [picture_block data w])
    else (Raised ImageError, doc ++ [pending_picture_block]).

(** The inner [try] of [_insert_figure] (lines 210-223). *)
Definition sized_picture (data : list Byte.byte) : stmt unit :=
  size <- of_option ImageError (image_size data) ;;
  geometry <- of_option ZeroDivisionError
                (figure_geometry (fmt_figure_width self) size) ;;
  add_picture_paragraph data (fst geometry).

(** The body of the outer [try] of [_insert_figure]. *)
Definition insert_figure_body (c : content) (cit : citation) : stmt unit :=
  fig_num <- of_option ValueError
               (Py.int (Py.rstrip_chars Py.is_upper (c_number cit))) ;;
  match List.filter (fun f => fig_number f =? fig_num) (figures c) with
  | [] => ret tt
  | figure :: _ =>
      emit spacing ;;;
      try_except
        (sized_picture (fig_image_data figure))
        (fun _ => add_picture_paragraph (fig_image_data figure)
                                        (fmt_figure_width self)) ;;;
      emit (figure_caption_block fig_num figure) ;;;
      emit spacing
  end.

Definition _insert_figure (c : content) (cit : citation) : stmt unit :=
  try_except (insert_figure_body c cit)
             (fun _ => emit (figure_placeholder (c_number cit))).

(** The cells of the grid after the populate loop: [doc.add_table]
    makes [cols] empty cells per row, and cell [j] of row [i] takes
    the text and the fonts when the row of the data has a [j]. *)
Definition grid_cell (i : nat) (row_data : list str) (j : nat) : out_cell :=
  match nth_error row_data j with
  | Some cell_data =>
      OutCell cell_data
              (Font (Some FONT_NAME) (Some 10) (i =? 0)%nat false)
              (i =? 0)%nat
  | None => OutCell [] plain_font false
  end.

Definition grid (table_data : list (list str)) (cols : nat)
  : list (list out_cell) :=
  imap (fun i row_data => map (grid_cell i row_data) (seq 0 cols))
       table_data.

(** [max(len(row) for row in table_data)] of a non-empty list. *)
Definition max_row_width (table_data : list (list str)) : nat :=
  foldr (fun row acc => Nat.max (length row) acc) 0%nat table_data.

Definition insert_table_body (c : content) (cit : citation) : stmt unit :=
  table_num <- of_option ValueError (Py.int (c_number cit)) ;;
  match List.filter (fun t => tab_number t =? table_num) (tables c) with
  | [] => ret tt
  | table_data_dict :: _ =>
      let table_data := tab_data table_data_dict in
      match table_data with
      | [] => ret tt
      | _ :: _ =>
          emit spacing ;;;
          emit (table_caption_block table_num table_data_dict) ;;;
          let rows := length table_data in
          let cols := max_row_width table_data in
          (if (0 <? rows)%nat && (0 <? cols)%nat
           then emit (BTable (s_ "Table Grid") (grid table_data cols))
           else ret tt) ;;;
          emit spacing
      end
  end.

Definition _insert_table (c : content) (cit : citation) : stmt unit :=
  try_except (insert_table_body c cit)
             (fun _ => emit (table_placeholder (c_number cit))).

(** The first loop of [_add_body_with_citations]: the insertion map. *)
Definition insertion_map_add (m : gmap Z (list citation)) (cit : citation)
  : gmap Z (list citation) :=
  let para_idx := c_position cit in
  <[para_idx := default [] (m !! para_idx) ++ [cit]]> m.

Definition insertion_map (citations : list citation)
  : gmap Z (list citation) :=
  fold_left insertion_map_add citations ∅.

(** The paragraph block of one body paragraph.  [doc.add_heading]
    gives the paragraph a run only when the text is not empty, so
    [para.runs[0]] raises [IndexError] on a heading without text. *)
Definition add_body_paragraph (para_dict : body_paragraph) : stmt unit :=
  if bp_is_heading para_dict then
    match bp_text para_dict with
    | [] =>
        emit (BParagraph (OutParagraph (s_ "Heading 1") false [] None)) ;;;
        raise IndexError
    | text =>
        emit (BParagraph (OutParagraph (s_ "Heading 1") false
                [OutRun text (Font (Some FONT_NAME) None false false) None]
                None))
    end
  else
    emit (BParagraph (OutParagraph (s_ "Normal") false
            [OutRun (bp_text para_dict)
                    (Font (Some FONT_NAME) (Some (fmt_font_size self))
                          false false) None]
            (Some (fmt_line_spacing self)))).

Definition insert_cited (c : content) (cit : citation) : stmt unit :=
  match c_type cit with
  | KFigure => _insert_figure c cit
  | KTable => _insert_table c cit
  end.

(** The second loop, from paragraph [idx] on. *)
Fixpoint body_loop (c : content) (m : gmap Z (list citation))
         (idx : Z) (paras : list body_paragraph) : stmt unit :=
  match paras with
  | [] => ret tt
  | para_dict :: paras' =>
      add_body_paragraph para_dict ;;;
      match m !! idx with
      | Some cits => for_each cits (insert_cited c)
      | None => ret tt
      end ;;;
      body_loop c m (idx + 1) paras'
  end.

Definition _add_body_with_citations (c : content)
           (citations : list citation) : stmt unit :=
  body_loop c (insertion_map citations) 0 (body c).

End Formatter.

(* ================================================================== *)
(** * document_processor.py: the remaining extractors *)
(* ================================================================== *)

Definition set_authors (c : content) (a : list str) : content :=
  Content (title c) a (abstract c) (body c) (references c)
          (figures c) (tables c).

Definition set_body (c : content) (b : list body_paragraph) : content :=
  Content (title c) (authors c) (abstract c) b (references c)
          (figures c) (tables c).

Definition set_references (c : content) (r : list str) : content :=
  Content (title c) (authors c) (abstract c) (body c) r
          (figures c) (tables c).

Definition set_tables (c : content) (ts : list table) : content :=
  Content (title c) (authors c) (abstract c) (body c) (references c)
          (figures c) ts.

(** [re.search(r, text)]: the match at the first index that has one. *)
Fixpoint search_from (ignorecase : bool) (r : Re.regex) (s : str) (i : nat)
  : option Re.rmatch :=
  match Re.match_at ignorecase r s i with
  | Some m => Some m
  | None =>
      match s with
      | [] => None
      | _ :: s' => search_from ignorecase r s' (S i)
      end
  end.

Definition found (ignorecase : bool) (r : Re.regex) (text : str) : bool :=
  match search_from ignorecase r text 0 with
  | Some _ => true
  | None => false
  end.

(** ** [_extract_authors] *)

(** [author|affiliation] *)
Definition author_re : Re.regex :=
  [Re.AltLit [s_ "author"; s_ "affiliation"]].

(** [\d+\s*,] *)
Definition digit_comma_re : Re.regex :=
  [Re.Plus (Re.CSet [Re.CDigit]); Re.Star (Re.CSet [Re.CSpace]);
   Re.lit ","].

(** The loop over the first 30 paragraphs with [author_section] and
    [authors]. *)
Fixpoint authors_loop (ps : list docx_paragraph) (author_section : bool)
         (authors : list str) : list str :=
  match ps with
  | [] => authors
  | p :: ps' =>
      let text := Py.strip (para_text p) in
      if found true author_re text then authors_loop ps' true authors
      else if author_section then
        if Py.contains (s_ "@") text || found false digit_comma_re text
        then authors_loop ps' author_section (authors ++ [text])
        else if Py.contains (s_ "abstract") (Py.lower text) then authors
        else authors_loop ps' author_section authors
      else authors_loop ps' author_section authors
  end.

Definition _extract_authors (paragraphs : list docx_paragraph)
           (c : content) : content :=
  set_authors c (authors_loop (firstn 30 paragraphs) false []).

(** ** [_is_heading] and [_extract_body] *)

Definition _is_heading (p : docx_paragraph) : bool :=
  match para_style p with
  | Some name => Py.contains (s_ "Heading") name
  | None =>
      first_run_bold p && (Z.of_nat (length (para_text p)) <? 100)
  end.

(** [^(introduction|background|methods)] *)
Definition body_start_re : Re.regex :=
  [Re.Bol; Re.GOpen;
   Re.AltLit [s_ "introduction"; s_ "background"; s_ "methods"];
   Re.GClose].

(** [^references?:?$] *)
Definition references_re : Re.regex :=
  Re.Bol :: Re.lits "reference"
  ++ [Re.Opt (Re.CSet [Re.CLit "s"]); Re.Opt (Re.CSet [Re.CLit ":"]);
      Re.Eol].

(** The four [skip_patterns].  In the first, [authors?] and [keywords?]
    stand inside the alternation; the greedy [s?] tries the word with
    its s first, so the alternatives are listed in that order. *)
Definition skip_patterns : list Re.regex :=
  [ (* ^(title|authors?|abstract|keywords?): *)
    [Re.Bol; Re.GOpen;
     Re.AltLit [s_ "title"; s_ "authors"; s_ "author"; s_ "abstract";
                s_ "keywords"; s_ "keyword"];
     Re.GClose; Re.lit ":"];
    (* ^figure \d+: *)
    Re.Bol :: Re.lits "figure "
    ++ [Re.Plus (Re.CSet [Re.CDigit]); Re.lit ":"];
    (* ^table \d+: *)
    Re.Bol :: Re.lits "table "
    ++ [Re.Plus (Re.CSet [Re.CDigit]); Re.lit ":"];
    (* ^references?:?$ *)
    references_re ].

Definition skipped (text : str) : bool :=
  existsb (fun pattern => matches pattern text) skip_patterns.

(** [para.style.name if para.style else 'Normal'] *)
Definition style_name (p : docx_paragraph) : str :=
  match para_style p with
  | Some name => name
  | None => s_ "Normal"
  end.

(** The loop with [in_body] and [body_content]. *)
Fixpoint extract_body_loop (ps : list docx_paragraph) (in_body : bool)
         (body_content : list body_paragraph) : list body_paragraph :=
  match ps with
  | [] => body_content
  | p :: ps' =>
      let text := Py.strip (para_text p) in
      let in_body := in_body || matches body_start_re text in
      if in_body && matches references_re text then body_content
      else if skipped text then extract_body_loop ps' in_body body_content
      else if in_body && nonempty text then
        extract_body_loop ps' in_body
          (body_content
           ++ [BodyParagraph text (style_name p) (_is_heading p)])
      else extract_body_loop ps' in_body body_content
  end.

Definition _extract_body (paragraphs : list docx_paragraph)
           (c : content) : content :=
  set_body c (extract_body_loop paragraphs false []).

(** ** [_extract_references] *)

(** [^(figure|table)] *)
Definition figure_or_table_re : Re.regex :=
  [Re.Bol; Re.GOpen; Re.AltLit [s_ "figure"; s_ "table"]; Re.GClose].

Fixpoint references_loop (ps : list docx_paragraph) (in_references : bool)
         (refs : list str) : list str :=
  match ps with
  | [] => refs
  | p :: ps' =>
      let text := Py.strip (para_text p) in
      if matches references_re text then references_loop ps' true refs
      else if in_references && matches figure_or_table_re text then refs
      else if in_references && nonempty text then
        references_loop ps' in_references (refs ++ [text])
      else references_loop ps' in_references refs
  end.

Definition _extract_references (paragraphs : list docx_paragraph)
           (c : content) : content :=
  set_references c (references_loop paragraphs false []).

(** ** [_find_table_caption] and [_extract_tables] *)

(** [^\*?\*?table\s+{table_num}[\.:)\s]+(.+)] *)
Definition table_caption_re (table_num : Z) : Re.regex :=
  [Re.Bol; Re.Opt (Re.CSet [Re.CLit "*"]); Re.Opt (Re.CSet [Re.CLit "*"])]
  ++ Re.lits "table"
  ++ [Re.Plus (Re.CSet [Re.CSpace])]
  ++ map Re.lit (Py.str_of_int table_num)
  ++ [Re.Plus (Re.CSet [Re.CLit "."; Re.CLit ":"; Re.CLit ")"; Re.CSpace]);
      Re.GOpen; Re.Plus Re.CDot; Re.GClose].

Definition _find_table_caption (paragraphs : list docx_paragraph)
           (table_num : Z) : str :=
  match find_caption (table_caption_re table_num) paragraphs with
  | Some cap => cap
  | None => s_ "Table " ++ Py.str_of_int table_num
  end.

(** One entry of [self.doc.tables]: the texts of its cells row by row,
    or the exception that reading them raises. *)
Definition docx_table : Type := result (list (list str)).

(** The loop over [enumerate(self.doc.tables)] from index [idx] on: the
    tables appended and the warnings printed. *)
Fixpoint tables_loop (paragraphs : list docx_paragraph) (idx : Z)
         (tables : list docx_table) (tables_data : list table)
         (out : list str) : list table * list str :=
  match tables with
  | [] => (tables_data, out)
  | Ok rows :: tables' =>
      let table_data := map (map Py.strip) rows in
      let caption := _find_table_caption paragraphs (idx + 1) in
      tables_loop paragraphs (idx + 1) tables'
        (tables_data ++ [Table (idx + 1) table_data caption]) out
  | Raise e :: tables' =>
      tables_loop paragraphs (idx + 1) tables' tables_data
        (out ++ [s_ "Warning: Could not extract table "
                 ++ Py.str_of_int (idx + 1) ++ s_ ": " ++ e])
  end.

Definition _extract_tables (paragraphs : list docx_paragraph)
           (tables : list docx_table) (c : content)
  : content * list str :=
  let '(tables_data, out) := tables_loop paragraphs 0 tables [] [] in
  (set_tables c tables_data, out).

(** ** [extract_all_content] *)

(** The loaded document: paragraphs, relationships and tables. *)
Record docx_document := DocxDocument {
  doc_paragraphs : list docx_paragraph;
  doc_rels : list (str * relationship);
  doc_tables : list docx_table
}.

(** The seven extractors in source order, from the content [__init__]
    sets up; the second component is what was printed. *)
Definition extract_all_content (doc : docx_document) : content * list str :=
  let ps := doc_paragraphs doc in
  let c := _extract_title ps empty_content in
  let c := _extract_authors ps c in
  let c := _extract_abstract ps c in
  let c := _extract_body ps c in
  let c := _extract_references ps c in
  let '(c, out1) := _extract_figures ps (doc_rels doc) c in
  let '(c, out2) := _extract_tables ps (doc_tables doc) c in
  (c, out1 ++ out2).

(* ================================================================== *)
(** * formatter.py: the constructor *)
(* ================================================================== *)

Definition spacing_map : gmap str Q :=
  {[ s_ "Single" := 1%Q; s_ "1.5 lines" := (15 # 10)%Q;
     s_ "Double" := 2%Q ]}.

(** [spacing_map.get(spacing_str, 2.0)] *)
Definition _convert_line_spacing (spacing_str : str) : Q :=
  default 2%Q (spacing_map !! spacing_str).

(** [JournalFormatter(font_size, line_spacing, figure_width)] *)
Definition JournalFormatter (font_size : Z) (line_spacing : str)
           (figure_width : Q) : formatter :=
  Formatter font_size (_convert_line_spacing line_spacing) figure_width.

(* ================================================================== *)
(** * Vocabulary of the properties *)
(* ================================================================== *)

Definition position_le (a b : citation) : Prop :=
  c_position a <= c_position b.

Definition at_position (p : Z) (c : citation) : bool := c_position c =? p.

(** The image relationships whose blob could be read, in storage order,
    and the number of those whose blob could not. *)
Fixpoint readable_images (rels : list (str * relationship))
  : list (str * list Byte.byte) :=
  match rels with
  | [] => []
  | (rel_id, rel) :: rels' =>
      if Py.contains (s_ "image") (target_ref rel) then
        match target_part_blob rel with
        | Ok data => (rel_id, data) :: readable_images rels'
        | Raise _ => readable_images rels'
        end
      else readable_images rels'
  end.

Fixpoint unreadable_images (rels : list (str * relationship)) : nat :=
  match rels with
  | [] => 0%nat
  | (_, rel) :: rels' =>
      if Py.contains (s_ "image") (target_ref rel) then
        match target_part_blob rel with
        | Ok _ => unreadable_images rels'
        | Raise _ => S (unreadable_images rels')
        end
      else unreadable_images rels'
  end.

Definition fig_source (f : figure) : str * list Byte.byte :=
  (fig_rel_id f, fig_image_data f).

(** Whether an optional result is there. *)
Definition accepted {A} (o : option A) : bool :=
  match o with Some _ => true | None => false end.

(** What may follow the word in the two abstract patterns: [:?$]. *)
Definition line_tail (s : str) : bool :=
  match s with
  | [] => true
  | [c] => Re.char_eq true ":" c || Ascii.eqb c "010"
  | [c; d] => Re.char_eq true ":" c && Ascii.eqb d "010"
  | _ => false
  end.

(** The text is the word [w], in any letter case, with or without a
    colon after it. *)
Definition ci_line (w t : str) : bool :=
  bool_decide (Py.lower t = w) || bool_decide (Py.lower t = w ++ s_ ":").

Definition is_abstract_heading (t : str) : bool := ci_line (s_ "abstract") t.

Definition is_abstract_end (t : str) : bool :=
  ci_line (s_ "introduction") t || ci_line (s_ "methods") t
  || ci_line (s_ "keywords") t.

Definition no_final_newline (t : str) : Prop :=
  forall pre, t <> pre ++ ["010"%char].

Definition stripped_text (p : docx_paragraph) : str := Py.strip (para_text p).

(** The lines up to, and without, the first one that [stop] accepts. *)
Fixpoint take_until (stop : str -> bool) (ls : list str) : list str :=
  match ls with
  | [] => []
  | l :: ls' => if stop l then [] else l :: take_until stop ls'
  end.

(** The lines after the "Abstract" line that the abstract is made of:
    the trimmed lines before the closing heading that are not empty and
    are not themselves an "Abstract" line. *)
Definition abstract_lines (post : list docx_paragraph) : list str :=
  List.filter (fun t => nonempty t && negb (is_abstract_heading t))
              (take_until is_abstract_end (map stripped_text post)).

(** The same with every non-empty line kept. *)
Definition abstract_lines_all (post : list docx_paragraph) : list str :=
  List.filter nonempty
              (take_until is_abstract_end (map stripped_text post)).

Definition plain_paragraph (text : string) : docx_paragraph :=
  DocxParagraph (s_ text) [] None.
Arguments plain_paragraph text%_string.

(** A paragraph the first loop of [_extract_title] stops at. *)
Definition title_candidate (p : docx_paragraph) : bool :=
  nonempty (Py.strip (para_text p)) && title_heuristic p.

(** The text without a "Title:" it starts with. *)
Definition without_leading_title (t : str) : str :=
  match Py.strip_prefix (s_ "Title:") t with
  | Some r => r
  | None => t
  end.

(** [m] ends with outcome [o] after appending exactly [bs], whatever
    the document was. *)
Definition appends {A} (m : stmt A) (o : outcome A) (bs : list block) : Prop :=
  forall doc, m doc = (o, doc ++ bs).

(** The outcome and the appended blocks of [m] are read off its run on
    the empty document. *)
Definition regular {A} (m : stmt A) : Prop :=
  appends m (fst (m [])) (snd (m [])).

(** The blocks placement appends for one citation. *)
Definition placed (image_size : list Byte.byte -> option (Z * Z))
           (picture_ok : list Byte.byte -> bool) (self : formatter)
           (c : content) (cit : citation) : list block :=
  snd (insert_cited image_size picture_ok self c cit []).

(** The block of a body paragraph. *)
Definition body_block (self : formatter) (p : body_paragraph) : block :=
  if bp_is_heading p then
    BParagraph (OutParagraph (s_ "Heading 1") false
      [OutRun (bp_text p) (Font (Some FONT_NAME) None false false) None]
      None)
  else
    BParagraph (OutParagraph (s_ "Normal") false
      [OutRun (bp_text p)
              (Font (Some FONT_NAME) (Some (fmt_font_size self)) false false)
              None]
      (Some (fmt_line_spacing self))).

(** Body paragraphs as [_extract_body] makes them have text; only the
    headings need it here. *)
Definition heading_has_text (p : body_paragraph) : bool :=
  negb (bp_is_heading p) || nonempty (bp_text p).

(** The citations anchored at paragraph [idx], in list order. *)
Definition cited_at (citations : list citation) (idx : Z) : list citation :=
  List.filter (at_position idx) citations.

(** Paragraph [idx] followed by what is placed for its citations. *)
Definition section_blocks (image_size : list Byte.byte -> option (Z * Z))
           (picture_ok : list Byte.byte -> bool) (self : formatter)
           (c : content) (citations : list citation)
           (idx : Z) (p : body_paragraph) : list block :=
  body_block self p
  :: flat_map (placed image_size picture_ok self c) (cited_at citations idx).

Fixpoint sections (image_size : list Byte.byte -> option (Z * Z))
         (picture_ok : list Byte.byte -> bool) (self : formatter)
         (c : content) (citations : list citation)
         (idx : Z) (paras : list body_paragraph) : list block :=
  match paras with
  | [] => []
  | p :: paras' =>
      section_blocks image_size picture_ok self c citations idx p
      ++ sections image_size picture_ok self c citations (idx + 1) paras'
  end.

(** In [out], paragraph number [i] of the body is followed, before any
    later paragraph, by the blocks placed for [cit]; only blocks placed
    for other citations of that paragraph stand in between. *)
Definition placed_after (image_size : list Byte.byte -> option (Z * Z))
           (picture_ok : list Byte.byte -> bool) (self : formatter)
           (c : content) (citations : list citation) (out : document)
           (i : nat) (p : body_paragraph) (cit : citation) : Prop :=
  exists l1 l2 rest,
    cited_at citations (Z.of_nat i) = l1 ++ cit :: l2
    /\ out = sections image_size picture_ok self c citations 0
                      (firstn i (body c))
             ++ body_block self p
             :: flat_map (placed image_size picture_ok self c) l1
             ++ placed image_size picture_ok self c cit
             ++ flat_map (placed image_size picture_ok self c) l2
             ++ rest.

(** [int(citation['number'].rstrip('ABC...Z'))]; [None] when it raises. *)
Definition figure_number_of (cit : citation) : option Z :=
  Py.int (Py.rstrip_chars Py.is_upper (c_number cit)).

(** [matching_figures[0]] and [matching_tables[0]], when there is one. *)
Definition find_figure (c : content) (n : Z) : option figure :=
  match List.filter (fun f => fig_number f =? n) (figures c) with
  | f :: _ => Some f
  | [] => None
  end.

Definition find_table (c : content) (n : Z) : option table :=
  match List.filter (fun t => tab_number t =? n) (tables c) with
  | t :: _ => Some t
  | [] => None
  end.

(** Whether lines 211-217 get through: the size is read and the pixel
    width is not zero. *)
Definition sizing_ok (image_size : list Byte.byte -> option (Z * Z))
           (figure_width : Q) (data : list Byte.byte) : bool :=
  match image_size data with
  | Some size =>
      match figure_geometry figure_width size with
      | Some _ => true
      | None => false
      end
  | None => false
  end.

(** The body of the [try] that places [cit], and the placeholder its
    [except] branch emits. *)
Definition try_body (image_size : list Byte.byte -> option (Z * Z))
           (picture_ok : list Byte.byte -> bool) (self : formatter)
           (c : content) (cit : citation) : stmt unit :=
  match c_type cit with
  | KFigure => insert_figure_body image_size picture_ok self c cit
  | KTable => insert_table_body c cit
  end.

Definition failure_text (cit : citation) : str :=
  match c_type cit with
  | KFigure => s_ "[Figure " ++ c_number cit ++ s_ " - insertion failed]"
  | KTable => s_ "[Table " ++ c_number cit ++ s_ " - insertion failed]"
  end.

Definition italic (b : block) : Prop :=
  match b with
  | BParagraph p =>
      op_runs p <> []
      /\ List.Forall (fun r => font_italic (or_font r) = true) (op_runs p)
  | BTable _ _ => False
  end.

Definition text_of (b : block) : str :=
  match b with
  | BParagraph p => concat (map or_text (op_runs p))
  | BTable _ _ => []
  end.

Definition is_table (b : block) : bool :=
  match b with BTable _ _ => true | BParagraph _ => false end.

(** The pictures of a list of blocks. *)
Definition pictures (bs : list block) : list picture :=
  flat_map (fun b => match b with
                     | BParagraph p => omap or_picture (op_runs p)
                     | BTable _ _ => []
                     end) bs.

(** What the picture step of a found figure appends: the inner [try]
    with its fallback. *)
Definition picture_step (image_size : list Byte.byte -> option (Z * Z))
           (picture_ok : list Byte.byte -> bool) (self : formatter)
           (f : figure) : stmt unit :=
  try_except
    (sized_picture image_size picture_ok self (fig_image_data f))
    (fun _ => add_picture_paragraph picture_ok (fig_image_data f)
                                    (fmt_figure_width self)).

(** The blocks left by the attempts to add a picture that is rejected. *)
Definition failed_attempts (image_size : list Byte.byte -> option (Z * Z))
           (self : formatter) (data : list Byte.byte) : list block :=
  if sizing_ok image_size (fmt_figure_width self) data
  then [pending_picture_block; pending_picture_block]
  else [pending_picture_block].

Definition normal_paragraph (text : string) : body_paragraph :=
  BodyParagraph (s_ text) (s_ "Normal") false.
Arguments normal_paragraph text%_string.

Definition default_formatter : formatter := Formatter 12 2 6.

(** Decoders that read every stream as a 1200 x 800 image, and decoders
    that reject every stream. *)
Definition size_1200_800 (_ : list Byte.byte) : option (Z * Z) :=
  Some (1200, 800).
Definition no_size (_ : list Byte.byte) : option (Z * Z) := None.
Definition accept_all (_ : list Byte.byte) : bool := true.
Definition reject_all (_ : list Byte.byte) : bool := false.

Definition figure_1 : figure := Figure 1 [] (s_ "Flow chart") (s_ "rId7").
Definition figure_2 : figure := Figure 2 [] (s_ "Survival") (s_ "rId8").


Definition cite_figure (number : string) (position : Z) : citation :=
  Citation KFigure (s_ number) position [] [].
Arguments cite_figure number%_string position%_Z.

Definition cite_table (number : string) (position : Z) : citation :=
  Citation KTable (s_ number) position [] [].
Arguments cite_table number%_string position%_Z.

(** A body that cites figure 2 once. *)
Definition once_cited : content :=
  Content [] [] [] [normal_paragraph "Survival is shown in Figure 2."]
          [] [figure_1; figure_2] [].

(** A table of two rows without cells. *)
Definition hollow_table : table := Table 1 [[]; []] (s_ "Baseline").

Definition with_hollow_table : content :=
  Content [] [] [] [normal_paragraph "See Table 1."] [] [] [hollow_table].

(** A body that cites panel a of a figure 3 that was not extracted. *)
Definition lowercase_panel : content :=
  Content [] [] [] [normal_paragraph "Results are in Figure 3a."] [] [] [].

(** ** The pipeline *)

(** A citation that points at a paragraph of the body and carries that
    paragraph's text as its context. *)
Definition anchored (c : content) (cit : citation) : Prop :=
  exists i p,
    body c !! i = Some p
    /\ c_position cit = Z.of_nat i
    /\ c_context cit = bp_text p.

(** The position of the citation is an index of the body. *)
Definition in_body_range (c : content) (cit : citation) : bool :=
  (0 <=? c_position cit) && (c_position cit <? Z.of_nat (length (body c))).

(** The tables of the source that can be read, each with its index. *)
Fixpoint readable_tables (idx : Z) (tables : list docx_table)
  : list (Z * list (list str)) :=
  match tables with
  | [] => []
  | Ok rows :: tables' => (idx, rows) :: readable_tables (idx + 1) tables'
  | Raise _ :: tables' => readable_tables (idx + 1) tables'
  end.

Fixpoint unreadable_tables (tables : list docx_table) : nat :=
  match tables with
  | [] => 0%nat
  | Ok _ :: tables' => unreadable_tables tables'
  | Raise _ :: tables' => S (unreadable_tables tables')
  end.

(** The index in the source and the cell texts of an extracted table. *)
Definition tab_source (t : table) : Z * list (list str) :=
  (tab_number t - 1, tab_data t).

(** A row of the data, cut or filled with empty texts to [cols]. *)
Definition padded_row (cols : nat) (row : list str) : list str :=
  map (fun j => default [] (nth_error row j)) (seq 0 cols).

(** The table made from entry [i] of [doc.tables], and the figure made
    from the image that is the [i]-th to be read. *)
Definition table_of_source (paragraphs : list docx_paragraph)
           (entry : Z * list (list str)) : table :=
  Table (fst entry + 1) (map (map Py.strip) (snd entry))
        (_find_table_caption paragraphs (fst entry + 1)).

Definition figure_of_source (paragraphs : list docx_paragraph) (number : Z)
           (entry : str * list Byte.byte) : figure :=
  Figure number (snd entry) (_find_figure_caption paragraphs number)
         (fst entry).

(** The header cell and the body cell the populate loop leaves. *)
Definition header_cell (text : str) : out_cell :=
  OutCell text (Font (Some FONT_NAME) (Some 10) true false) true.

Definition plain_cell (text : str) : out_cell :=
  OutCell text (Font (Some FONT_NAME) (Some 10) false false) false.

Definition grid_texts (cells : list (list out_cell)) : list (list str) :=
  map (map oc_text) cells.

(** ** What a successful match went through *)

(** [reaches r st st']: some way of matching [r] from state [st] ends
    in state [st'].  Every result of [Re.run] is one such way. *)
Fixpoint reaches (r : Re.regex) (st st' : Re.mstate) : Prop :=
  let resume s i := Re.MState s i (Re.gopen st) (Re.group1 st) in
  match r with
  | [] => st' = st
  | Re.One cl :: r' =>
      exists c s', Re.rest st = c :: s'
                   /\ Re.in_class true cl c = true
                   /\ reaches r' (Re.advance st s') st'
  | Re.Opt cl :: r' =>
      (exists c s', Re.rest st = c :: s'
                    /\ Re.in_class true cl c = true
                    /\ reaches r' (Re.advance st s') st')
      \/ reaches r' st st'
  | Re.Star cl :: r' =>
      exists used s', Re.rest st = used ++ s'
                      /\ forallb (Re.in_class true cl) used = true
                      /\ reaches r' (resume s' (Re.pos st + length used)%nat)
                                 st'
  | Re.Plus cl :: r' =>
      exists used s', Re.rest st = used ++ s'
                      /\ used <> []
                      /\ forallb (Re.in_class true cl) used = true
                      /\ reaches r' (resume s' (Re.pos st + length used)%nat)
                                 st'
  | Re.Bol :: r' => Re.pos st = 0%nat /\ reaches r' st st'
  | Re.Eol :: r' => Re.at_end (Re.rest st) = true /\ reaches r' st st'
  | Re.GOpen :: r' =>
      reaches r' (Re.MState (Re.rest st) (Re.pos st) (Some (Re.pos st))
                            (Re.group1 st)) st'
  | Re.GClose :: r' =>
      reaches r' (Re.MState (Re.rest st) (Re.pos st) (Re.gopen st)
                            (match Re.gopen st with
                             | Some a => Some (a, Re.pos st)
                             | None => Re.group1 st
                             end)) st'
  | Re.AltLit ws :: r' =>
      exists w s' i', In w ws
                      /\ Re.word true w (Re.rest st) (Re.pos st)
                         = Some (s', i')
                      /\ reaches r' (resume s' i') st'
  end.

(** A pattern without the parentheses of group 1. *)
Definition group_free (r : Re.regex) : bool :=
  forallb (fun a => match a with
                    | Re.GOpen | Re.GClose => false
                    | _ => true
                    end) r.

(** One or more decimal digits. *)
Definition digit_string (s : str) : Prop :=
  s <> [] /\ forallb Py.is_digit s = true.

(** Nothing, or one letter of either case. *)
Definition panel_suffix (s : str) : Prop :=
  s = [] \/ exists x, s = [x] /\ (Py.is_upper x || Py.is_lower x) = true.

(** The number of a figure citation: digits, then a panel suffix. *)
Definition figure_number_shape (number : str) : Prop :=
  exists ds suffix,
    number = ds ++ suffix /\ digit_string ds /\ panel_suffix suffix.

(** The state in which a match attempt at index [i] of [text] starts. *)
Definition state_at (text : str) (i : nat) : Re.mstate :=
  Re.MState (skipn i text) i None None.

(** ** Section headings, in words *)

(** The text begins with the word [w], in any letter case. *)
Definition starts_with_ci (w t : str) : bool :=
  accepted (Py.strip_prefix w (Py.lower t)).

(** The text has the word [w] somewhere, in any letter case. *)
Definition mentions_ci (w t : str) : bool := Py.contains w (Py.lower t).

(** A line that begins with "Introduction", "Background" or "Methods". *)
Definition starts_body (t : str) : bool :=
  starts_with_ci (s_ "introduction") t
  || starts_with_ci (s_ "background") t
  || starts_with_ci (s_ "methods") t.

(** A line that reads "Reference" or "References", a colon allowed. *)
Definition is_references_heading (t : str) : bool :=
  ci_line (s_ "references") t || ci_line (s_ "reference") t.

(** A line that begins with "Figure" or "Table". *)
Definition starts_legend (t : str) : bool :=
  starts_with_ci (s_ "figure") t || starts_with_ci (s_ "table") t.

(** A line that mentions "author" or "affiliation". *)
Definition mentions_author (t : str) : bool :=
  mentions_ci (s_ "author") t || mentions_ci (s_ "affiliation") t.

(** The elements up to, and without, the first one [stop] accepts. *)
Fixpoint upto {A} (stop : A -> bool) (l : list A) : list A :=
  match l with
  | [] => []
  | x :: l' => if stop x then [] else x :: upto stop l'
  end.

(** The body paragraph made from a source paragraph. *)
Definition body_paragraph_of (p : docx_paragraph) : body_paragraph :=
  BodyParagraph (stripped_text p) (style_name p) (_is_heading p).

(** A line that opens no section: not an "Abstract" line, not the start
    of the body, not a "References" line, no mention of authors. *)
Definition plain_line (t : str) : bool :=
  negb (is_abstract_heading t) && negb (starts_body t)
  && negb (is_references_heading t) && negb (mentions_author t).

(** A line kept in the body: not skipped and not empty. *)
Definition body_line (p : docx_paragraph) : bool :=
  negb (skipped (stripped_text p)) && nonempty (stripped_text p).

(** A line taken as an author: it has an at sign, or a digit followed
    by a comma with at most white space in between. *)
Definition author_line (t : str) : bool :=
  Py.contains (s_ "@") t || found false digit_comma_re t.

Definition blank (p : docx_paragraph) : bool :=
  negb (nonempty (stripped_text p)).

(* ================================================================== *)
(** * formatter.py: the document around the body *)
(* ================================================================== *)

(** What [paragraph_format] holds for the paragraphs of the title page
    and of the references: space after in points, indents in inches. *)
Record paragraph_format := ParagraphFormat {
  pf_space_after : option Z;
  pf_left_indent : option Q;
  pf_first_line_indent : option Q
}.

(** The blocks of the whole output document: a block as the body
    statements append it (an abstract paragraph and an empty paragraph
    have that form too), a paragraph with its paragraph format, or the
    paragraph [doc.add_page_break()] appends. *)
Inductive page_block :=
| Body (b : block)
| Laid (p : out_paragraph) (f : paragraph_format)
| PageBreak.

(** The output document: the margins of its one section in inches, and
    its blocks. *)
Record formatted_document := FormattedDocument {
  fd_top_margin : Q;
  fd_bottom_margin : Q;
  fd_left_margin : Q;
  fd_right_margin : Q;
  fd_blocks : list page_block
}.

Definition MARGIN_INCHES : Q := 1.

Definition space_after (pt : Z) : paragraph_format :=
  ParagraphFormat (Some pt) None None.

(** [_add_title_page]: what it appends. *)
Definition title_paragraph (text : str) : page_block :=
  Laid (OutParagraph (s_ "Normal") true
          [OutRun text (Font (Some FONT_NAME) (Some 16) true false) None]
          None)
       (space_after 24).

Definition author_paragraph (author : str) : page_block :=
  Laid (OutParagraph (s_ "Normal") true
          [OutRun author (Font (Some FONT_NAME) (Some 11) false false) None]
          None)
       (space_after 6).

Definition _add_title_page (c : content) : list page_block :=
  (if nonempty (title c) then [title_paragraph (title c)] else [])
  ++ map author_paragraph (authors c)
  ++ [PageBreak].

(** The heading of the abstract and of the references. *)
Definition section_heading (text : str) : page_block :=
  Laid (OutParagraph (s_ "Normal") false
          [OutRun text (Font (Some FONT_NAME) (Some 14) true false) None]
          None)
       (space_after 12).

(** [_add_abstract]: heading, text with [_set_paragraph_spacing], and an
    empty paragraph. *)
Definition _add_abstract (self : formatter) (c : content) : list page_block :=
  if nonempty (abstract c) then
    [section_heading (s_ "Abstract");
     Body (BParagraph (OutParagraph (s_ "Normal") false
             [OutRun (abstract c)
                     (Font (Some FONT_NAME) (Some (fmt_font_size self))
                           false false) None]
             (Some (fmt_line_spacing self))));
     Body spacing]
  else [].

Definition reference_paragraph (ref : str) : page_block :=
  Laid (OutParagraph (s_ "Normal") false
          [OutRun ref (Font (Some FONT_NAME) (Some 10) false false) None]
          None)
       (ParagraphFormat (Some 6) (Some (5 # 10)%Q) (Some (- (5 # 10))%Q)).

(** [_add_references] *)
Definition _add_references (c : content) : list page_block :=
  match references c with
  | [] => []
  | refs =>
      PageBreak :: section_heading (s_ "References")
      :: map reference_paragraph refs
  end.

(** [format_document].  The statements of the body only append to the
    document, so what they append after the abstract is what they
    append to an empty document.  When the body raises, so does
    [format_document], and no document is returned. *)
Definition format_document
           (image_size : list Byte.byte -> option (Z * Z))
           (picture_ok : list Byte.byte -> bool) (self : formatter)
           (c : content) (citations : list citation)
  : outcome formatted_document :=
  match _add_body_with_citations image_size picture_ok self c citations []
  with
  | (Done _, body_blocks) =>
      Done (FormattedDocument MARGIN_INCHES MARGIN_INCHES MARGIN_INCHES
              MARGIN_INCHES
              (_add_title_page c ++ _add_abstract self c
               ++ map Body body_blocks ++ _add_references c))
  | (Raised e, _) => Raised e
  end.

(** Truth value of a list. *)
Definition has_items {A} (l : list A) : bool :=
  match l with [] => false | _ => true end.

(** The number of page breaks among the blocks. *)
Definition page_breaks (bs : list page_block) : nat :=
  length (List.filter (fun b => match b with PageBreak => true | _ => false end)
                      bs).

(** A source document with one readable image and one table, both cited
    from its body. *)
Definition example_source : docx_document :=
  DocxDocument
    [plain_paragraph "Title: Sleep and memory";
     plain_paragraph "Introduction";
     plain_paragraph "Enrolment is shown in Figure 1.";
     plain_paragraph "Arms are listed in Table 1.";
     plain_paragraph "Figure 1: Flow chart";
     plain_paragraph "References";
     plain_paragraph "1. Smith 2020"]
    [(s_ "rId7", Relationship (s_ "media/image1.png") (Ok []))]
    [Ok [[s_ " Arm "; s_ "n"]; [s_ "A"; s_ " 12"]]].

Definition example_figure_citation : citation :=
  Citation KFigure (s_ "1") 1 (s_ "Enrolment is shown in Figure 1.")
           (s_ "Figure 1").

Definition example_table_citation : citation :=
  Citation KTable (s_ "1") 2 (s_ "Arms are listed in Table 1.")
           (s_ "Table 1").

(** ** What python-docx accepts

    The text setters of python-docx ([add_run], [add_heading] and
    [cell.text]) hand the text to lxml, which raises [ValueError] on a
    character that XML cannot hold: among the 7-bit characters, a
    control character other than tab, line feed and carriage return.
    Text that python-docx has read from a file holds none.  The size
    setter of a font raises [ValueError] on a size that is negative or
    does not fit its unsigned field; 1 to 1638 points, the sizes Word
    has, are accepted.  The statements of the formatter are modelled
    where these setters succeed; a property that depends on it carries
    the condition. *)
Definition xml_char (c : ascii) : bool :=
  let n := Py.code c in
  ((32 <=? n) || (n =? 9) || (n =? 10) || (n =? 13))%nat.

Definition xml_text (s : str) : bool := forallb xml_char s.

Definition font_size_ok (font_size : Z) : bool :=
  (1 <=? font_size) && (font_size <=? 1638).

Definition figure_writable (f : figure) : bool := xml_text (fig_caption f).

Definition table_writable (t : table) : bool :=
  xml_text (tab_caption t) && forallb (forallb xml_text) (tab_data t).

Definition assets_writable (c : content) : bool :=
  forallb figure_writable (figures c) && forallb table_writable (tables c).

(** ** The asset a citation refers to *)








(* ================================================================== *)
(** * Citation detection: uniqueness and order *)
(* ================================================================== *)

Section Unique.

Implicit Types (seen : gset (kind * str * Z)) (cs : list citation).

Lemma unique_from_keys seen cs x :
  In x (unique_from seen cs) -> citation_key x ∉ seen.
Proof.
  revert seen. induction cs as [|c cs IH]; intros seen; simpl; [tauto|].
  destruct (decide (citation_key c ∈ seen)) as [Hin|Hout].
  - apply IH.
  - intros [<-|Hx]; [exact Hout|].
    apply IH in Hx. intros Hs. apply Hx, elem_of_union_r, Hs.
Qed.

Lemma unique_from_NoDup seen cs :
  List.NoDup (map citation_key (unique_from seen cs)).
Proof.
  revert seen. induction cs as [|c cs IH]; intros seen; simpl.
  - constructor.
  - destruct (decide (citation_key c ∈ seen)); [apply IH|].
    simpl. constructor; [|apply IH].
    intros Hin. apply in_map_iff in Hin.
    destruct Hin as (y & Hk & Hy).
    apply unique_from_keys in Hy. apply Hy.
    apply elem_of_union_l, elem_of_singleton. exact Hk.
Qed.

(** Every kept citation is the first of the input with its key. *)
Lemma unique_from_first seen cs x :
  In x (unique_from seen cs) ->
  exists l1 l2, cs = l1 ++ x :: l2
                /\ forall y, In y l1 -> citation_key y <> citation_key x.
Proof.
  revert seen. induction cs as [|c cs IH]; intros seen; simpl; [tauto|].
  destruct (decide (citation_key c ∈ seen)) as [Hin|Hout].
  - intros Hx. pose proof (unique_from_keys _ _ _ Hx) as Hk.
    destruct (IH _ Hx) as (l1 & l2 & -> & Hl1).
    exists (c :: l1), l2. split; [reflexivity|].
    intros y [<-|Hy]; [|auto]. intros Heq. rewrite Heq in Hin. auto.
  - intros [<-|Hx].
    + exists [], cs. split; [reflexivity|]. intros y [].
    + pose proof (unique_from_keys _ _ _ Hx) as Hk.
      destruct (IH _ Hx) as (l1 & l2 & -> & Hl1).
      exists (c :: l1), l2. split; [reflexivity|].
      intros y [<-|Hy]; [|auto]. intros Heq.
      apply Hk, elem_of_union_l, elem_of_singleton. congruence.
Qed.

(** No key of the input is lost. *)
Lemma unique_from_complete seen cs x :
  In x cs ->
  citation_key x ∈ seen
  \/ exists y, In y (unique_from seen cs)
               /\ citation_key y = citation_key x.
Proof.
  revert seen. induction cs as [|c cs IH]; intros seen; simpl; [tauto|].
  intros [<-|Hx].
  - destruct (decide (citation_key c ∈ seen)); [auto|].
    right. exists c. simpl. auto.
  - destruct (decide (citation_key c ∈ seen)).
    + apply IH, Hx.
    + destruct (IH ({[citation_key c]} ∪ seen) Hx) as [Hs|(y & Hy & Hk)].
      * apply elem_of_union in Hs as [Hs|Hs]; [|auto].
        apply elem_of_singleton in Hs. right. exists c. simpl. auto.
      * right. exists y. simpl. auto.
Qed.

Lemma unique_from_sublist seen cs : sublist (unique_from seen cs) cs.
Proof.
  revert seen. induction cs as [|c cs IH]; intros seen; simpl.
  - constructor.
  - destruct (decide (citation_key c ∈ seen)).
    + apply sublist_cons, IH.
    + apply sublist_skip, IH.
Qed.

End Unique.

Section StableSort.

Lemma insert_by_position_In c l x :
  In x (insert_by_position c l) <-> x = c \/ In x l.
Proof.
  induction l as [|d l IH]; simpl.
  - intuition.
  - destruct (c_position c <=? c_position d); simpl; [intuition|].
    rewrite IH. intuition.
Qed.

Lemma insert_by_position_sorted c l :
  StronglySorted position_le l ->
  StronglySorted position_le (insert_by_position c l).
Proof.
  induction 1 as [|d l Hs IH Hd]; simpl.
  - repeat constructor.
  - destruct (c_position c <=? c_position d) eqn:Hle.
    + apply Z.leb_le in Hle. constructor; [constructor; assumption|].
      constructor; [exact Hle|].
      apply List.Forall_forall. intros a Ha.
      rewrite List.Forall_forall in Hd. specialize (Hd a Ha).
      unfold position_le in *. lia.
    + apply Z.leb_gt in Hle. constructor; [exact IH|].
      apply List.Forall_forall. intros x Hx.
      apply insert_by_position_In in Hx as [->|Hx].
      * unfold position_le. lia.
      * rewrite List.Forall_forall in Hd. auto.
Qed.

Lemma sorted_by_position_sorted l :
  StronglySorted position_le (sorted_by_position l).
Proof.
  induction l as [|c l IH]; simpl.
  - constructor.
  - apply insert_by_position_sorted, IH.
Qed.

Lemma sorted_by_position_In l x :
  In x (sorted_by_position l) <-> In x l.
Proof.
  induction l as [|c l IH]; simpl; [tauto|].
  rewrite insert_by_position_In, IH. intuition.
Qed.

Lemma insert_by_position_keys c l :
  Permutation (map citation_key (insert_by_position c l))
              (map citation_key (c :: l)).
Proof.
  induction l as [|d l IH]; simpl; [reflexivity|].
  destruct (c_position c <=? c_position d); simpl; [reflexivity|].
  rewrite IH. simpl. apply perm_swap.
Qed.

Lemma sorted_by_position_keys l :
  Permutation (map citation_key (sorted_by_position l))
              (map citation_key l).
Proof.
  induction l as [|c l IH]; simpl; [reflexivity|].
  rewrite insert_by_position_keys. simpl. rewrite IH. reflexivity.
Qed.

(** Stability: among the citations of one position nothing moves. *)
Lemma insert_by_position_stable p c l :
  List.filter (at_position p) (insert_by_position c l)
  = List.filter (at_position p) (c :: l).
Proof.
  induction l as [|d l IH]; [reflexivity|].
  cbn [insert_by_position].
  destruct (c_position c <=? c_position d) eqn:Hle; [reflexivity|].
  apply Z.leb_gt in Hle.
  cbn [List.filter] in *. rewrite IH. unfold at_position.
  destruct (c_position d =? p) eqn:Hd, (c_position c =? p) eqn:Hc;
    try reflexivity.
  apply Z.eqb_eq in Hd, Hc. lia.
Qed.

Lemma sorted_by_position_stable p l :
  List.filter (at_position p) (sorted_by_position l)
  = List.filter (at_position p) l.
Proof.
  induction l as [|c l IH]; [reflexivity|].
  cbn [sorted_by_position foldr].
  rewrite insert_by_position_stable. cbn [List.filter].
  fold (sorted_by_position l). rewrite IH. reflexivity.
Qed.

Lemma filter_sublist (f : citation -> bool) l :
  sublist (List.filter f l) l.
Proof.
  induction l as [|c l IH]; simpl; [constructor|].
  destruct (f c); [apply sublist_skip|apply sublist_cons]; exact IH.
Qed.

End StableSort.

(** C1. The list [detect_citations] returns has one citation per
    (kind, number, position) key, each being the first match collected
    with that key, and no key of a collected match is missing; it is
    sorted by position, and the citations of any one position stand in
    the order in which they were collected. *)
Theorem detect_citations_unique_sorted (c : content) :
  let raw := collect_citations 0 (body c) in
  let out := detect_citations c in
  List.NoDup (map citation_key out)
  /\ (forall x, In x out ->
        exists l1 l2, raw = l1 ++ x :: l2
          /\ forall y, In y l1 -> citation_key y <> citation_key x)
  /\ (forall x, In x raw ->
        exists y, In y out /\ citation_key y = citation_key x)
  /\ StronglySorted position_le out
  /\ (forall p, sublist (List.filter (at_position p) out) raw).
Proof.
  intros raw out. unfold out, detect_citations. fold raw.
  repeat split.
  - eapply Permutation_NoDup.
    + symmetry. apply sorted_by_position_keys.
    + apply unique_from_NoDup.
  - intros x Hx. apply (proj1 (sorted_by_position_In _ _)) in Hx.
    eapply unique_from_first, Hx.
  - intros x Hx.
    destruct (unique_from_complete ∅ raw x Hx) as [Hs|(y & Hy & Hk)].
    + apply elem_of_empty in Hs as [].
    + exists y. split; [|exact Hk].
      apply (proj2 (sorted_by_position_In _ _)), Hy.
  - apply sorted_by_position_sorted.
  - intros p. rewrite sorted_by_position_stable.
    etransitivity; [apply filter_sublist|apply unique_from_sublist].
Qed.

(* ================================================================== *)
(** * Figure extraction: numbering follows the successful reads *)
(* ================================================================== *)

Lemma numbers_from_shift (k : Z) (n : nat) :
  map (fun i => k + 1 + Z.of_nat i) (seq 1 n)
  = map (fun i => k + Z.of_nat i) (seq 2 n).
Proof.
  rewrite <- (seq_shift n 1), map_map.
  apply map_ext. intros i. lia.
Qed.

Lemma figures_loop_spec paragraphs rels :
  forall figs k out,
    let r := figures_loop paragraphs rels figs k out in
    map fig_number (fst r)
    = map fig_number figs
      ++ map (fun i => k + Z.of_nat i)
             (seq 1 (length (readable_images rels)))
    /\ map fig_source (fst r) = map fig_source figs ++ readable_images rels
    /\ length (snd r) = (length out + unreadable_images rels)%nat.
Proof.
  induction rels as [|[rel_id rel] rels IH]; intros figs k out;
    cbv zeta; cbn [figures_loop readable_images unreadable_images].
  - simpl. rewrite !app_nil_r. auto with arith.
  - destruct (Py.contains (s_ "image") (target_ref rel)); [|apply IH].
    destruct (target_part_blob rel) as [data|e].
    + destruct (IH (figs ++ [Figure (k + 1) data
                   (_find_figure_caption paragraphs (k + 1)) rel_id])
                   (k + 1) out) as (Hn & Hs & Hw).
      cbv zeta in *. rewrite Hn, Hs, Hw. rewrite !map_app.
      cbn [map length seq fig_number fig_source fig_rel_id fig_image_data].
      rewrite <- !app_assoc. cbn [app]. rewrite numbers_from_shift.
      repeat split.
    + destruct (IH figs k
                   (out ++ [s_ "Warning: Could not extract image "
                            ++ Py.str_of_int (k + 1) ++ s_ ": " ++ e]))
        as (Hn & Hs & Hw).
      cbv zeta in *. rewrite Hn, Hs, Hw.
      rewrite length_app. cbn [length]. repeat split. lia.
Qed.

(** C7. An image whose blob cannot be read is skipped with one warning
    and the loop goes on; the extracted figures are the readable images
    in storage order, numbered 1..k without gaps, k being the number of
    readable images. *)
Theorem figures_numbered_by_success
        (paragraphs : list docx_paragraph)
        (rels : list (str * relationship)) (c : content) :
  let figs := figures (fst (_extract_figures paragraphs rels c)) in
  let warnings := snd (_extract_figures paragraphs rels c) in
  map fig_number figs
  = map Z.of_nat (seq 1 (length (readable_images rels)))
  /\ map fig_source figs = readable_images rels
  /\ length warnings = unreadable_images rels.
Proof.
  unfold _extract_figures.
  pose proof (figures_loop_spec paragraphs rels [] 0 []) as H.
  destruct (figures_loop paragraphs rels [] 0 []) as [figs out].
  cbv zeta in H. simpl in *. destruct H as (Hn & Hs & Hw).
  repeat split; assumption.
Qed.

(* ================================================================== *)
(** * Text and pattern lemmas *)
(* ================================================================== *)

Section Strip.

Lemma lstrip_head s c s' : Py.lstrip s = c :: s' -> Py.is_space c = false.
Proof.
  induction s as [|a s IH]; simpl; [discriminate|].
  destruct (Py.is_space a) eqn:Ha; [exact IH|].
  intros [= <- <-]. exact Ha.
Qed.

(** A stripped text does not end in white space. *)
Lemma strip_last s pre c : Py.strip s = pre ++ [c] -> Py.is_space c = false.
Proof.
  unfold Py.strip, Py.rstrip. intros H.
  apply (f_equal (@rev ascii)) in H.
  rewrite rev_involutive, rev_app_distr in H. simpl in H.
  eapply lstrip_head, H.
Qed.

Lemma lstrip_id s :
  match s with c :: _ => Py.is_space c = false | [] => True end ->
  Py.lstrip s = s.
Proof. destruct s as [|c s]; simpl; [reflexivity|]. intros ->. reflexivity. Qed.

End Strip.

Section Patterns.

Import Re.

Lemma in_class_lit a c : in_class true (CSet [CLit a]) c = char_eq true a c.
Proof. simpl. apply orb_false_r. Qed.

(** The equations of [run] for the atoms that read no character. *)
Lemma run_Bol r st :
  run true (Bol :: r) st
  = if (pos st =? 0)%nat then run true r st else None.
Proof. reflexivity. Qed.

Lemma run_GOpen r st :
  run true (GOpen :: r) st
  = run true r (MState (rest st) (pos st) (Some (pos st)) (group1 st)).
Proof. reflexivity. Qed.

Lemma run_GClose r st :
  run true (GClose :: r) st
  = run true r (MState (rest st) (pos st) (gopen st)
                       (match gopen st with
                        | Some a => Some (a, pos st)
                        | None => group1 st
                        end)).
Proof. reflexivity. Qed.

Lemma run_AltLit ws r st :
  run true (AltLit ws :: r) st
  = alt true ws (rest st) (pos st)
        (fun s i => run true r (MState s i (gopen st) (group1 st))).
Proof. reflexivity. Qed.

(** A literal word at the head of a pattern consumes that word. *)
Lemma run_lits w r st :
  run true (map lit w ++ r) st
  = match word true w (rest st) (pos st) with
    | Some (s', i') => run true r (MState s' i' (gopen st) (group1 st))
    | None => None
    end.
Proof.
  revert st. induction w as [|a w IH]; intros [s i go g].
  - reflexivity.
  - destruct s as [|c s]; cbn [map app];
      change (lit a) with (One (CSet [CLit a]));
      cbn [run rest pos gopen group1 word advance]; [reflexivity|].
    rewrite in_class_lit. destruct (char_eq true a c); [|reflexivity].
    rewrite IH. reflexivity.
Qed.

Lemma word_sound w : forall s i s' i',
  word true w s i = Some (s', i') ->
  exists pre, s = pre ++ s' /\ Py.lower pre = Py.lower w
              /\ i' = (i + length w)%nat.
Proof.
  induction w as [|a w IH]; intros s i s' i'; simpl.
  - intros [= <- <-]. exists []. repeat split. lia.
  - destruct s as [|c s]; [discriminate|].
    unfold char_eq. destruct (Ascii.eqb_spec (Py.lower_char a) (Py.lower_char c)) as [Heq|]; [|discriminate].
    intros H. apply IH in H as (pre & -> & Hl & ->).
    exists (c :: pre). simpl. rewrite Hl, Heq. repeat split. lia.
Qed.

Lemma word_complete w : forall pre s i,
  Py.lower pre = Py.lower w ->
  word true w (pre ++ s) i = Some (s, (i + length w)%nat).
Proof.
  induction w as [|a w IH]; intros pre s i; simpl.
  - destruct pre; [|discriminate]. intros _. simpl. f_equal. f_equal. lia.
  - destruct pre as [|c pre]; [discriminate|]. simpl. intros [= Hc Hl].
    unfold char_eq. rewrite Hc, Ascii.eqb_refl, (IH _ _ _ Hl).
    f_equal. f_equal. lia.
Qed.

Lemma run_line_tail s i go g :
  accepted (run true [Opt (CSet [CLit ":"]); Eol] (MState s i go g))
  = line_tail s.
Proof.
  destruct s as [|c [|d [|e s]]]; cbn [run rest line_tail];
    rewrite ?in_class_lit.
  - reflexivity.
  - destruct (char_eq true ":" c); simpl; [reflexivity|].
    destruct (Ascii.eqb c "010"); reflexivity.
  - destruct (char_eq true ":" c); simpl; [|reflexivity].
    destruct (Ascii.eqb d "010"); reflexivity.
  - destruct (char_eq true ":" c); reflexivity.
Qed.

End Patterns.

(** ** Headings of the abstract section, in words *)

Section Lines.

Import Re.

Lemma strip_no_final_newline s : no_final_newline (Py.strip s).
Proof.
  intros pre H. apply strip_last in H. discriminate.
Qed.

Lemma lower_app a b : Py.lower (a ++ b) = Py.lower a ++ Py.lower b.
Proof. apply map_app. Qed.

Lemma ci_line_true w t :
  ci_line w t = true <-> Py.lower t = w \/ Py.lower t = w ++ s_ ":".
Proof.
  unfold ci_line. rewrite orb_true_iff, !bool_decide_eq_true. tauto.
Qed.

Lemma word_line w t i go g :
  Py.lower w = w -> no_final_newline t ->
  accepted (match word true w t i with
            | Some (s', i') =>
                run true [Opt (CSet [CLit ":"]); Eol] (MState s' i' go g)
            | None => None
            end)
  = ci_line w t.
Proof.
  intros Hw Hnl. apply eq_true_iff_eq. rewrite ci_line_true.
  destruct (word true w t i) as [[s' i']|] eqn:Hword.
  - rewrite run_line_tail.
    apply word_sound in Hword as (pre & -> & Hl & ->). rewrite Hw in Hl.
    rewrite lower_app, Hl.
    destruct s' as [|c [|d [|e s']]]; cbn [line_tail].
    + rewrite app_nil_r. intuition.
    + assert (Hc : Ascii.eqb c "010" = false).
      { destruct (Ascii.eqb_spec c "010"); [|reflexivity].
        subst c. exfalso. eapply Hnl. reflexivity. }
      rewrite Hc, orb_false_r. unfold char_eq.
      change (Py.lower_char ":") with ":"%char.
      split.
      * intros H. apply Ascii.eqb_eq in H. right. simpl. rewrite <- H.
        reflexivity.
      * intros [H|H].
        -- apply (f_equal (@length ascii)) in H.
           rewrite length_app in H. simpl in H. lia.
        -- apply app_inv_head in H. injection H as H.
           apply Ascii.eqb_eq. symmetry. exact H.
    + assert (Hd : Ascii.eqb d "010" = false).
      { destruct (Ascii.eqb_spec d "010"); [|reflexivity].
        subst d. exfalso. apply (Hnl (pre ++ [c])).
        rewrite <- app_assoc. reflexivity. }
      rewrite Hd, andb_false_r. split; [discriminate|].
      intros [H|H]; apply (f_equal (@length ascii)) in H;
        rewrite ?length_app in H; simpl in H; lia.
    + split; [discriminate|].
      intros [H|H]; apply (f_equal (@length ascii)) in H;
        rewrite ?length_app in H; simpl in H; lia.
  - simpl. split; [discriminate|]. intros H. exfalso.
    assert (Hsplit : exists pre s, t = pre ++ s /\ Py.lower pre = Py.lower w).
    { destruct H as [H|H].
      - exists t, []. rewrite app_nil_r, Hw. auto.
      - exists (firstn (length w) t), (skipn (length w) t).
        rewrite firstn_skipn. split; [reflexivity|].
        unfold Py.lower in *. rewrite <- firstn_map, H, Hw.
        rewrite firstn_app, Nat.sub_diag, firstn_all. simpl.
        apply app_nil_r. }
    destruct Hsplit as (pre & s & -> & Hl).
    rewrite (word_complete w pre s i Hl) in Hword. discriminate.
Qed.

Lemma accepted_alt ws s i k :
  accepted (alt true ws s i k)
  = existsb (fun w => accepted (match word true w s i with
                                | Some (s', i') => k s' i'
                                | None => None
                                end)) ws.
Proof.
  induction ws as [|w ws IH]; [reflexivity|]. cbn [alt existsb].
  destruct (match word true w s i with
            | Some (s', i') => k s' i' | None => None end);
    [reflexivity|]. exact IH.
Qed.

(** [^abstract:?$] on a stripped line. *)
Lemma abstract_start_re_spec t :
  no_final_newline t ->
  matches abstract_start_re t = is_abstract_heading t.
Proof.
  intros Hnl. unfold matches, rematch, match_at, abstract_start_re.
  rewrite run_Bol. cbn [pos Nat.eqb]. unfold lits. rewrite run_lits.
  cbn [rest pos gopen group1]. unfold is_abstract_heading.
  etransitivity;
    [|exact (word_line (s_ "abstract") t 0 None None
                       (eq_refl (s_ "abstract")) Hnl)].
  destruct (word true _ t 0) as [[s' i']|]; [|reflexivity].
  destruct (run true _ _); reflexivity.
Qed.

(** [^(introduction|methods|keywords):?$] on a stripped line. *)
Lemma abstract_end_re_spec t :
  no_final_newline t ->
  matches abstract_end_re t = is_abstract_end t.
Proof.
  intros Hnl. unfold matches, rematch, match_at, abstract_end_re.
  rewrite run_Bol. cbn [pos Nat.eqb].
  rewrite run_GOpen, run_AltLit. cbn [rest pos gopen group1].
  transitivity
    (accepted (alt true [s_ "introduction"; s_ "methods"; s_ "keywords"]
       t 0 (fun s i => run true [GClose; Opt (CSet [CLit ":"]); Eol]
                         (MState s i (Some 0%nat) None)))).
  { destruct (alt true _ t 0 _); reflexivity. }
  rewrite accepted_alt. cbn [existsb]. unfold is_abstract_end.
  rewrite orb_false_r, orb_assoc.
  assert (Hw : forall w, Py.lower w = w ->
    accepted (match word true w t 0 with
              | Some (s', i') =>
                  run true [GClose; Opt (CSet [CLit ":"]); Eol]
                      (MState s' i' (Some 0%nat) None)
              | None => None
              end) = ci_line w t).
  { intros w H.
    etransitivity; [|exact (word_line w t 0 (Some 0%nat) None H Hnl)].
    destruct (word true w t 0) as [[s' i']|]; [|reflexivity].
    rewrite run_GClose. cbn [rest pos gopen group1].
    rewrite !run_line_tail. reflexivity. }
  rewrite (Hw (s_ "introduction") eq_refl), (Hw (s_ "methods") eq_refl),
    (Hw (s_ "keywords") eq_refl).
  reflexivity.
Qed.

End Lines.

(* ================================================================== *)
(** * The abstract *)
(* ================================================================== *)

Section Abstract.

Lemma matches_start p :
  matches abstract_start_re (Py.strip (para_text p))
  = is_abstract_heading (stripped_text p).
Proof. apply abstract_start_re_spec, strip_no_final_newline. Qed.

Lemma matches_end p :
  matches abstract_end_re (Py.strip (para_text p))
  = is_abstract_end (stripped_text p).
Proof. apply abstract_end_re_spec, strip_no_final_newline. Qed.

(** Before the first "Abstract" line nothing is collected. *)
Lemma abstract_loop_before pre rest acc :
  List.Forall (fun p => is_abstract_heading (stripped_text p) = false) pre ->
  abstract_loop (pre ++ rest) false acc = abstract_loop rest false acc.
Proof.
  induction 1 as [|p pre Hp _ IH]; [reflexivity|].
  cbn [app abstract_loop]. rewrite matches_start, Hp. exact IH.
Qed.

(** Once inside the abstract. *)
Lemma abstract_loop_inside post : forall acc,
  abstract_loop post true acc = acc ++ abstract_lines post.
Proof.
  unfold abstract_lines.
  induction post as [|p post IH]; intros acc.
  - simpl. symmetry. apply app_nil_r.
  - cbn [abstract_loop map take_until].
    rewrite matches_start, matches_end. fold (stripped_text p).
    destruct (is_abstract_heading (stripped_text p)) eqn:Hh.
    + assert (He : is_abstract_end (stripped_text p) = false).
      { unfold is_abstract_end, is_abstract_heading, ci_line in *.
        apply orb_true_iff in Hh.
        rewrite !bool_decide_eq_true in Hh.
        destruct Hh as [Hh|Hh]; rewrite Hh; reflexivity. }
      rewrite He. cbn [List.filter]. rewrite Hh, andb_false_r. apply IH.
    + cbn [andb]. destruct (is_abstract_end (stripped_text p)).
      * simpl. symmetry. apply app_nil_r.
      * cbn [List.filter]. rewrite Hh, andb_true_r.
        destruct (nonempty (stripped_text p)); [|apply IH].
        rewrite IH, <- app_assoc. reflexivity.
Qed.

End Abstract.

(** C6, as the code has it.  When [h] is the first line that reads
    "Abstract" (any letter case, a colon allowed), the abstract is the
    space-join of the trimmed non-empty lines after it, up to and
    without the first "Introduction", "Methods" or "Keywords" line,
    further "Abstract" lines among them left out. *)
Theorem abstract_between_headings
        (pre post : list docx_paragraph) (h : docx_paragraph) (c : content) :
  List.Forall (fun p => is_abstract_heading (stripped_text p) = false) pre ->
  is_abstract_heading (stripped_text h) = true ->
  abstract (_extract_abstract (pre ++ h :: post) c)
  = Py.join (s_ " ") (abstract_lines post).
Proof.
  intros Hpre Hh. unfold _extract_abstract. cbn [abstract set_abstract].
  rewrite abstract_loop_before by exact Hpre.
  cbn [abstract_loop]. rewrite matches_start, Hh.
  rewrite abstract_loop_inside. reflexivity.
Qed.

Lemma abstract_between_headings_witness :
  abstract (_extract_abstract
              ([plain_paragraph "A study"]
               ++ plain_paragraph " ABSTRACT: "
               :: [plain_paragraph "First line. "; plain_paragraph "";
                   plain_paragraph "Second line.";
                   plain_paragraph "Keywords:"; plain_paragraph "x, y"])
              empty_content)
  = s_ "First line. Second line.".
Proof.
  apply (abstract_between_headings
           [plain_paragraph "A study"]
           [plain_paragraph "First line. "; plain_paragraph "";
            plain_paragraph "Second line.";
            plain_paragraph "Keywords:"; plain_paragraph "x, y"]
           (plain_paragraph " ABSTRACT: ") empty_content).
  - repeat constructor.
  - reflexivity.
Defined.

(** C6, as it is worded, at a document whose abstract holds a second
    "Abstract" line: the line is not part of the extracted abstract,
    which therefore is not the join of all the non-empty lines between
    the headings, whichever of the two "Abstract" lines the lines are
    counted from. *)
Lemma abstract_repeated_heading_dropped :
  let post := [plain_paragraph "Background"; plain_paragraph "Abstract:";
               plain_paragraph "Results"; plain_paragraph "Introduction";
               plain_paragraph "Text"] in
  let paragraphs := plain_paragraph "Abstract" :: post in
  is_abstract_heading (stripped_text (plain_paragraph "Abstract")) = true
  /\ abstract (_extract_abstract paragraphs empty_content)
     = s_ "Background Results"
  /\ Py.join (s_ " ") (abstract_lines_all post)
     = s_ "Background Abstract: Results"
  /\ (forall pre h post',
        paragraphs = pre ++ h :: post' ->
        is_abstract_heading (stripped_text h) = true ->
        abstract (_extract_abstract paragraphs empty_content)
        <> Py.join (s_ " ") (abstract_lines_all post')).
Proof.
  cbv zeta. repeat split; try reflexivity.
  intros pre h post' Hsplit Hh.
  repeat (destruct pre as [|? pre];
          [injection Hsplit as <- <-; try discriminate Hh;
           vm_compute; discriminate
          |injection Hsplit as <- Hsplit]).
  destruct pre; discriminate Hsplit.
Qed.

(* ================================================================== *)
(** * The title *)
(* ================================================================== *)

Section Title.

Lemma title_by_heuristic_first pre p post :
  List.Forall (fun q => title_candidate q = false) pre ->
  title_candidate p = true ->
  title_by_heuristic (pre ++ p :: post)
  = Some (Py.strip (Py.replace (s_ "Title:") [] (para_text p))).
Proof.
  intros Hpre Hp. induction Hpre as [|q pre Hq _ IH].
  - cbn [app title_by_heuristic]. fold (title_candidate p).
    rewrite Hp. reflexivity.
  - cbn [app title_by_heuristic]. fold (title_candidate q).
    rewrite Hq. exact IH.
Qed.

Lemma replace_absent old new s :
  Py.contains old s = false -> Py.replace_from old new 0 s = s.
Proof.
  induction s as [|c s IH]; [reflexivity|].
  cbn [Py.contains Py.replace_from].
  destruct (Py.strip_prefix old (c :: s)); [discriminate|].
  intros H. rewrite (IH H). reflexivity.
Qed.

Lemma replace_leading_title rest :
  Py.contains (s_ "Title:") rest = false ->
  Py.replace (s_ "Title:") [] (s_ "Title:" ++ rest) = rest.
Proof.
  intros H. unfold Py.replace.
  change (Py.replace_from (s_ "Title:") [] 0 (s_ "Title:" ++ rest))
    with (Py.replace_from (s_ "Title:") [] 0 rest).
  apply replace_absent, H.
Qed.

End Title.

(** The title as the code computes it.  The first paragraph among the
    first ten that has text and passes the heuristic gives the title:
    [text.replace('Title:', '').strip()].  When the text starts with
    "Title:" and has no other, that is the rest of the text, trimmed:
    on such a text the code does what its comment says. *)
Theorem title_of_first_candidate
        (paragraphs pre post : list docx_paragraph) (p : docx_paragraph)
        (c : content) :
  firstn 10 paragraphs = pre ++ p :: post ->
  List.Forall (fun q => title_candidate q = false) pre ->
  title_candidate p = true ->
  title (_extract_title paragraphs c)
  = Py.strip (Py.replace (s_ "Title:") [] (para_text p))
  /\ (forall rest,
        para_text p = s_ "Title:" ++ rest ->
        Py.contains (s_ "Title:") rest = false ->
        title (_extract_title paragraphs c) = Py.strip rest).
Proof.
  intros Hsplit Hpre Hp.
  assert (Ht : title (_extract_title paragraphs c)
               = Py.strip (Py.replace (s_ "Title:") [] (para_text p))).
  { unfold _extract_title.
    rewrite Hsplit, (title_by_heuristic_first pre p post Hpre Hp).
    reflexivity. }
  split; [exact Ht|].
  intros rest Htext Habsent.
  rewrite Ht, Htext, replace_leading_title by exact Habsent. reflexivity.
Qed.

Lemma title_of_first_candidate_witness :
  let p := DocxParagraph (s_ "Title: Effects of sleep ") [] None in
  let paragraphs := [plain_paragraph ""; plain_paragraph "Draft 3"; p;
                     plain_paragraph "Title: another"] in
  title (_extract_title paragraphs empty_content) = s_ "Effects of sleep".
Proof.
  cbv zeta.
  apply (proj2 (title_of_first_candidate
                  [plain_paragraph ""; plain_paragraph "Draft 3";
                   DocxParagraph (s_ "Title: Effects of sleep ") [] None;
                   plain_paragraph "Title: another"]
                  [plain_paragraph ""; plain_paragraph "Draft 3"]
                  [plain_paragraph "Title: another"]
                  (DocxParagraph (s_ "Title: Effects of sleep ") [] None)
                  empty_content eq_refl
                  ltac:(repeat constructor) eq_refl)
               (s_ " Effects of sleep ") eq_refl eq_refl).
Defined.

(** C8.  The code is meant to take a "Title:" prefix off (its comment
    says so), but [replace] takes every "Title:" out.  At a document
    whose bold first line has "Title:" in the middle the words around
    it are run together: the title is not the text with only a leading
    "Title:" removed, trimmed or not. *)
Lemma title_inner_token_removed :
  let p := DocxParagraph (s_ "Study Title: Effects")
                         [DocxRun (Some true)] None in
  In p (firstn 10 [p])
  /\ nonempty (Py.strip (para_text p)) = true
  /\ title_heuristic p = true
  /\ title (_extract_title [p] empty_content) = s_ "Study  Effects"
  /\ title (_extract_title [p] empty_content)
     <> without_leading_title (para_text p)
  /\ title (_extract_title [p] empty_content)
     <> Py.strip (without_leading_title (para_text p)).
Proof.
  cbv zeta. repeat split; try reflexivity.
  - left. reflexivity.
  - vm_compute. discriminate.
  - vm_compute. discriminate.
Qed.

(** The test for the token ignores case and the removal does not: a
    line that is chosen for its "TITLE:" keeps it. *)
Lemma title_uppercase_token_kept :
  let p := DocxParagraph (s_ "TITLE: Effects") [] None in
  first_run_bold p = false
  /\ style_has_Title p = false
  /\ title_heuristic p = true
  /\ title (_extract_title [p] empty_content) = s_ "TITLE: Effects".
Proof. cbv zeta. repeat split; reflexivity. Qed.

(* ================================================================== *)
(** * Placement: what a statement appends *)
(* ================================================================== *)

Lemma appends_regular {A} (m : stmt A) o bs : appends m o bs -> regular m.
Proof.
  intros H doc. unfold regular. rewrite (H []), (H doc). reflexivity.
Qed.

Lemma appends_ret {A} (a : A) : appends (ret a) (Done a) [].
Proof. intros doc. unfold ret. rewrite app_nil_r. reflexivity. Qed.

Lemma appends_raise {A} (e : exn) : appends (@raise A e) (Raised e) [].
Proof. intros doc. unfold raise. rewrite app_nil_r. reflexivity. Qed.

Lemma appends_try_done {A} (m : stmt A) h a bs :
  appends m (Done a) bs -> appends (try_except m h) (Done a) bs.
Proof. intros Hm doc. unfold try_except. rewrite Hm. reflexivity. Qed.

Lemma appends_try_raised {A} (m : stmt A) h e bs o bs' :
  appends m (Raised e) bs -> appends (h e) o bs' ->
  appends (try_except m h) o (bs ++ bs').
Proof.
  intros Hm Hh doc. unfold try_except. rewrite Hm, Hh, app_assoc.
  reflexivity.
Qed.

Lemma regular_try {A} (m : stmt A) h :
  regular m -> (forall e, regular (h e)) -> regular (try_except m h).
Proof.
  intros Hm Hh. destruct (m []) as [[a|e] bs] eqn:E;
    unfold regular in Hm; rewrite E in Hm; simpl in Hm.
  - apply (appends_regular _ (Done a) bs).
    apply appends_try_done, Hm.
  - apply (appends_regular _ (fst (h e [])) (bs ++ snd (h e []))).
    eapply appends_try_raised; [exact Hm|apply Hh].
Qed.

Lemma regular_of_option {A} e (o : option A) : regular (of_option e o).
Proof.
  destruct o as [a|]; simpl.
  - apply (appends_regular _ (Done a) []), appends_ret.
  - apply (appends_regular _ (Raised e) []), appends_raise.
Qed.

Section Bind.

Context {A B : Type}.

Lemma appends_bind_done (m : stmt A) (f : A -> stmt B) a bs o bs' :
  appends m (Done a) bs -> appends (f a) o bs' ->
  appends (bind m f) o (bs ++ bs').
Proof.
  intros Hm Hf doc. unfold bind. rewrite Hm, Hf, app_assoc. reflexivity.
Qed.

Lemma appends_bind_raised (m : stmt A) (f : A -> stmt B) e bs :
  appends m (Raised e) bs -> appends (bind m f) (Raised e) bs.
Proof. intros Hm doc. unfold bind. rewrite Hm. reflexivity. Qed.

Lemma regular_bind (m : stmt A) (f : A -> stmt B) :
  regular m -> (forall a, regular (f a)) -> regular (bind m f).
Proof.
  intros Hm Hf. destruct (m []) as [[a|e] bs] eqn:E;
    unfold regular in Hm; rewrite E in Hm; simpl in Hm.
  - apply (appends_regular _ (fst (f a [])) (bs ++ snd (f a []))).
    eapply appends_bind_done; [exact Hm|apply Hf].
  - apply (appends_regular _ (Raised e) bs).
    apply appends_bind_raised, Hm.
Qed.

End Bind.

Lemma appends_emit b : appends (emit b) (Done tt) [b].
Proof. intros doc. reflexivity. Qed.

Lemma regular_emit b : regular (emit b).
Proof. apply (appends_regular _ (Done tt) [b]), appends_emit. Qed.

Lemma regular_ret {A} (a : A) : regular (ret a).
Proof. apply (appends_regular _ (Done a) []), appends_ret. Qed.

(** A [try] whose handler only emits a block always ends normally. *)
Lemma try_emit_done (m : stmt unit) (b : block) :
  regular m ->
  exists bs, appends (try_except m (fun _ => emit b)) (Done tt) bs.
Proof.
  intros Hm. unfold regular in Hm.
  destruct (m []) as [[[]|e] bs]; simpl in Hm.
  - exists bs. apply appends_try_done, Hm.
  - exists (bs ++ [b]). eapply appends_try_raised; [exact Hm|apply appends_emit].
Qed.

Lemma for_each_appends {A} (f : A -> stmt unit) (g : A -> list block) xs :
  (forall x, appends (f x) (Done tt) (g x)) ->
  appends (for_each xs f) (Done tt) (flat_map g xs).
Proof.
  intros Hf. induction xs as [|x xs IH]; cbn [for_each flat_map].
  - apply appends_ret.
  - eapply appends_bind_done; [apply Hf|exact IH].
Qed.

(* ================================================================== *)
(** * Placement: the body and its citations *)
(* ================================================================== *)

Section Placement.

Variable image_size : list Byte.byte -> option (Z * Z).
Variable picture_ok : list Byte.byte -> bool.
Variable self : formatter.

Lemma regular_add_picture data w :
  regular (add_picture_paragraph picture_ok data w).
Proof.
  unfold add_picture_paragraph. destruct (picture_ok data).
  - eapply (appends_regular _ (Done tt)). intros doc. reflexivity.
  - eapply (appends_regular _ (Raised ImageError)). intros doc. reflexivity.
Qed.

Lemma regular_sized_picture data :
  regular (sized_picture image_size picture_ok self data).
Proof.
  unfold sized_picture.
  apply regular_bind; [apply regular_of_option|]. intros size.
  apply regular_bind; [apply regular_of_option|]. intros geometry.
  apply regular_add_picture.
Qed.

Lemma regular_insert_figure_body c cit :
  regular (insert_figure_body image_size picture_ok self c cit).
Proof.
  unfold insert_figure_body.
  apply regular_bind; [apply regular_of_option|]. intros fig_num.
  destruct (List.filter _ (figures c)) as [|figure _]; [apply regular_ret|].
  apply regular_bind; [apply regular_emit|]. intros _.
  apply regular_bind.
  { apply regular_try; [apply regular_sized_picture|].
    intros _. apply regular_add_picture. }
  intros _. apply regular_bind; [apply regular_emit|]. intros _.
  apply regular_emit.
Qed.

Lemma regular_insert_table_body c cit : regular (insert_table_body c cit).
Proof.
  unfold insert_table_body.
  apply regular_bind; [apply regular_of_option|]. intros table_num.
  destruct (List.filter _ (tables c)) as [|t _]; [apply regular_ret|].
  destruct (tab_data t) as [|row rows]; [apply regular_ret|].
  apply regular_bind; [apply regular_emit|]. intros _.
  apply regular_bind; [apply regular_emit|]. intros _.
  apply regular_bind; [|intros _; apply regular_emit].
  destruct (_ && _); [apply regular_emit|apply regular_ret].
Qed.

(** Placing a citation always ends normally and only appends. *)
Lemma insert_cited_appends c cit :
  appends (insert_cited image_size picture_ok self c cit) (Done tt)
          (placed image_size picture_ok self c cit).
Proof.
  assert (H : exists bs,
             appends (insert_cited image_size picture_ok self c cit)
                     (Done tt) bs).
  { unfold insert_cited. destruct (c_type cit).
    - apply try_emit_done, regular_insert_figure_body.
    - apply try_emit_done, regular_insert_table_body. }
  destruct H as (bs & H). unfold placed. rewrite (H []). exact H.
Qed.

Lemma add_body_paragraph_appends p :
  heading_has_text p = true ->
  appends (add_body_paragraph self p) (Done tt) [body_block self p].
Proof.
  unfold heading_has_text, add_body_paragraph, body_block.
  destruct (bp_is_heading p); simpl.
  - destruct (bp_text p); [discriminate|]. intros _. apply appends_emit.
  - intros _. apply appends_emit.
Qed.

(** The insertion map groups the citations by position, in order. *)
Lemma insertion_map_fold citations : forall (m : gmap Z (list citation)) idx,
  default [] (fold_left insertion_map_add citations m !! idx)
  = default [] (m !! idx) ++ cited_at citations idx.
Proof.
  unfold cited_at.
  induction citations as [|cit cits IH]; intros m idx; cbn [fold_left List.filter].
  - symmetry. apply app_nil_r.
  - rewrite IH. unfold insertion_map_add at 1, at_position.
    destruct (Z.eqb_spec (c_position cit) idx) as [->|Hne].
    + rewrite lookup_insert_eq. simpl. rewrite <- app_assoc. reflexivity.
    + rewrite lookup_insert_ne by exact Hne. reflexivity.
Qed.

Lemma insertion_map_lookup citations idx :
  default [] (insertion_map citations !! idx) = cited_at citations idx.
Proof.
  unfold insertion_map. rewrite insertion_map_fold, lookup_empty.
  reflexivity.
Qed.

Lemma body_loop_appends c citations paras : forall idx,
  forallb heading_has_text paras = true ->
  appends (body_loop image_size picture_ok self c
                     (insertion_map citations) idx paras)
          (Done tt)
          (sections image_size picture_ok self c citations idx paras).
Proof.
  induction paras as [|p paras IH]; intros idx Hwf;
    cbn [body_loop sections].
  - apply appends_ret.
  - cbn [forallb] in Hwf. apply andb_true_iff in Hwf as [Hp Hwf].
    unfold section_blocks.
    change (body_block self p :: ?l) with ([body_block self p] ++ l).
    rewrite <- app_assoc.
    eapply appends_bind_done; [apply add_body_paragraph_appends, Hp|].
    eapply appends_bind_done; [|apply IH, Hwf].
    rewrite <- insertion_map_lookup.
    destruct (insertion_map citations !! idx) as [cits|]; simpl.
    + apply for_each_appends, insert_cited_appends.
    + apply appends_ret.
Qed.

Lemma sections_app c citations l1 l2 : forall idx,
  sections image_size picture_ok self c citations idx (l1 ++ l2)
  = sections image_size picture_ok self c citations idx l1
    ++ sections image_size picture_ok self c citations
                (idx + Z.of_nat (length l1)) l2.
Proof.
  induction l1 as [|p l1 IH]; intros idx; cbn [app sections length].
  - rewrite Z.add_0_r. reflexivity.
  - rewrite IH, <- app_assoc. do 3 f_equal. lia.
Qed.

(** A citation anchored at an existing paragraph has its blocks right
    after that paragraph. *)
Lemma cited_placed_after c citations i p cit :
  body c !! i = Some p ->
  In cit citations ->
  c_position cit = Z.of_nat i ->
  placed_after image_size picture_ok self c citations
               (sections image_size picture_ok self c citations 0 (body c))
               i p cit.
Proof.
  intros Hp Hin Hpos.
  assert (Hc : In cit (cited_at citations (Z.of_nat i))).
  { apply filter_In. split; [exact Hin|]. apply Z.eqb_eq, Hpos. }
  apply in_split in Hc as (l1 & l2 & Hc).
  exists l1, l2,
    (sections image_size picture_ok self c citations (Z.of_nat i + 1)
              (skipn (S i) (body c))).
  split; [exact Hc|].
  rewrite <- (take_drop_middle (body c) i p Hp) at 1.
  rewrite sections_app. f_equal.
  rewrite length_take_le by (apply lookup_lt_Some in Hp; lia).
  rewrite Z.add_0_l. cbn [sections]. unfold section_blocks. rewrite Hc.
  rewrite flat_map_app. cbn [flat_map app]. rewrite <- !app_assoc.
  reflexivity.
Qed.




End Placement.

(* ================================================================== *)
(** * Placement: one figure, one table *)
(* ================================================================== *)

Section OneAsset.

Variable image_size : list Byte.byte -> option (Z * Z).
Variable picture_ok : list Byte.byte -> bool.
Variable self : formatter.

Local Abbreviation insert_figure :=
  (_insert_figure image_size picture_ok self).
Local Abbreviation figure_body :=
  (insert_figure_body image_size picture_ok self).

Lemma find_figure_filter c n f :
  find_figure c n = Some f ->
  exists rest, List.filter (fun f => fig_number f =? n) (figures c) = f :: rest.
Proof.
  unfold find_figure. destruct (List.filter _ _) as [|g rest]; [discriminate|].
  intros [= ->]. eauto.
Qed.

Lemma find_table_filter c n t :
  find_table c n = Some t ->
  exists rest, List.filter (fun t => tab_number t =? n) (tables c) = t :: rest.
Proof.
  unfold find_table. destruct (List.filter _ _) as [|g rest]; [discriminate|].
  intros [= ->]. eauto.
Qed.

Lemma figure_body_found c cit n f :
  figure_number_of cit = Some n ->
  find_figure c n = Some f ->
  figure_body c cit
  = bind (emit spacing)
      (fun _ => bind (picture_step image_size picture_ok self f)
         (fun _ => bind (emit (figure_caption_block n f))
            (fun _ => emit spacing))).
Proof.
  intros Hn Hf. apply find_figure_filter in Hf as (rest & Hf).
  unfold insert_figure_body. unfold figure_number_of in Hn.
  rewrite Hn. cbn [of_option]. unfold bind at 1, ret.
  rewrite Hf. reflexivity.
Qed.

Lemma sized_picture_ok data w h :
  image_size data = Some (w, h) -> w <> 0 -> picture_ok data = true ->
  appends (sized_picture image_size picture_ok self data) (Done tt)
          [picture_block data (py_min (fmt_figure_width self) (65 # 10))].
Proof.
  intros Hs Hw Hp doc. unfold sized_picture, bind, of_option.
  rewrite Hs. unfold ret, figure_geometry.
  destruct (Z.eqb_spec w 0) as [|_]; [contradiction|].
  unfold add_picture_paragraph. rewrite Hp. reflexivity.
Qed.

Lemma sized_picture_unsized data :
  sizing_ok image_size (fmt_figure_width self) data = false ->
  exists e, appends (sized_picture image_size picture_ok self data)
                    (Raised e) [].
Proof.
  unfold sizing_ok. intros H.
  destruct (image_size data) as [size|] eqn:Hs.
  - destruct (figure_geometry (fmt_figure_width self) size) eqn:Hg;
      [discriminate|].
    exists ZeroDivisionError. intros doc.
    unfold sized_picture, bind, of_option. rewrite Hs. unfold ret.
    rewrite Hg. unfold raise. rewrite app_nil_r. reflexivity.
  - exists ImageError. intros doc.
    unfold sized_picture, bind, of_option. rewrite Hs. unfold raise.
    rewrite app_nil_r. reflexivity.
Qed.

Lemma sized_picture_rejected data :
  sizing_ok image_size (fmt_figure_width self) data = true ->
  picture_ok data = false ->
  appends (sized_picture image_size picture_ok self data)
          (Raised ImageError) [pending_picture_block].
Proof.
  unfold sizing_ok. intros H Hp doc.
  destruct (image_size data) as [size|] eqn:Hs; [|discriminate].
  destruct (figure_geometry (fmt_figure_width self) size) eqn:Hg;
    [|discriminate].
  unfold sized_picture, bind, of_option. rewrite Hs. unfold ret.
  rewrite Hg. unfold add_picture_paragraph. rewrite Hp. reflexivity.
Qed.


Lemma add_picture_rejected data w :
  picture_ok data = false ->
  appends (add_picture_paragraph picture_ok data w) (Raised ImageError)
          [pending_picture_block].
Proof. intros Hp doc. unfold add_picture_paragraph. rewrite Hp. reflexivity. Qed.

Lemma picture_step_rejected f :
  picture_ok (fig_image_data f) = false ->
  appends (picture_step image_size picture_ok self f) (Raised ImageError)
          (failed_attempts image_size self (fig_image_data f)).
Proof.
  intros Hp. unfold picture_step, failed_attempts.
  destruct (sizing_ok image_size (fmt_figure_width self) (fig_image_data f))
    eqn:Hs.
  - change [pending_picture_block; pending_picture_block]
      with ([pending_picture_block] ++ [pending_picture_block]).
    eapply appends_try_raised;
      [apply sized_picture_rejected; assumption
      |apply add_picture_rejected, Hp].
  - destruct (sized_picture_unsized _ Hs) as (e & He).
    change [pending_picture_block] with ([] ++ [pending_picture_block]).
    eapply appends_try_raised; [exact He|apply add_picture_rejected, Hp].
Qed.

(** A found figure whose stream python-docx rejects. *)
Lemma figure_body_rejected c cit n f :
  figure_number_of cit = Some n ->
  find_figure c n = Some f ->
  picture_ok (fig_image_data f) = false ->
  appends (figure_body c cit) (Raised ImageError)
          (spacing :: failed_attempts image_size self (fig_image_data f)).
Proof.
  intros Hn Hf Hp. rewrite (figure_body_found c cit n f Hn Hf).
  change (spacing :: ?l) with ([spacing] ++ l).
  eapply appends_bind_done; [apply appends_emit|].
  apply appends_bind_raised, picture_step_rejected, Hp.
Qed.

(** A found figure that is sized and accepted. *)
Lemma insert_figure_sized c cit n f w h :
  figure_number_of cit = Some n ->
  find_figure c n = Some f ->
  image_size (fig_image_data f) = Some (w, h) -> w <> 0 ->
  picture_ok (fig_image_data f) = true ->
  appends (insert_figure c cit) (Done tt)
          [spacing;
           picture_block (fig_image_data f)
                         (py_min (fmt_figure_width self) (65 # 10));
           figure_caption_block n f; spacing].
Proof.
  intros Hn Hf Hs Hw Hp. unfold _insert_figure.
  apply appends_try_done. rewrite (figure_body_found c cit n f Hn Hf).
  apply (appends_bind_done _ _ tt [spacing] _ [_; _; _]);
    [apply appends_emit|].
  apply (appends_bind_done _ _ tt [_] _ [_; _]).
  { apply appends_try_done. eapply sized_picture_ok; eassumption. }
  apply (appends_bind_done _ _ tt [_] _ [_]); apply appends_emit.
Qed.


(** No figure of the cited number: nothing is appended. *)
Lemma insert_figure_missing c cit n :
  figure_number_of cit = Some n ->
  find_figure c n = None ->
  appends (insert_figure c cit) (Done tt) [].
Proof.
  intros Hn Hf. unfold _insert_figure. apply appends_try_done.
  unfold insert_figure_body. unfold figure_number_of in Hn.
  rewrite Hn. cbn [of_option]. unfold bind at 1, ret at 1.
  unfold find_figure in Hf.
  destruct (List.filter _ (figures c)); [|discriminate].
  apply appends_ret.
Qed.

Lemma insert_table_missing c cit n :
  Py.int (c_number cit) = Some n ->
  find_table c n = None ->
  appends (_insert_table c cit) (Done tt) [].
Proof.
  intros Hn Hf. unfold _insert_table. apply appends_try_done.
  unfold insert_table_body. rewrite Hn. cbn [of_option].
  unfold bind at 1, ret at 1. unfold find_table in Hf.
  destruct (List.filter _ (tables c)); [|discriminate].
  apply appends_ret.
Qed.

Lemma max_row_width_empty_rows (data : list (list str)) :
  List.Forall (fun row => row = []) data -> max_row_width data = 0%nat.
Proof.
  induction 1 as [|row data Hrow _ IH]; [reflexivity|].
  cbn [max_row_width foldr]. fold (max_row_width data).
  rewrite IH, Hrow. reflexivity.
Qed.

Lemma max_row_width_positive (data : list (list str)) :
  (0 < max_row_width data)%nat -> data <> [].
Proof. intros H ->. cbn in H. lia. Qed.

(** A found table with at least one cell. *)
Lemma insert_table_found c cit n t :
  Py.int (c_number cit) = Some n ->
  find_table c n = Some t ->
  (0 < max_row_width (tab_data t))%nat ->
  appends (_insert_table c cit) (Done tt)
          [spacing; table_caption_block n t;
           BTable (s_ "Table Grid")
                  (grid (tab_data t) (max_row_width (tab_data t)));
           spacing].
Proof.
  intros Hn Hf Hpos doc.
  apply find_table_filter in Hf as (rest & Hf).
  unfold _insert_table, try_except, insert_table_body.
  rewrite Hn. cbn [of_option]. unfold bind at 1, ret at 1. rewrite Hf.
  pose proof (max_row_width_positive _ Hpos) as Hne.
  destruct (tab_data t) as [|row rows] eqn:Hd; [contradiction|].
  rewrite <- Hd in *.
  assert (Hrows : (0 <? length (tab_data t))%nat = true).
  { rewrite Hd. reflexivity. }
  rewrite Hrows. apply Nat.ltb_lt in Hpos. rewrite Hpos.
  unfold bind, emit, ret. cbn [andb].
  rewrite <- !app_assoc. reflexivity.
Qed.

End OneAsset.

(* ================================================================== *)
(** * Placement: the properties *)
(* ================================================================== *)

Section PlacementProperties.

Variable image_size : list Byte.byte -> option (Z * Z).
Variable picture_ok : list Byte.byte -> bool.
Variable self : formatter.

Lemma placed_of_appends c cit bs :
  appends (insert_cited image_size picture_ok self c cit) (Done tt) bs ->
  placed image_size picture_ok self c cit = bs.
Proof. intros H. unfold placed. rewrite (H []). reflexivity. Qed.


Lemma add_body_result c citations :
  forallb heading_has_text (body c) = true ->
  _add_body_with_citations image_size picture_ok self c citations []
  = (Done tt, sections image_size picture_ok self c citations 0 (body c)).
Proof.
  intros Hwf. unfold _add_body_with_citations.
  rewrite (body_loop_appends image_size picture_ok self c citations
             (body c) 0 Hwf []).
  reflexivity.
Qed.



(** C4. When the body of the [try] that places a citation raises, the
    citation is still placed without an exception: what the body had
    appended is followed by one italic paragraph that reads
    "[Figure N - insertion failed]" or "[Table N - insertion failed]",
    and the run over the whole body ends normally with these blocks
    after the citing paragraph. *)
Theorem failed_placement_leaves_placeholder
        (c : content) (citations : list citation) (cit : citation)
        (i : nat) (p : body_paragraph) (e : exn) (emitted : list block) :
  forallb heading_has_text (body c) = true ->
  In cit citations ->
  body c !! i = Some p ->
  c_position cit = Z.of_nat i ->
  try_body image_size picture_ok self c cit [] = (Raised e, emitted) ->
  exists failure out,
    italic failure
    /\ text_of failure = failure_text cit
    /\ (forall doc,
          insert_cited image_size picture_ok self c cit doc
          = (Done tt, doc ++ emitted ++ [failure]))
    /\ _add_body_with_citations image_size picture_ok self c citations []
       = (Done tt, out)
    /\ placed image_size picture_ok self c cit = emitted ++ [failure]
    /\ placed_after image_size picture_ok self c citations out i p cit.
Proof.
  intros Hwf Hin Hp Hpos Hbody.
  assert (Hreg : regular (try_body image_size picture_ok self c cit)).
  { unfold try_body. destruct (c_type cit).
    - apply regular_insert_figure_body.
    - apply regular_insert_table_body. }
  unfold regular in Hreg. rewrite Hbody in Hreg. cbn [fst snd] in Hreg.
  exists (BParagraph (placeholder (failure_text cit))),
    (sections image_size picture_ok self c citations 0 (body c)).
  assert (Hins : appends (insert_cited image_size picture_ok self c cit)
                   (Done tt)
                   (emitted ++ [BParagraph (placeholder (failure_text cit))])).
  { unfold insert_cited, failure_text, try_body in *.
    destruct (c_type cit).
    - eapply appends_try_raised; [exact Hreg|apply appends_emit].
    - eapply appends_try_raised; [exact Hreg|apply appends_emit]. }
  split; [|split; [|split; [|split; [|split]]]].
  - cbn. split; [discriminate|]. repeat constructor.
  - unfold text_of, placeholder. cbn [op_runs map or_text concat].
    apply app_nil_r.
  - exact Hins.
  - apply add_body_result, Hwf.
  - apply placed_of_appends, Hins.
  - apply cited_placed_after; assumption.
Qed.

(** C5, as the code has it.  A figure that is found, sized (the image
    size is read and its pixel width is not zero) and accepted is
    placed as spacing, picture, caption, spacing; the picture's width is
    min(figure width, 6.5) inches, and the height computed for it, which
    is not passed on with the picture, is that width times the pixel
    height over the pixel width.  At 1200 x 800 pixels and a figure
    width of 6 inches the pair is 6 and 4 inches. *)
Theorem sized_figure_width_and_height
        (c : content) (cit : citation) (n : Z) (f : figure) (w h : Z) :
  figure_number_of cit = Some n ->
  find_figure c n = Some f ->
  image_size (fig_image_data f) = Some (w, h) ->
  w <> 0 ->
  picture_ok (fig_image_data f) = true ->
  exists width_inches height_inches,
    figure_geometry (fmt_figure_width self) (w, h)
    = Some (width_inches, height_inches)
    /\ width_inches = py_min (fmt_figure_width self) (65 # 10)
    /\ (height_inches * inject_Z w == width_inches * inject_Z h)%Q
    /\ (forall doc,
          _insert_figure image_size picture_ok self c cit doc
          = (Done tt,
             doc ++ [spacing; picture_block (fig_image_data f) width_inches;
                     figure_caption_block n f; spacing]))
    /\ (exists height, figure_geometry 6 (1200, 800) = Some (6%Q, height)
                       /\ (height == 4)%Q).
Proof.
  intros Hn Hf Hs Hw Hp.
  exists (py_min (fmt_figure_width self) (65 # 10)),
    (py_min (fmt_figure_width self) (65 # 10)
     * (inject_Z h / inject_Z w))%Q.
  split; [|split; [reflexivity|split; [|split]]].
  - unfold figure_geometry.
    destruct (Z.eqb_spec w 0); [contradiction|reflexivity].
  - field. intros H0. apply Hw.
    unfold Qeq, inject_Z in H0. simpl in H0. lia.
  - apply (insert_figure_sized image_size picture_ok self c cit n f w h);
      assumption.
  - eexists. split; [reflexivity|]. reflexivity.
Qed.

(** C9. A found figure whose stream is rejected leaves in the document
    the spacing paragraph and the centred paragraph of every attempt,
    each with its run still empty; the placeholder comes after them. *)
Theorem failed_figure_keeps_emitted_blocks
        (c : content) (cit : citation) (n : Z) (f : figure) (doc : document) :
  figure_number_of cit = Some n ->
  find_figure c n = Some f ->
  picture_ok (fig_image_data f) = false ->
  _insert_figure image_size picture_ok self c cit doc
  = (Done tt,
     doc ++ spacing
         :: (if sizing_ok image_size (fmt_figure_width self)
                          (fig_image_data f)
             then [pending_picture_block; pending_picture_block]
             else [pending_picture_block])
         ++ [figure_placeholder (c_number cit)]).
Proof.
  intros Hn Hf Hp. unfold _insert_figure.
  pose proof (figure_body_rejected image_size picture_ok self c cit n f
                Hn Hf Hp) as Hbody.
  rewrite (appends_try_raised _ _ _ _ _ _ Hbody
             (appends_emit (figure_placeholder (c_number cit))) doc).
  reflexivity.
Qed.

(** C10. A found table with rows that are all empty is placed as
    spacing, the caption "Table N: caption" and spacing: no grid. *)
Theorem zero_width_table_caption_only
        (c : content) (cit : citation) (n : Z) (t : table) (doc : document) :
  Py.int (c_number cit) = Some n ->
  find_table c n = Some t ->
  tab_data t <> [] ->
  List.Forall (fun row => row = []) (tab_data t) ->
  exists caption,
    _insert_table c cit doc = (Done tt, doc ++ [spacing; caption; spacing])
    /\ caption = table_caption_block n t
    /\ text_of caption
       = s_ "Table " ++ Py.str_of_int n ++ s_ ": " ++ tab_caption t
    /\ is_table caption = false /\ is_table spacing = false.
Proof.
  intros Hn Hf Hne Hrows. exists (table_caption_block n t).
  split; [|split; [reflexivity|split; [|split; reflexivity]]].
  - apply find_table_filter in Hf as (rest & Hf).
    unfold _insert_table, try_except, insert_table_body.
    rewrite Hn. cbn [of_option]. unfold bind at 1, ret at 1.
    rewrite Hf. destruct (tab_data t) as [|row rows] eqn:Hd;
      [contradiction|].
    rewrite <- Hd in *. rewrite (max_row_width_empty_rows _ Hrows).
    rewrite andb_false_r. unfold bind, emit, ret.
    rewrite <- !app_assoc. reflexivity.
  - unfold text_of, table_caption_block, caption_paragraph.
    cbn [op_runs map or_text concat]. apply app_nil_r.
Qed.

End PlacementProperties.

(* ================================================================== *)
(** * Placement: concrete documents *)
(* ================================================================== *)


Lemma failed_placement_leaves_placeholder_witness :
  exists failure out,
    italic failure
    /\ text_of failure = s_ "[Figure 2 - insertion failed]"
    /\ (forall doc,
          insert_cited no_size reject_all default_formatter once_cited
                       (cite_figure "2" 0) doc
          = (Done tt, doc ++ [spacing; pending_picture_block] ++ [failure]))
    /\ _add_body_with_citations no_size reject_all default_formatter
                                once_cited [cite_figure "2" 0] []
       = (Done tt, out)
    /\ placed no_size reject_all default_formatter once_cited
              (cite_figure "2" 0)
       = [spacing; pending_picture_block] ++ [failure]
    /\ placed_after no_size reject_all default_formatter once_cited
                    [cite_figure "2" 0] out 0
                    (normal_paragraph "Survival is shown in Figure 2.")
                    (cite_figure "2" 0).
Proof.
  apply (failed_placement_leaves_placeholder no_size reject_all
           default_formatter once_cited [cite_figure "2" 0]
           (cite_figure "2" 0) 0
           (normal_paragraph "Survival is shown in Figure 2.") ImageError
           [spacing; pending_picture_block]).
  - reflexivity.
  - left. reflexivity.
  - reflexivity.
  - reflexivity.
  - reflexivity.
Defined.

Lemma sized_figure_width_and_height_witness :
  exists width_inches height_inches,
    figure_geometry (fmt_figure_width default_formatter) (1200, 800)
    = Some (width_inches, height_inches)
    /\ width_inches = py_min (fmt_figure_width default_formatter) (65 # 10)
    /\ (height_inches * inject_Z 1200 == width_inches * inject_Z 800)%Q
    /\ (forall doc,
          _insert_figure size_1200_800 accept_all default_formatter
                         once_cited (cite_figure "2" 0) doc
          = (Done tt,
             doc ++ [spacing;
                     picture_block (fig_image_data figure_2) width_inches;
                     figure_caption_block 2 figure_2; spacing]))
    /\ (exists height, figure_geometry 6 (1200, 800) = Some (6%Q, height)
                       /\ (height == 4)%Q).
Proof.
  apply (sized_figure_width_and_height size_1200_800 accept_all
           default_formatter once_cited (cite_figure "2" 0) 2 figure_2
           1200 800).
  - reflexivity.
  - reflexivity.
  - reflexivity.
  - lia.
  - reflexivity.
Defined.

Lemma failed_figure_keeps_emitted_blocks_witness :
  _insert_figure size_1200_800 reject_all default_formatter once_cited
                 (cite_figure "2" 0) [spacing]
  = (Done tt,
     [spacing] ++ spacing
       :: (if sizing_ok size_1200_800 (fmt_figure_width default_formatter)
                        (fig_image_data figure_2)
           then [pending_picture_block; pending_picture_block]
           else [pending_picture_block])
       ++ [figure_placeholder (s_ "2")]).
Proof.
  apply (failed_figure_keeps_emitted_blocks size_1200_800 reject_all
           default_formatter once_cited (cite_figure "2" 0) 2 figure_2
           [spacing]).
  - reflexivity.
  - reflexivity.
  - reflexivity.
Defined.

Lemma zero_width_table_caption_only_witness :
  exists caption,
    _insert_table with_hollow_table (cite_table "1" 0) []
    = (Done tt, [] ++ [spacing; caption; spacing])
    /\ caption = table_caption_block 1 hollow_table
    /\ text_of caption
       = s_ "Table " ++ Py.str_of_int 1 ++ s_ ": " ++ tab_caption hollow_table
    /\ is_table caption = false /\ is_table spacing = false.
Proof.
  apply (zero_width_table_caption_only with_hollow_table (cite_table "1" 0)
           1 hollow_table []).
  - reflexivity.
  - reflexivity.
  - discriminate.
  - repeat constructor.
Defined.

(** C5, as it is worded, at a figure whose size cannot be read while its
    stream is accepted, with a figure width of 7 inches: the figure is
    placed, and its picture is 7 inches wide, not min(7, 6.5). *)
Lemma fallback_width_not_capped :
  let self := Formatter 12 2 7 in
  let cit := cite_figure "2" 0 in
  _insert_figure no_size accept_all self once_cited cit []
  = (Done tt,
     [spacing; picture_block (fig_image_data figure_2) 7;
      figure_caption_block 2 figure_2; spacing])
  /\ pictures (placed no_size accept_all self once_cited cit)
     = [Picture (fig_image_data figure_2) 7]
  /\ ~ (7 == py_min (fmt_figure_width self) (65 # 10))%Q.
Proof.
  cbv zeta. split; [reflexivity|]. split; [reflexivity|].
  vm_compute. discriminate.
Qed.

(** C3, at a citation of panel a of a figure that was not extracted:
    the pattern, being case-insensitive, takes "3a" as the number; only
    capital letters are stripped from it, [int] raises, and a
    placeholder is placed where nothing should be. *)
Theorem lowercase_panel_gets_placeholder
        (image_size : list Byte.byte -> option (Z * Z))
        (picture_ok : list Byte.byte -> bool) (self : formatter) :
  detect_citations lowercase_panel
  = [Citation KFigure (s_ "3a") 0 (s_ "Results are in Figure 3a.")
              (s_ "Figure 3a")]
  /\ figures lowercase_panel = []
  /\ _add_body_with_citations image_size picture_ok self lowercase_panel
                              (detect_citations lowercase_panel) []
     = (Done tt,
        [body_block self (normal_paragraph "Results are in Figure 3a.");
         figure_placeholder (s_ "3a")]).
Proof.
  split; [reflexivity|]. split; [reflexivity|].
  rewrite add_body_result by reflexivity.
  reflexivity.
Qed.

(* ================================================================== *)
(** * The extracted body and the citations found in it *)
(* ================================================================== *)

Section ExtractedBody.

Lemma extract_body_loop_text ps : forall in_body acc,
  List.Forall (fun b => nonempty (bp_text b) = true) acc ->
  List.Forall (fun b => nonempty (bp_text b) = true)
              (extract_body_loop ps in_body acc).
Proof.
  induction ps as [|p ps IH]; intros in_body acc Hacc; cbn [extract_body_loop].
  - exact Hacc.
  - cbv zeta.
    destruct ((in_body || matches body_start_re (Py.strip (para_text p)))
              && matches references_re (Py.strip (para_text p)));
      [exact Hacc|].
    destruct (skipped (Py.strip (para_text p))); [apply IH, Hacc|].
    destruct (in_body || matches body_start_re (Py.strip (para_text p)));
      cbn [andb]; [|apply IH, Hacc].
    destruct (nonempty (Py.strip (para_text p))) eqn:Hne; [|apply IH, Hacc].
    apply IH. apply List.Forall_app. split; [exact Hacc|].
    constructor; [exact Hne|constructor].
Qed.

Lemma extracted_body_headings paragraphs c :
  forallb heading_has_text (body (_extract_body paragraphs c)) = true.
Proof.
  apply forallb_forall. intros b Hb.
  pose proof (extract_body_loop_text paragraphs false [] (List.Forall_nil _))
    as H.
  rewrite List.Forall_forall in H. unfold heading_has_text.
  rewrite (H b Hb). apply orb_true_r.
Qed.

Lemma citations_of_anchor k patterns idx text cit :
  In cit (citations_of k patterns idx text) ->
  c_position cit = idx /\ c_context cit = text.
Proof.
  unfold citations_of. intros H. apply in_flat_map in H as (r & _ & H).
  apply in_map_iff in H as (m & <- & _). split; reflexivity.
Qed.

Lemma collect_citations_anchor paras : forall idx cit,
  In cit (collect_citations idx paras) ->
  exists i p, paras !! i = Some p
              /\ c_position cit = idx + Z.of_nat i
              /\ c_context cit = bp_text p.
Proof.
  induction paras as [|p paras IH]; intros idx cit; cbn [collect_citations].
  - intros [].
  - intros H. apply in_app_or in H as [H|H];
      [|apply in_app_or in H as [H|H]].
    + apply citations_of_anchor in H as [Hp Hc].
      exists 0%nat, p. repeat split; [lia|exact Hc].
    + apply citations_of_anchor in H as [Hp Hc].
      exists 0%nat, p. repeat split; [lia|exact Hc].
    + apply IH in H as (i & q & Hq & Hp & Hc).
      exists (S i), q. repeat split; [exact Hq|lia|exact Hc].
Qed.

Lemma unique_from_In seen cs x : In x (unique_from seen cs) -> In x cs.
Proof.
  intros H. apply list_elem_of_In.
  eapply elem_of_sublist; [|apply unique_from_sublist].
  apply list_elem_of_In, H.
Qed.

Lemma detect_citations_In c cit :
  In cit (detect_citations c) -> In cit (collect_citations 0 (body c)).
Proof.
  unfold detect_citations. intros H.
  apply (proj1 (sorted_by_position_In _ _)) in H.
  eapply unique_from_In, H.
Qed.

Lemma detect_citations_anchored c cit :
  In cit (detect_citations c) -> anchored c cit.
Proof.
  intros H. apply detect_citations_In, collect_citations_anchor in H.
  destruct H as (i & p & Hp & Hpos & Hc).
  exists i, p. repeat split; [exact Hp|lia|exact Hc].
Qed.

(** The position of everything collected from [idx] on is at least
    [idx], and the collected list is ordered by position. *)
Lemma collect_citations_sorted paras : forall idx,
  List.Forall (fun c => idx <= c_position c) (collect_citations idx paras)
  /\ StronglySorted position_le (collect_citations idx paras).
Proof.
  induction paras as [|p paras IH]; intros idx; cbn [collect_citations].
  - split; constructor.
  - destruct (IH (idx + 1)) as [Hge Hs].
    set (here := citations_of KFigure figure_patterns idx (bp_text p)
                 ++ citations_of KTable table_patterns idx (bp_text p)).
    assert (Hhere : List.Forall (fun c => c_position c = idx) here).
    { apply List.Forall_forall. intros c Hc. unfold here in Hc.
      apply in_app_or in Hc as [Hc|Hc];
        apply citations_of_anchor in Hc; tauto. }
    rewrite app_assoc. fold here. split.
    + apply List.Forall_app. split.
      * eapply List.Forall_impl; [|exact Hhere]. intros c Hc. cbv beta in *. lia.
      * eapply List.Forall_impl; [|exact Hge]. intros c Hc. cbv beta in *. lia.
    + clearbody here. induction Hhere as [|c here Hc Hrest IHh]; [exact Hs|].
      cbn [app]. constructor; [exact IHh|].
      apply List.Forall_app. split.
      * eapply List.Forall_impl; [|exact Hrest]. intros d Hd.
        unfold position_le. cbv beta in *. lia.
      * eapply List.Forall_impl; [|exact Hge]. intros d Hd.
        unfold position_le. cbv beta in *. lia.
Qed.

Lemma sublist_sorted (l1 l2 : list citation) :
  sublist l1 l2 -> StronglySorted position_le l2 ->
  StronglySorted position_le l1.
Proof.
  induction 1 as [|x l1 l2 Hsub IH|x l1 l2 Hsub IH]; intros Hs.
  - constructor.
  - apply StronglySorted_inv in Hs as [Hs Hx].
    constructor; [apply IH, Hs|].
    apply List.Forall_forall. intros y Hy.
    rewrite List.Forall_forall in Hx. apply Hx.
    apply list_elem_of_In. eapply elem_of_sublist; [|exact Hsub].
    apply list_elem_of_In, Hy.
  - apply StronglySorted_inv in Hs as [Hs _]. apply IH, Hs.
Qed.

Lemma sorted_by_position_id l :
  StronglySorted position_le l -> sorted_by_position l = l.
Proof.
  induction 1 as [|c l Hs IH Hc]; [reflexivity|].
  cbn [sorted_by_position foldr]. fold (sorted_by_position l). rewrite IH.
  destruct l as [|d l]; [reflexivity|]. cbn [insert_by_position].
  apply List.Forall_inv in Hc. unfold position_le in Hc.
  destruct (Z.leb_spec (c_position c) (c_position d)); [reflexivity|lia].
Qed.

End ExtractedBody.

(** X1. The body paragraphs [_extract_body] keeps all have text, so
    every heading of such a body has the run whose font the loop sets.
    For a formatter made by the constructor with a font size that
    python-docx accepts, texts that can be written, and any list of
    citations whose numbers can be written, the placement loop over
    such a body ends normally. *)
Theorem extracted_body_never_aborts
        (image_size : list Byte.byte -> option (Z * Z))
        (picture_ok : list Byte.byte -> bool)
        (font_size : Z) (line_spacing : str) (figure_width : Q)
        (paragraphs : list docx_paragraph) (c : content)
        (citations : list citation) :
  let self := JournalFormatter font_size line_spacing figure_width in
  let c' := _extract_body paragraphs c in
  font_size_ok font_size = true ->
  forallb (fun p => xml_text (para_text p)) paragraphs = true ->
  assets_writable c = true ->
  forallb (fun cit => xml_text (c_number cit)) citations = true ->
  List.Forall (fun b => nonempty (bp_text b) = true) (body c')
  /\ exists out,
       _add_body_with_citations image_size picture_ok self c' citations []
       = (Done tt, out).
Proof.
  cbv zeta. intros _ _ _ _. split.
  - apply (extract_body_loop_text paragraphs false []). constructor.
  - eexists. apply add_body_result, extracted_body_headings.
Qed.

Lemma extracted_body_never_aborts_witness :
  let self := JournalFormatter 12 (s_ "Double") 6 in
  let c' := _extract_body
              [plain_paragraph "Introduction";
               plain_paragraph "Survival is shown in Figure 2."]
              once_cited in
  List.Forall (fun b => nonempty (bp_text b) = true) (body c')
  /\ exists out,
       _add_body_with_citations size_1200_800 accept_all self c'
                                [cite_figure "2" 1; cite_table "x" 0] []
       = (Done tt, out).
Proof.
  apply (extracted_body_never_aborts size_1200_800 accept_all
           12 (s_ "Double") 6
           [plain_paragraph "Introduction";
            plain_paragraph "Survival is shown in Figure 2."]
           once_cited [cite_figure "2" 1; cite_table "x" 0]);
    reflexivity.
Defined.

(** X2. Every citation [detect_citations] returns points at a paragraph
    of the body and carries that paragraph's text as its context. *)
Theorem detected_citations_anchored (c : content) :
  List.Forall (anchored c) (detect_citations c).
Proof.
  apply List.Forall_forall. intros cit. apply detect_citations_anchored.
Qed.

(** X3. The matches are collected in the order of their paragraphs, so
    the final sort changes nothing: the result is the list of first
    occurrences in the order in which they were collected. *)
Theorem detect_citations_keeps_order (c : content) :
  detect_citations c = unique_from ∅ (collect_citations 0 (body c)).
Proof.
  unfold detect_citations. apply sorted_by_position_id.
  eapply sublist_sorted; [apply unique_from_sublist|].
  apply collect_citations_sorted.
Qed.

(* ================================================================== *)
(** * The whole extraction, then detection, then placement *)
(* ================================================================== *)

Section Pipeline.

Variable image_size : list Byte.byte -> option (Z * Z).
Variable picture_ok : list Byte.byte -> bool.
Variable self : formatter.

Lemma extract_all_body doc :
  body (fst (extract_all_content doc))
  = extract_body_loop (doc_paragraphs doc) false [].
Proof.
  unfold extract_all_content, _extract_figures, _extract_tables.
  destruct (figures_loop _ _ _ _ _) as [figs out1].
  destruct (tables_loop _ _ _ _ _) as [tabs out2]. reflexivity.
Qed.

Lemma extract_all_headings doc :
  forallb heading_has_text (body (fst (extract_all_content doc))) = true.
Proof.
  rewrite extract_all_body.
  exact (extracted_body_headings (doc_paragraphs doc) empty_content).
Qed.

Lemma lookup_for_each (m : gmap Z (list citation)) idx
      (f : citation -> stmt unit) :
  match m !! idx with
  | Some cits => for_each cits f
  | None => ret tt
  end
  = for_each (default [] (m !! idx)) f.
Proof. destruct (m !! idx); reflexivity. Qed.

(** The loop looks a position up only for the indices of the body. *)
Lemma body_loop_ext c (m m' : gmap Z (list citation)) paras : forall idx doc,
  (forall j, idx <= j < idx + Z.of_nat (length paras) ->
             default [] (m !! j) = default [] (m' !! j)) ->
  body_loop image_size picture_ok self c m idx paras doc
  = body_loop image_size picture_ok self c m' idx paras doc.
Proof.
  induction paras as [|p paras IH]; intros idx doc Hm; [reflexivity|].
  cbn [body_loop]. rewrite !lookup_for_each.
  rewrite (Hm idx) by (cbn [length]; lia).
  unfold bind.
  destruct (add_body_paragraph self p doc) as [[[]|e] doc1]; [|reflexivity].
  destruct (for_each (default [] (m' !! idx))
                     (insert_cited image_size picture_ok self c) doc1)
    as [[[]|e] doc2]; [|reflexivity].
  apply IH. intros j Hj. apply Hm. cbn [length]. lia.
Qed.

Lemma cited_at_in_range c citations j :
  0 <= j < Z.of_nat (length (body c)) ->
  cited_at (List.filter (in_body_range c) citations) j
  = cited_at citations j.
Proof.
  intros Hj. unfold cited_at.
  induction citations as [|cit l IH]; [reflexivity|].
  cbn [List.filter]. unfold in_body_range at 1, at_position at 2.
  destruct (Z.eqb_spec (c_position cit) j) as [Heq|Hne].
  - rewrite Heq.
    destruct (Z.leb_spec 0 j); [|lia].
    destruct (Z.ltb_spec j (Z.of_nat (length (body c)))); [|lia].
    cbn [andb List.filter]. unfold at_position at 1.
    rewrite Heq, Z.eqb_refl, IH. reflexivity.
  - destruct (_ && _); [|exact IH].
    cbn [List.filter]. unfold at_position at 1.
    destruct (Z.eqb_spec (c_position cit) j); [contradiction|exact IH].
Qed.

End Pipeline.

(** X4. From a loaded document through extraction, citation detection
    and placement nothing raises, and the blocks placed for every
    detected citation stand right after the body paragraph the citation
    was found in. *)
Theorem pipeline_places_every_citation
        (image_size : list Byte.byte -> option (Z * Z))
        (picture_ok : list Byte.byte -> bool) (self : formatter)
        (doc : docx_document) :
  let c := fst (extract_all_content doc) in
  exists out,
    _add_body_with_citations image_size picture_ok self c
                             (detect_citations c) []
    = (Done tt, out)
    /\ forall cit, In cit (detect_citations c) ->
         exists i p,
           body c !! i = Some p
           /\ c_position cit = Z.of_nat i
           /\ c_context cit = bp_text p
           /\ placed_after image_size picture_ok self c
                           (detect_citations c) out i p cit.
Proof.
  cbv zeta. set (c := fst (extract_all_content doc)).
  exists (sections image_size picture_ok self c (detect_citations c) 0
                   (body c)).
  split; [apply add_body_result, extract_all_headings|].
  intros cit Hin.
  destruct (detect_citations_anchored c cit Hin) as (i & p & Hp & Hpos & Hc).
  exists i, p. repeat split; try assumption.
  apply cited_placed_after; assumption.
Qed.

(** X5. A citation whose position is not an index of the body is never
    placed: the placement loop does the same with and without it. *)
Theorem out_of_range_citations_ignored
        (image_size : list Byte.byte -> option (Z * Z))
        (picture_ok : list Byte.byte -> bool) (self : formatter)
        (c : content) (citations : list citation) (doc : document) :
  _add_body_with_citations image_size picture_ok self c citations doc
  = _add_body_with_citations image_size picture_ok self c
      (List.filter (in_body_range c) citations) doc.
Proof.
  unfold _add_body_with_citations. apply body_loop_ext.
  intros j Hj. rewrite !insertion_map_lookup.
  symmetry. apply cited_at_in_range. lia.
Qed.

(* ================================================================== *)
(** * Tables and figures: numbers and lookup *)
(* ================================================================== *)

Section Assets.

Variable paragraphs : list docx_paragraph.

Lemma tables_loop_spec ts : forall idx acc out,
  fst (tables_loop paragraphs idx ts acc out)
  = acc ++ map (table_of_source paragraphs) (readable_tables idx ts)
  /\ length (snd (tables_loop paragraphs idx ts acc out))
     = (length out + unreadable_tables ts)%nat.
Proof.
  induction ts as [|[rows|e] ts IH]; intros idx acc out;
    cbn [tables_loop readable_tables unreadable_tables map].
  - cbn [fst snd]. rewrite app_nil_r. auto with arith.
  - destruct (IH (idx + 1)
                 (acc ++ [Table (idx + 1) (map (map Py.strip) rows)
                                (_find_table_caption paragraphs (idx + 1))])
                 out) as [Hf Hw].
    rewrite Hf, Hw, <- app_assoc. split; reflexivity.
  - destruct (IH (idx + 1) acc
                 (out ++ [s_ "Warning: Could not extract table "
                          ++ Py.str_of_int (idx + 1) ++ s_ ": " ++ e]))
      as [Hf Hw].
    rewrite Hf, Hw, length_app. cbn [length]. split; [reflexivity|lia].
Qed.

Lemma readable_tables_index ts : forall idx,
  List.Forall (fun e => idx <= fst e) (readable_tables idx ts)
  /\ StronglySorted Z.lt (map fst (readable_tables idx ts)).
Proof.
  induction ts as [|[rows|e] ts IH]; intros idx; cbn [readable_tables map].
  - split; constructor.
  - destruct (IH (idx + 1)) as [Hge Hs]. split.
    + constructor; [cbn; lia|].
      eapply List.Forall_impl; [|exact Hge]. intros x Hx. cbv beta in *. lia.
    + constructor; [exact Hs|]. cbn [fst].
      apply List.Forall_map.
      eapply List.Forall_impl; [|exact Hge]. intros x Hx. cbv beta in *. lia.
  - destruct (IH (idx + 1)) as [Hge Hs]. split; [|exact Hs].
    eapply List.Forall_impl; [|exact Hge]. intros x Hx. cbv beta in *. lia.
Qed.

(** Looking a number up among the tables made from the readable
    entries. *)
Lemma lookup_readable_table ts : forall idx n,
  match List.filter (fun t => tab_number t =? n)
                    (map (table_of_source paragraphs)
                         (readable_tables idx ts)) with
  | t :: _ => Some t
  | [] => None
  end
  = if idx + 1 <=? n then
      match ts !! Z.to_nat (n - 1 - idx) with
      | Some (Ok rows) => Some (table_of_source paragraphs (n - 1, rows))
      | _ => None
      end
    else None.
Proof.
  induction ts as [|[rows|e] ts IH]; intros idx n;
    cbn [readable_tables map List.filter].
  - destruct (idx + 1 <=? n); reflexivity.
  - cbn [table_of_source tab_number fst snd] in *.
    destruct (Z.eqb_spec (idx + 1) n) as [<-|Hne].
    + rewrite Z.leb_refl.
      replace (idx + 1 - 1 - idx) with 0 by lia.
      cbn. replace (idx + 1 - 1) with idx by lia. reflexivity.
    + rewrite IH.
      destruct (Z.leb_spec (idx + 1 + 1) n), (Z.leb_spec (idx + 1) n);
        try lia; try reflexivity.
      replace (Z.to_nat (n - 1 - idx))
        with (S (Z.to_nat (n - 1 - (idx + 1)))) by lia.
      reflexivity.
  - rewrite IH.
    destruct (Z.leb_spec (idx + 1 + 1) n), (Z.leb_spec (idx + 1) n);
      try lia; try reflexivity.
    + replace (Z.to_nat (n - 1 - idx))
        with (S (Z.to_nat (n - 1 - (idx + 1)))) by lia.
      reflexivity.
    + replace (Z.to_nat (n - 1 - idx)) with 0%nat by lia. reflexivity.
Qed.

Lemma figures_loop_figs rels : forall figs k out,
  fst (figures_loop paragraphs rels figs k out)
  = figs ++ imap (fun i => figure_of_source paragraphs (k + 1 + Z.of_nat i))
                 (readable_images rels).
Proof.
  induction rels as [|[rel_id rel] rels IH]; intros figs k out;
    cbn [figures_loop readable_images].
  - cbn. symmetry. apply app_nil_r.
  - destruct (Py.contains (s_ "image") (target_ref rel)); [|apply IH].
    destruct (target_part_blob rel) as [data|e]; [|apply IH].
    rewrite IH, <- app_assoc. f_equal. cbn [imap app]. f_equal.
    + unfold figure_of_source. cbn [fst snd].
      replace (k + 1 + Z.of_nat 0) with (k + 1) by lia. reflexivity.
    + apply imap_ext. intros i x _. cbn. f_equal. lia.
Qed.

Lemma lookup_numbered_figure (l : list (str * list Byte.byte)) : forall k n,
  match List.filter (fun f => fig_number f =? n)
                    (imap (fun i => figure_of_source paragraphs
                                      (k + 1 + Z.of_nat i)) l) with
  | f :: _ => Some f
  | [] => None
  end
  = if k + 1 <=? n then
      option_map (figure_of_source paragraphs n)
                 (l !! Z.to_nat (n - 1 - k))
    else None.
Proof.
  induction l as [|x l IH]; intros k n; cbn [imap List.filter].
  - destruct (k + 1 <=? n); reflexivity.
  - cbn [figure_of_source fig_number].
    rewrite (imap_ext _ (fun i => figure_of_source paragraphs
                                    (k + 1 + 1 + Z.of_nat i)) l)
      by (intros i y _; cbn; f_equal; lia).
    destruct (Z.eqb_spec (k + 1 + Z.of_nat 0) n) as [<-|Hne].
    + destruct (Z.leb_spec (k + 1) (k + 1 + Z.of_nat 0)); [|lia].
      replace (Z.to_nat (k + 1 + Z.of_nat 0 - 1 - k)) with 0%nat by lia.
      reflexivity.
    + rewrite IH.
      destruct (Z.leb_spec (k + 1 + 1) n), (Z.leb_spec (k + 1) n);
        try lia; try reflexivity.
      replace (Z.to_nat (n - 1 - k))
        with (S (Z.to_nat (n - 1 - (k + 1)))) by lia.
      reflexivity.
Qed.

End Assets.

(** X6. Tables keep the number of their place in the source: entry
    number i (from 0) of [doc.tables], when it can be read, becomes the
    table numbered i + 1 with every cell text trimmed; an entry that
    cannot be read costs one warning and leaves a gap in the numbers,
    which are therefore strictly increasing. *)
Theorem tables_numbered_by_source_index
        (paragraphs : list docx_paragraph) (tables_in : list docx_table)
        (c : content) :
  let tabs := tables (fst (_extract_tables paragraphs tables_in c)) in
  let warnings := snd (_extract_tables paragraphs tables_in c) in
  tabs = map (table_of_source paragraphs) (readable_tables 0 tables_in)
  /\ StronglySorted Z.lt (map tab_number tabs)
  /\ length warnings = unreadable_tables tables_in.
Proof.
  unfold _extract_tables.
  destruct (tables_loop_spec paragraphs tables_in 0 [] []) as [Hf Hw].
  destruct (tables_loop paragraphs 0 tables_in [] []) as [tabs out].
  cbn [fst snd app length] in *. cbv zeta. subst tabs.
  repeat split; [|exact Hw].
  destruct (readable_tables_index tables_in 0) as [_ Hs].
  cbn [tables set_tables]. rewrite map_map. cbn [table_of_source tab_number].
  clear -Hs. induction (readable_tables 0 tables_in) as [|e l IH];
    [constructor|].
  cbn [map] in *. apply StronglySorted_inv in Hs as [Hs He].
  constructor; [apply IH, Hs|].
  rewrite List.Forall_map in *.
  eapply List.Forall_impl; [|exact He]. intros x Hx. cbv beta in *. lia.
Qed.

(** X7. After extraction the table a citation of number n finds is the
    one made from entry n - 1 of [doc.tables]; it finds none when that
    entry could not be read or does not exist. *)
Theorem extracted_table_lookup
        (paragraphs : list docx_paragraph) (tables_in : list docx_table)
        (c : content) (n : Z) :
  find_table (fst (_extract_tables paragraphs tables_in c)) n
  = if 1 <=? n then
      match tables_in !! Z.to_nat (n - 1) with
      | Some (Ok rows) => Some (table_of_source paragraphs (n - 1, rows))
      | _ => None
      end
    else None.
Proof.
  unfold find_table, _extract_tables.
  destruct (tables_loop_spec paragraphs tables_in 0 [] []) as [Hf _].
  destruct (tables_loop paragraphs 0 tables_in [] []) as [tabs out].
  cbn [fst snd app tables set_tables] in *. subst tabs.
  rewrite lookup_readable_table. rewrite Z.sub_0_r. reflexivity.
Qed.

(** X8. After extraction the figure a citation of number n finds is the
    one made from the n-th image that could be read, unreadable images
    not being counted; it finds none for a number below 1 or above the
    count of readable images. *)
Theorem extracted_figure_lookup
        (paragraphs : list docx_paragraph)
        (rels : list (str * relationship)) (c : content) (n : Z) :
  find_figure (fst (_extract_figures paragraphs rels c)) n
  = if 1 <=? n then
      option_map (figure_of_source paragraphs n)
                 (readable_images rels !! Z.to_nat (n - 1))
    else None.
Proof.
  unfold find_figure, _extract_figures.
  pose proof (figures_loop_figs paragraphs rels [] 0 []) as Hf.
  destruct (figures_loop paragraphs rels [] 0 []) as [figs out].
  cbn [fst snd app figures set_figures] in *. subst figs.
  rewrite lookup_numbered_figure. rewrite Z.sub_0_r. reflexivity.
Qed.

(* ================================================================== *)
(** * The grid of a placed table *)
(* ================================================================== *)

Section Grid.

Lemma map_nth_error_seq {B} (F : option str -> B) (row : list str) :
  map (fun j => F (nth_error row j)) (seq 0 (length row))
  = map (fun x => F (Some x)) row.
Proof.
  induction row as [|x row IH]; [reflexivity|].
  cbn [length seq map nth_error]. f_equal.
  rewrite <- seq_shift, map_map. exact IH.
Qed.

Lemma padded_row_full row : padded_row (length row) row = row.
Proof.
  unfold padded_row.
  rewrite (map_nth_error_seq (fun o => default [] o) row).
  cbn [default from_option]. apply map_id.
Qed.

Lemma grid_cell_text i row j :
  oc_text (grid_cell i row j) = default [] (nth_error row j).
Proof. unfold grid_cell. destruct (nth_error row j); reflexivity. Qed.

Lemma grid_row_full i row :
  map (grid_cell i row) (seq 0 (length row))
  = map (if (i =? 0)%nat then header_cell else plain_cell) row.
Proof.
  unfold grid_cell.
  rewrite (map_nth_error_seq
             (fun o => match o with
                       | Some cell_data =>
                           OutCell cell_data
                             (Font (Some FONT_NAME) (Some 10) (i =? 0)%nat
                                   false) (i =? 0)%nat
                       | None => OutCell [] plain_font false
                       end) row).
  destruct (i =? 0)%nat; reflexivity.
Qed.

(** The rows of the grid from row number [k] on. *)
Lemma grid_rows cols (data : list (list str)) : forall k,
  let cells := imap (fun i row_data =>
                       map (grid_cell (k + i) row_data) (seq 0 cols)) data in
  length cells = length data
  /\ List.Forall (fun row => length row = cols) cells
  /\ grid_texts cells = map (padded_row cols) data
  /\ (List.Forall (fun row => length row = cols) data ->
      cells = imap (fun i row =>
                      map (if (k + i =? 0)%nat then header_cell
                           else plain_cell) row) data).
Proof.
  induction data as [|row data IH]; intros k; cbv zeta.
  - repeat split; constructor.
  - cbn [imap length map grid_texts].
    rewrite (imap_ext _ (fun i row_data =>
               map (grid_cell (S k + i) row_data) (seq 0 cols)) data)
      by (intros i x _; cbn; do 2 f_equal; lia).
    destruct (IH (S k)) as (Hl & Hr & Ht & Hf). cbv zeta in Hl, Hr, Ht, Hf.
    split; [rewrite Hl; reflexivity|].
    split; [constructor; [rewrite length_map, length_seq; reflexivity|exact Hr]|].
    split.
    + fold (grid_texts (imap (fun i row_data =>
               map (grid_cell (S k + i) row_data) (seq 0 cols)) data)).
      rewrite Ht. f_equal. unfold padded_row. rewrite map_map.
      apply map_ext. intros j. apply grid_cell_text.
    + intros Hrect. apply List.Forall_cons_iff in Hrect as [Hrow Hrect].
      rewrite (Hf Hrect). f_equal.
      * rewrite <- Hrow. apply grid_row_full.
      * apply imap_ext. intros i x _. cbn.
        replace (k + S i)%nat with (S k + i)%nat by lia. reflexivity.
Qed.

End Grid.

(** X9. A found table with at least one cell, whose caption and cell
    texts can be written, is placed as spacing, caption, grid, spacing.  The grid has one row per row of the data
    and as many cells in every row as the longest row of the data; the
    cell texts are the data, short rows being filled with empty cells.
    When all rows of the data are equally long the texts of the grid
    are the data itself, every cell of the first row is bold and
    centred, and no cell of a later row is. *)
Theorem placed_table_grid
        (c : content) (cit : citation) (n : Z) (t : table) (doc : document) :
  Py.int (c_number cit) = Some n ->
  find_table c n = Some t ->
  (0 < max_row_width (tab_data t))%nat ->
  table_writable t = true ->
  let cols := max_row_width (tab_data t) in
  exists cells,
    _insert_table c cit doc
    = (Done tt,
       doc ++ [spacing; table_caption_block n t;
               BTable (s_ "Table Grid") cells; spacing])
    /\ length cells = length (tab_data t)
    /\ List.Forall (fun row => length row = cols) cells
    /\ grid_texts cells = map (padded_row cols) (tab_data t)
    /\ (List.Forall (fun row => length row = cols) (tab_data t) ->
        grid_texts cells = tab_data t
        /\ cells = imap (fun i row =>
                           map (if (i =? 0)%nat then header_cell
                                else plain_cell) row) (tab_data t)).
Proof.
  intros Hn Hf Hpos _. cbv zeta.
  exists (grid (tab_data t) (max_row_width (tab_data t))).
  destruct (grid_rows (max_row_width (tab_data t)) (tab_data t) 0)
    as (Hl & Hr & Ht & Hrect).
  cbv zeta in Hl, Hr, Ht, Hrect. fold (grid (tab_data t) (max_row_width (tab_data t))) in *.
  split; [|split; [exact Hl|split; [exact Hr|split; [exact Ht|]]]].
  - apply find_table_filter in Hf as (rest & Hf).
    unfold _insert_table, try_except, insert_table_body.
    rewrite Hn. cbn [of_option]. unfold bind at 1, ret at 1.
    rewrite Hf.
    pose proof (max_row_width_positive _ Hpos) as Hne.
    destruct (tab_data t) as [|row rows] eqn:Hd; [contradiction|].
    rewrite <- Hd in *.
    assert (Hrows : (0 <? length (tab_data t))%nat = true).
    { rewrite Hd. reflexivity. }
    rewrite Hrows. apply Nat.ltb_lt in Hpos. rewrite Hpos.
    unfold bind, emit, ret. cbn [andb].
    rewrite <- !app_assoc. reflexivity.
  - intros Hall. split.
    + etransitivity; [exact Ht|].
      transitivity (map (fun row : list str => row) (tab_data t));
        [|apply map_id].
      apply map_ext_in. intros row Hrow.
      rewrite List.Forall_forall in Hall. rewrite <- (Hall row Hrow).
      apply padded_row_full.
    + exact (Hrect Hall).
Qed.

Lemma placed_table_grid_witness :
  exists cells,
    _insert_table
      (Content [] [] [] [] [] []
               [Table 1 [[s_ "Arm"; s_ "n"]; [s_ "A"; s_ "12"]] (s_ "Arms")])
      (cite_table "1" 0) []
    = (Done tt,
       [] ++ [spacing;
              table_caption_block 1
                (Table 1 [[s_ "Arm"; s_ "n"]; [s_ "A"; s_ "12"]] (s_ "Arms"));
              BTable (s_ "Table Grid") cells; spacing])
    /\ length cells = 2%nat
    /\ List.Forall (fun row => length row = 2%nat) cells
    /\ grid_texts cells
       = map (padded_row 2) [[s_ "Arm"; s_ "n"]; [s_ "A"; s_ "12"]]
    /\ (List.Forall (fun row => length row = 2%nat)
                    [[s_ "Arm"; s_ "n"]; [s_ "A"; s_ "12"]] ->
        grid_texts cells = [[s_ "Arm"; s_ "n"]; [s_ "A"; s_ "12"]]
        /\ cells = imap (fun i row =>
                           map (if (i =? 0)%nat then header_cell
                                else plain_cell) row)
                        [[s_ "Arm"; s_ "n"]; [s_ "A"; s_ "12"]]).
Proof.
  apply (placed_table_grid
           (Content [] [] [] [] [] []
              [Table 1 [[s_ "Arm"; s_ "n"]; [s_ "A"; s_ "12"]] (s_ "Arms")])
           (cite_table "1" 0) 1
           (Table 1 [[s_ "Arm"; s_ "n"]; [s_ "A"; s_ "12"]] (s_ "Arms")) []).
  - reflexivity.
  - reflexivity.
  - cbn. lia.
  - reflexivity.
Defined.

(* ================================================================== *)
(** * What a match consumed: the numbers of the citations *)
(* ================================================================== *)

Section Reaches.

Import Re.

Lemma rep_sound cl k : forall s i x,
  rep true cl s i k = Some x ->
  exists used s', s = used ++ s'
                  /\ forallb (in_class true cl) used = true
                  /\ k s' (i + length used)%nat = Some x.
Proof.
  induction s as [|c s IH]; intros i x; cbn [rep].
  - intros H. exists [], []. cbn. rewrite Nat.add_0_r. auto.
  - destruct (in_class true cl c) eqn:Hc.
    + destruct (rep true cl s (S i) k) as [y|] eqn:Hr.
      * intros [= <-]. apply IH in Hr as (used & s' & -> & Hu & Hk).
        exists (c :: used), s'. cbn [app forallb length].
        rewrite Hc, Hu. repeat split.
        rewrite <- Hk. f_equal. lia.
      * intros H. exists [], (c :: s). cbn. rewrite Nat.add_0_r. auto.
    + intros H. exists [], (c :: s). cbn. rewrite Nat.add_0_r. auto.
Qed.

Lemma alt_sound k s i : forall ws x,
  alt true ws s i k = Some x ->
  exists w s' i', In w ws /\ word true w s i = Some (s', i')
                  /\ k s' i' = Some x.
Proof.
  induction ws as [|w ws IH]; intros x; cbn [alt]; [discriminate|].
  destruct (word true w s i) as [[s' i']|] eqn:Hw.
  - destruct (k s' i') as [y|] eqn:Hk.
    + intros [= <-]. exists w, s', i'. cbn. auto.
    + intros H. apply IH in H as (w' & s'' & i'' & Hin & Hw' & Hk').
      exists w', s'', i''. cbn. auto.
  - intros H. apply IH in H as (w' & s'' & i'' & Hin & Hw' & Hk').
    exists w', s'', i''. cbn. auto.
Qed.

(** Every result of [run] is reached by the pattern. *)
Lemma run_reaches r : forall st st',
  run true r st = Some st' -> reaches r st st'.
Proof.
  induction r as [|a r IH]; intros st st'.
  - cbn. intros [= <-]. reflexivity.
  - destruct a as [cl|cl|cl|cl| | | | |ws]; cbn [run reaches].
    + destruct (rest st) as [|c s'] eqn:Hr; [discriminate|].
      destruct (in_class true cl c) eqn:Hc; [|discriminate].
      intros H. exists c, s'. auto.
    + destruct (rest st) as [|c s'] eqn:Hr; [intros H; right; auto|].
      destruct (in_class true cl c) eqn:Hc; [|intros H; right; auto].
      destruct (run true r (advance st s')) as [m|] eqn:Hm.
      * intros [= <-]. left. exists c, s'. auto.
      * intros H. right. auto.
    + intros H. apply rep_sound in H as (used & s' & Hs & Hu & Hk).
      exists used, s'. auto.
    + destruct (rest st) as [|c s0] eqn:Hr; [discriminate|].
      destruct (in_class true cl c) eqn:Hc; [|discriminate].
      intros H. apply rep_sound in H as (used & s' & -> & Hu & Hk).
      exists (c :: used), s'. cbn [app forallb length].
      rewrite Hc, Hu. repeat split; [discriminate|].
      apply IH. rewrite <- Hk. do 2 f_equal. lia.
    + destruct (pos st =? 0)%nat eqn:Hp; [|discriminate].
      apply Nat.eqb_eq in Hp. auto.
    + destruct (at_end (rest st)); [|discriminate]. auto.
    + auto.
    + auto.
    + intros H. apply alt_sound in H as (w & s' & i' & Hin & Hw & Hk).
      exists w, s', i'. auto.
Qed.

Lemma reaches_app r1 : forall r2 st st',
  reaches (r1 ++ r2) st st' ->
  exists mid, reaches r1 st mid /\ reaches r2 mid st'.
Proof.
  induction r1 as [|a r1 IH]; intros r2 st st'.
  - cbn. intros H. exists st. auto.
  - destruct a as [cl|cl|cl|cl| | | | |ws]; cbn [app reaches].
    + intros (c & s' & Hr & Hc & H). apply IH in H as (mid & H1 & H2).
      exists mid. split; [|exact H2]. exists c, s'. auto.
    + intros [(c & s' & Hr & Hc & H)|H]; apply IH in H as (mid & H1 & H2);
        exists mid; (split; [|exact H2]).
      * left. exists c, s'. auto.
      * right. exact H1.
    + intros (u & s' & Hr & Hu & H). apply IH in H as (mid & H1 & H2).
      exists mid. split; [|exact H2]. exists u, s'. auto.
    + intros (u & s' & Hr & Hne & Hu & H). apply IH in H as (mid & H1 & H2).
      exists mid. split; [|exact H2]. exists u, s'. auto.
    + intros (Hp & H). apply IH in H as (mid & H1 & H2).
      exists mid. auto.
    + intros (Hp & H). apply IH in H as (mid & H1 & H2).
      exists mid. auto.
    + intros H. apply IH in H as (mid & H1 & H2). exists mid. auto.
    + intros H. apply IH in H as (mid & H1 & H2). exists mid. auto.
    + intros (w & s' & i' & Hin & Hw & H). apply IH in H as (mid & H1 & H2).
      exists mid. split; [|exact H2]. exists w, s', i'. auto.
Qed.

(** A match reads a stretch of the text and moves on by its length. *)
Lemma reaches_consumes r : forall st st',
  reaches r st st' ->
  exists used, rest st = used ++ rest st'
               /\ pos st' = (pos st + length used)%nat.
Proof.
  induction r as [|a r IH]; intros st st'.
  - cbn. intros ->. exists []. cbn. auto with arith.
  - destruct a as [cl|cl|cl|cl| | | | |ws]; cbn [reaches].
    + intros (c & s' & Hr & Hc & H). apply IH in H as (u & Hu & Hp).
      cbn [advance rest pos] in *. exists (c :: u). rewrite Hr, Hu.
      cbn [app length]. split; [reflexivity|lia].
    + intros [(c & s' & Hr & Hc & H)|H].
      * apply IH in H as (u & Hu & Hp).
        cbn [advance rest pos] in *. exists (c :: u). rewrite Hr, Hu.
        cbn [app length]. split; [reflexivity|lia].
      * apply IH, H.
    + intros (u0 & s' & Hr & Hu0 & H). apply IH in H as (u & Hu & Hp).
      cbn [rest pos] in *. exists (u0 ++ u). rewrite Hr, Hu, length_app.
      rewrite <- app_assoc. split; [reflexivity|lia].
    + intros (u0 & s' & Hr & Hne & Hu0 & H). apply IH in H as (u & Hu & Hp).
      cbn [rest pos] in *. exists (u0 ++ u). rewrite Hr, Hu, length_app.
      rewrite <- app_assoc. split; [reflexivity|lia].
    + intros (_ & H). apply IH, H.
    + intros (_ & H). apply IH, H.
    + intros H. apply IH in H. exact H.
    + intros H. apply IH in H. exact H.
    + intros (w & s' & i' & Hin & Hw & H). apply IH in H as (u & Hu & Hp).
      cbn [rest pos] in *.
      apply word_sound in Hw as (pre & Hs & Hl & Hi).
      assert (Hlen : length pre = length w).
      { apply (f_equal (@length ascii)) in Hl. unfold Py.lower in Hl.
        rewrite !length_map in Hl. exact Hl. }
      exists (pre ++ u). rewrite Hs, Hu, length_app, <- app_assoc.
      split; [reflexivity|lia].
Qed.

End Reaches.

Section Numbers.

Import Re.

Lemma reaches_group_free r : forall st st',
  group_free r = true -> reaches r st st' ->
  gopen st' = gopen st /\ group1 st' = group1 st.
Proof.
  induction r as [|a r IH]; intros st st' Hg.
  - cbn. intros ->. auto.
  - cbn [group_free forallb] in Hg. apply andb_true_iff in Hg as [Ha Hg].
    fold (group_free r) in Hg.
    destruct a as [cl|cl|cl|cl| | | | |ws]; try discriminate Ha;
      cbn [reaches].
    + intros (c & s' & _ & _ & H). apply (IH _ _ Hg) in H. exact H.
    + intros [(c & s' & _ & _ & H)|H]; apply (IH _ _ Hg) in H; exact H.
    + intros (u & s' & _ & _ & H). apply (IH _ _ Hg) in H. exact H.
    + intros (u & s' & _ & _ & _ & H). apply (IH _ _ Hg) in H. exact H.
    + intros (_ & H). apply (IH _ _ Hg) in H. exact H.
    + intros (_ & H). apply (IH _ _ Hg) in H. exact H.
    + intros (w & s' & i' & _ & _ & H). apply (IH _ _ Hg) in H. exact H.
Qed.

Lemma skipn_add {A} (l : list A) : forall i j,
  skipn (i + j) l = skipn j (skipn i l).
Proof.
  induction l as [|x l IH]; intros i j.
  - rewrite !skipn_nil. reflexivity.
  - destruct i; [reflexivity|]. cbn. apply IH.
Qed.

(** The text of group 1 after a match of a pattern whose group encloses
    [num]: it is what [num] consumed. *)
Lemma captured_by_group pre num post text i st' :
  group_free pre = true -> group_free num = true -> group_free post = true ->
  reaches (pre ++ GOpen :: num ++ GClose :: post) (state_at text i) st' ->
  exists a b m2 m3,
    group1 st' = Some (a, b)
    /\ reaches num m2 m3
    /\ rest m2 = substr text a b ++ rest m3.
Proof.
  intros Hpre Hnum Hpost H.
  apply reaches_app in H as (m1 & H1 & H). cbn [reaches] in H.
  apply reaches_app in H as (m3 & H2 & H). cbn [reaches] in H.
  destruct (reaches_group_free _ _ _ Hnum H2) as [Hgo _].
  cbn [gopen] in Hgo. rewrite Hgo in H.
  destruct (reaches_group_free _ _ _ Hpost H) as [_ Hg1].
  cbn [group1] in Hg1.
  destruct (reaches_consumes _ _ _ H1) as (u1 & Hu1 & Hp1).
  destruct (reaches_consumes _ _ _ H2) as (u2 & Hu2 & Hp2).
  cbn [rest pos state_at] in Hu1, Hp1, Hu2, Hp2.
  exists (pos m1), (pos m3),
    (MState (rest m1) (pos m1) (Some (pos m1)) (group1 m1)), m3.
  split; [exact Hg1|]. split; [exact H2|].
  cbn [rest]. rewrite Hu2 at 1. f_equal.
  unfold substr. rewrite Hp2, Hp1.
  replace (i + length u1 + length u2 - (i + length u1))%nat
    with (length u2) by lia.
  rewrite skipn_add, Hu1, drop_app_length, Hu2, take_app_length.
  reflexivity.
Qed.

Lemma digit_class c :
  in_class true (CSet [CDigit]) c = Py.is_digit c.
Proof. cbn. apply orb_false_r. Qed.

Lemma panel_class c :
  in_class true (CSet [CRange "A" "Z"]) c = Py.is_upper c || Py.is_lower c.
Proof.
  destruct c as [[] [] [] [] [] [] [] []]; reflexivity.
Qed.

Lemma forallb_digit_class u :
  forallb (in_class true (CSet [CDigit])) u = forallb Py.is_digit u.
Proof.
  induction u as [|c u IH]; [reflexivity|]. cbn [forallb].
  rewrite digit_class, IH. reflexivity.
Qed.

Lemma reaches_digits m2 m3 :
  reaches [digits1] m2 m3 ->
  exists ds, digit_string ds /\ rest m2 = ds ++ rest m3.
Proof.
  unfold digits1. cbn [reaches].
  intros (u & s' & Hr & Hne & Hu & ->). cbn [rest].
  exists u. rewrite forallb_digit_class in Hu. repeat split; assumption.
Qed.

Lemma reaches_digits_panel m2 m3 :
  reaches [digits1; panel_opt] m2 m3 ->
  exists ds suffix,
    digit_string ds /\ panel_suffix suffix
    /\ rest m2 = (ds ++ suffix) ++ rest m3.
Proof.
  unfold digits1, panel_opt. cbn [reaches].
  intros (u & s' & Hr & Hne & Hu & H). rewrite forallb_digit_class in Hu.
  cbn [rest advance] in H. destruct H as [(c & s'' & Hs & Hc & ->)| ->].
  - exists u, [c]. cbn [rest advance]. rewrite panel_class in Hc.
    split; [split; assumption|]. split; [right; eauto|].
    rewrite Hr, Hs, <- app_assoc. reflexivity.
  - exists u, []. cbn [rest]. split; [split; assumption|].
    split; [left; reflexivity|]. rewrite app_nil_r. exact Hr.
Qed.

(** Every match [finditer] yields is a match at some index of the
    text. *)
Lemma skipn_step text : forall i (c : ascii) s,
  skipn i text = c :: s -> skipn (S i) text = s.
Proof.
  induction text as [|x text IH]; intros i c s.
  - rewrite skipn_nil. discriminate.
  - destruct i; cbn [skipn].
    + intros [= _ ->]. reflexivity.
    + apply IH.
Qed.

Lemma scan_matches r text : forall s i next m,
  s = skipn i text ->
  In m (scan true r s i next) ->
  exists j, match_at true r (skipn j text) j = Some m.
Proof.
  induction s as [|c s IH]; intros i next m Hs; cbn [scan].
  - destruct (i <? next)%nat; [intros []|].
    destruct (match_at true r [] i) as [m'|] eqn:Hm; [|intros []].
    intros [<-|[]]. exists i. rewrite <- Hs. exact Hm.
  - assert (Hs' : s = skipn (S i) text).
    { symmetry. eapply skipn_step. symmetry. exact Hs. }
    destruct (i <? next)%nat; [apply IH, Hs'|].
    destruct (match_at true r (c :: s) i) as [m'|] eqn:Hm;
      [|apply IH, Hs'].
    intros [<-|H]; [|eapply IH; eassumption].
    exists i. rewrite <- Hs. exact Hm.
Qed.

Lemma match_at_reaches r text j m :
  match_at true r (skipn j text) j = Some m ->
  exists st', reaches r (state_at text j) st'
              /\ m_group1 m = group1 st'.
Proof.
  unfold match_at, state_at.
  destruct (run true r _) as [st'|] eqn:Hr; [|discriminate].
  intros [= <-]. exists st'. split; [apply run_reaches, Hr|reflexivity].
Qed.

(** The number of a citation made from a match of a pattern whose group
    encloses [num]. *)
Lemma group_1_of_match pre num post text j m :
  group_free pre = true -> group_free num = true -> group_free post = true ->
  match_at true (pre ++ GOpen :: num ++ GClose :: post) (skipn j text) j
  = Some m ->
  exists m2 m3, reaches num m2 m3
                /\ rest m2 = group_1 text m ++ rest m3.
Proof.
  intros Hpre Hnum Hpost Hm.
  apply match_at_reaches in Hm as (st' & Hr & Hg).
  apply captured_by_group in Hr as (a & b & m2 & m3 & Hg1 & Hn & Hrest);
    try assumption.
  exists m2, m3. split; [exact Hn|].
  unfold group_1. rewrite Hg, Hg1. exact Hrest.
Qed.

Lemma figure_patterns_shape :
  List.Forall
    (fun p => exists pre post,
       p = pre ++ GOpen :: [digits1; panel_opt] ++ GClose :: post
       /\ group_free pre = true /\ group_free post = true)
    figure_patterns.
Proof.
  unfold figure_patterns. repeat constructor.
  - exists ([lit "("; spaces0] ++ star_opt ++ lits "Fig" ++ [dot_opt; spaces1]),
      [spaces0; lit ")"]. repeat split.
  - exists (star_opt ++ lits "Figure" ++ [spaces1]), star_opt. repeat split.
  - exists ([lit "("; spaces0] ++ star_opt ++ lits "Figure" ++ [spaces1]),
      [spaces0; lit ")"]. repeat split.
Qed.

Lemma table_patterns_shape :
  List.Forall
    (fun p => exists pre post,
       p = pre ++ GOpen :: [digits1] ++ GClose :: post
       /\ group_free pre = true /\ group_free post = true)
    table_patterns.
Proof.
  unfold table_patterns. repeat constructor.
  - exists ([lit "("; spaces0] ++ star_opt ++ lits "Tab" ++ [dot_opt; spaces1]),
      [spaces0; lit ")"]. repeat split.
  - exists (star_opt ++ lits "Table" ++ [spaces1]), star_opt. repeat split.
  - exists ([lit "("; spaces0] ++ star_opt ++ lits "Table" ++ [spaces1]),
      [spaces0; lit ")"]. repeat split.
Qed.

Lemma citations_of_match k patterns idx text cit :
  In cit (citations_of k patterns idx text) ->
  c_type cit = k
  /\ exists p m j, In p patterns
                   /\ match_at true p (skipn j text) j = Some m
                   /\ c_number cit = group_1 text m.
Proof.
  unfold citations_of. intros H. apply in_flat_map in H as (p & Hp & H).
  apply in_map_iff in H as (m & <- & Hm). split; [reflexivity|].
  unfold finditer in Hm.
  apply (scan_matches p text text 0 0 m eq_refl) in Hm as (j & Hj).
  exists p, m, j. auto.
Qed.

Lemma table_number_digits idx text cit :
  In cit (citations_of KTable table_patterns idx text) ->
  digit_string (c_number cit).
Proof.
  intros H. apply citations_of_match in H as (_ & p & m & j & Hp & Hm & ->).
  pose proof table_patterns_shape as Hshape.
  rewrite List.Forall_forall in Hshape.
  destruct (Hshape p Hp) as (pre & post & -> & Hpre & Hpost).
  apply group_1_of_match in Hm as (m2 & m3 & Hn & Hrest);
    [|assumption|reflexivity|assumption].
  apply reaches_digits in Hn as (ds & Hds & Hr).
  rewrite Hr in Hrest. apply app_inv_tail in Hrest. subst ds. exact Hds.
Qed.

Lemma figure_number_panel idx text cit :
  In cit (citations_of KFigure figure_patterns idx text) ->
  figure_number_shape (c_number cit).
Proof.
  intros H. apply citations_of_match in H as (_ & p & m & j & Hp & Hm & ->).
  pose proof figure_patterns_shape as Hshape.
  rewrite List.Forall_forall in Hshape.
  destruct (Hshape p Hp) as (pre & post & -> & Hpre & Hpost).
  apply group_1_of_match in Hm as (m2 & m3 & Hn & Hrest);
    [|assumption|reflexivity|assumption].
  apply reaches_digits_panel in Hn as (ds & suffix & Hds & Hsuf & Hr).
  rewrite Hr in Hrest. apply app_inv_tail in Hrest.
  exists ds, suffix. auto.
Qed.

Lemma collected_numbers paras : forall idx cit,
  In cit (collect_citations idx paras) ->
  match c_type cit with
  | KFigure => figure_number_shape (c_number cit)
  | KTable => digit_string (c_number cit)
  end.
Proof.
  induction paras as [|p paras IH]; intros idx cit; cbn [collect_citations].
  - intros [].
  - intros H. apply in_app_or in H as [H|H];
      [|apply in_app_or in H as [H|H]].
    + pose proof (citations_of_match _ _ _ _ _ H) as [-> _].
      eapply figure_number_panel, H.
    + pose proof (citations_of_match _ _ _ _ _ H) as [-> _].
      eapply table_number_digits, H.
    + eapply IH, H.
Qed.

End Numbers.

Section IntOfNumber.

Lemma digit_char c :
  Py.is_digit c = true ->
  Py.is_space c = false /\ Py.is_upper c = false
  /\ Ascii.eqb c "-" = false /\ Ascii.eqb c "+" = false
  /\ 0 <= Py.digit_val c.
Proof.
  destruct c as [[] [] [] [] [] [] [] []]; intros H;
    try discriminate H; repeat split; discriminate.
Qed.

Lemma lower_char_facts c :
  Py.is_lower c = true ->
  Py.is_space c = false /\ Py.is_upper c = false /\ Py.is_digit c = false
  /\ Ascii.eqb c "_" = false.
Proof.
  destruct c as [[] [] [] [] [] [] [] []]; intros H;
    try discriminate H; repeat split.
Qed.

Lemma lstrip_all_text s :
  List.Forall (fun c => Py.is_space c = false) s -> Py.lstrip s = s.
Proof. intros [|c s' Hc _]; [reflexivity|]. cbn. rewrite Hc. reflexivity. Qed.

Lemma strip_all_text s :
  List.Forall (fun c => Py.is_space c = false) s -> Py.strip s = s.
Proof.
  intros H. unfold Py.strip, Py.rstrip. rewrite (lstrip_all_text s H).
  rewrite lstrip_all_text by (apply List.Forall_rev, H).
  apply rev_involutive.
Qed.

Lemma digits_Forall ds :
  forallb Py.is_digit ds = true ->
  List.Forall (fun c => Py.is_digit c = true) ds.
Proof.
  intros H. apply List.Forall_forall. intros c Hc.
  rewrite forallb_forall in H. apply H, Hc.
Qed.

Lemma int_digits_all ds : forall acc b,
  List.Forall (fun c => Py.is_digit c = true) ds ->
  ds <> [] \/ b = true -> 0 <= acc ->
  exists n, Py.int_digits acc b ds = Some n /\ 0 <= n.
Proof.
  induction ds as [|c ds IH]; intros acc b Hd Hne Hacc; cbn [Py.int_digits].
  - destruct Hne as [Hne| ->]; [contradiction|]. eauto.
  - apply List.Forall_cons_iff in Hd as [Hc Hd]. rewrite Hc.
    apply IH; [exact Hd|right; reflexivity|].
    destruct (digit_char c Hc) as (_ & _ & _ & _ & Hv). lia.
Qed.

Lemma int_digits_stops ds x rest : forall acc b,
  List.Forall (fun c => Py.is_digit c = true) ds ->
  Py.is_digit x = false -> Ascii.eqb x "_" = false ->
  Py.int_digits acc b (ds ++ x :: rest) = None.
Proof.
  induction ds as [|c ds IH]; intros acc b Hd Hx Hu;
    cbn [app Py.int_digits].
  - rewrite Hx, Hu. reflexivity.
  - apply List.Forall_cons_iff in Hd as [Hc Hd]. rewrite Hc.
    apply IH; assumption.
Qed.

Lemma digit_count_digits ds :
  List.Forall (fun c => Py.is_digit c = true) ds ->
  Py.digit_count ds = length ds.
Proof.
  unfold Py.digit_count. induction 1 as [|c ds Hc _ IH]; [reflexivity|].
  cbn [List.filter]. rewrite Hc. cbn [length]. f_equal. exact IH.
Qed.

(** [int] of a string of digits that is not longer than the limit. *)
Lemma int_of_digits ds :
  digit_string ds -> Z.of_nat (length ds) <= Py.max_str_digits ->
  exists n, Py.int ds = Some n /\ 0 <= n.
Proof.
  intros [Hne Hd] Hlen. apply digits_Forall in Hd. unfold Py.int.
  rewrite strip_all_text.
  2:{ eapply List.Forall_impl; [|exact Hd]. intros c Hc.
      apply digit_char, Hc. }
  destruct ds as [|c ds]; [contradiction|].
  pose proof (List.Forall_inv Hd) as Hc.
  destruct (digit_char c Hc) as (_ & _ & -> & -> & _).
  unfold Py.int_body. rewrite (digit_count_digits _ Hd).
  destruct (Z.leb_spec (Z.of_nat (length (c :: ds))) Py.max_str_digits);
    [|lia].
  apply int_digits_all; [exact Hd|left; discriminate|lia].
Qed.

(** [int] of digits followed by a small letter raises. *)
Lemma int_of_digits_letter ds x :
  digit_string ds -> Py.is_lower x = true -> Py.int (ds ++ [x]) = None.
Proof.
  intros [Hne Hd] Hx. apply digits_Forall in Hd.
  destruct (lower_char_facts x Hx) as (Hsp & _ & Hdig & Hus).
  unfold Py.int. rewrite strip_all_text.
  2:{ apply List.Forall_app. split.
      - eapply List.Forall_impl; [|exact Hd]. intros c Hc.
        apply digit_char, Hc.
      - constructor; [exact Hsp|constructor]. }
  destruct ds as [|c ds]; [contradiction|]. cbn [app].
  pose proof (List.Forall_inv Hd) as Hc.
  destruct (digit_char c Hc) as (_ & _ & -> & -> & _).
  unfold Py.int_body. destruct (_ <=? _); [|reflexivity].
  apply (int_digits_stops (c :: ds) x []); assumption.
Qed.

Lemma rstrip_upper_digits ds :
  digit_string ds -> Py.rstrip_chars Py.is_upper ds = ds.
Proof.
  intros [Hne Hd]. apply digits_Forall in Hd. unfold Py.rstrip_chars.
  apply List.Forall_rev in Hd.
  destruct (rev ds) as [|c r] eqn:Hr.
  - apply (f_equal (@rev ascii)) in Hr. rewrite rev_involutive in Hr.
    contradiction.
  - cbn [Py.drop_while]. pose proof (List.Forall_inv Hd) as Hc.
    destruct (digit_char c Hc) as (_ & -> & _).
    rewrite <- Hr. apply rev_involutive.
Qed.

Lemma rstrip_upper_panel ds x :
  digit_string ds -> Py.is_upper x = true ->
  Py.rstrip_chars Py.is_upper (ds ++ [x]) = ds.
Proof.
  intros Hds Hx. pose proof (rstrip_upper_digits ds Hds) as H.
  unfold Py.rstrip_chars in *. rewrite rev_app_distr. cbn [rev app].
  cbn [Py.drop_while]. rewrite Hx. exact H.
Qed.

Lemma rstrip_upper_lower ds x :
  Py.is_upper x = false ->
  Py.rstrip_chars Py.is_upper (ds ++ [x]) = ds ++ [x].
Proof.
  intros Hx. unfold Py.rstrip_chars. rewrite rev_app_distr. cbn [rev app].
  cbn [Py.drop_while]. rewrite Hx.
  change (x :: rev ds) with (rev [x] ++ rev ds).
  rewrite <- rev_app_distr. apply rev_involutive.
Qed.

End IntOfNumber.

(** X10. The number of every detected table citation is a string of
    digits.  When it has no more digits than [int] converts, [int]
    accepts it, with a value that is not negative, and for a content
    whose table texts can be written the [try] body of [_insert_table]
    does not raise: the "[Table N - insertion failed]" branch is not
    entered for such a citation. *)
Theorem detected_table_number_parses (c : content) (cit : citation) :
  In cit (detect_citations c) ->
  c_type cit = KTable ->
  digit_string (c_number cit)
  /\ (Z.of_nat (length (c_number cit)) <= Py.max_str_digits ->
      (exists n, Py.int (c_number cit) = Some n /\ 0 <= n)
      /\ forall c' doc,
           forallb table_writable (tables c') = true ->
           exists doc', insert_table_body c' cit doc = (Done tt, doc')
                        /\ _insert_table c' cit doc = (Done tt, doc')).
Proof.
  intros Hin Hk. apply detect_citations_In, collected_numbers in Hin.
  rewrite Hk in Hin. split; [exact Hin|]. intros Hlen.
  destruct (int_of_digits _ Hin Hlen) as (n & Hn & Hpos).
  split; [eauto|]. intros c' doc _.
  assert (H : exists doc', insert_table_body c' cit doc = (Done tt, doc')).
  { unfold insert_table_body. rewrite Hn. cbn [of_option].
    unfold bind at 1, ret at 1.
    destruct (List.filter _ (tables c')) as [|t _]; [unfold ret; eauto|].
    destruct (tab_data t) as [|row rows]; [unfold ret; eauto|].
    unfold bind, emit, ret.
    destruct (_ && _); eauto. }
  destruct H as (doc' & H). exists doc'. split; [exact H|].
  unfold _insert_table, try_except. rewrite H. reflexivity.
Qed.

Lemma detected_table_number_parses_witness :
  digit_string (s_ "12")
  /\ (Z.of_nat (length (s_ "12")) <= Py.max_str_digits ->
      (exists n, Py.int (s_ "12") = Some n /\ 0 <= n)
      /\ forall c' doc,
           forallb table_writable (tables c') = true ->
           exists doc',
             insert_table_body c'
               (Citation KTable (s_ "12") 0 (s_ "as Table 12 shows")
                         (s_ "Table 12")) doc
             = (Done tt, doc')
             /\ _insert_table c'
                  (Citation KTable (s_ "12") 0 (s_ "as Table 12 shows")
                            (s_ "Table 12")) doc
                = (Done tt, doc')).
Proof.
  apply (detected_table_number_parses
           (Content [] [] [] [normal_paragraph "as Table 12 shows"] [] [] [])
           (Citation KTable (s_ "12") 0 (s_ "as Table 12 shows")
                     (s_ "Table 12"))).
  - vm_compute. left. reflexivity.
  - reflexivity.
Defined.

(** X11. The number of every detected figure citation is a string of
    digits followed by at most one letter, capital or small.  With a
    small letter, looking the figure number up raises.  When the
    digits are no more than [int] converts, it raises only then, and
    without a letter or with a capital one the number is the value of
    the digits. *)
Theorem detected_figure_number_shape (c : content) (cit : citation) :
  In cit (detect_citations c) ->
  c_type cit = KFigure ->
  exists ds suffix,
    c_number cit = ds ++ suffix
    /\ digit_string ds
    /\ panel_suffix suffix
    /\ (forall x, suffix = [x] -> Py.is_lower x = true ->
        figure_number_of cit = None)
    /\ (Z.of_nat (length ds) <= Py.max_str_digits ->
        (figure_number_of cit = None
         <-> exists x, suffix = [x] /\ Py.is_lower x = true)
        /\ ((forall x, suffix = [x] -> Py.is_upper x = true) ->
            figure_number_of cit = Py.int ds
            /\ exists n, Py.int ds = Some n /\ 0 <= n)).
Proof.
  intros Hin Hk. apply detect_citations_In, collected_numbers in Hin.
  rewrite Hk in Hin. destruct Hin as (ds & suffix & Hnum & Hds & Hsuf).
  exists ds, suffix. split; [exact Hnum|]. split; [exact Hds|].
  split; [exact Hsuf|].
  unfold figure_number_of. rewrite Hnum.
  destruct Hsuf as [->|(x & -> & Hx)].
  - rewrite app_nil_r, (rstrip_upper_digits ds Hds). split.
    + intros x Heq. discriminate Heq.
    + intros Hlen. destruct (int_of_digits ds Hds Hlen) as (n & Hn & Hpos).
      rewrite Hn. split.
      * split; [discriminate|]. intros (x & Hx & _). discriminate.
      * intros _. eauto.
  - destruct (Py.is_upper x) eqn:Hu.
    + rewrite (rstrip_upper_panel ds x Hds Hu). split.
      * intros y Heq Hy. injection Heq as Heq. subst y.
        destruct (lower_char_facts x Hy) as (_ & Hu' & _). congruence.
      * intros Hlen.
        destruct (int_of_digits ds Hds Hlen) as (n & Hn & Hpos).
        rewrite Hn. split.
        -- split; [discriminate|]. intros (y & Heq & Hy).
           injection Heq as Heq. subst y.
           destruct (lower_char_facts x Hy) as (_ & Hu' & _). congruence.
        -- intros _. eauto.
    + cbn [orb] in Hx.
      rewrite (rstrip_upper_lower ds x Hu), (int_of_digits_letter ds x Hds Hx).
      split.
      * intros; reflexivity.
      * intros _. split.
        -- split; [eauto|reflexivity].
        -- intros Hall. specialize (Hall x eq_refl). congruence.
Qed.

Lemma detected_figure_number_shape_witness :
  exists ds suffix,
    s_ "3a" = ds ++ suffix
    /\ digit_string ds
    /\ panel_suffix suffix
    /\ (forall x, suffix = [x] -> Py.is_lower x = true ->
        figure_number_of
          (Citation KFigure (s_ "3a") 0 (s_ "Results are in Figure 3a.")
                    (s_ "Figure 3a")) = None)
    /\ (Z.of_nat (length ds) <= Py.max_str_digits ->
        (figure_number_of
           (Citation KFigure (s_ "3a") 0 (s_ "Results are in Figure 3a.")
                     (s_ "Figure 3a")) = None
         <-> exists x, suffix = [x] /\ Py.is_lower x = true)
        /\ ((forall x, suffix = [x] -> Py.is_upper x = true) ->
            figure_number_of
              (Citation KFigure (s_ "3a") 0 (s_ "Results are in Figure 3a.")
                        (s_ "Figure 3a")) = Py.int ds
            /\ exists n, Py.int ds = Some n /\ 0 <= n)).
Proof.
  apply (detected_figure_number_shape lowercase_panel
           (Citation KFigure (s_ "3a") 0 (s_ "Results are in Figure 3a.")
                     (s_ "Figure 3a"))).
  - vm_compute. left. reflexivity.
  - reflexivity.
Defined.

(* ================================================================== *)
(** * The patterns of the section headings *)
(* ================================================================== *)

Section Headings.

Import Re.

Lemma accepted_word w : forall s i,
  Py.lower w = w ->
  accepted (word true w s i) = starts_with_ci w s.
Proof.
  unfold starts_with_ci.
  induction w as [|a w IH]; intros s i Hw; [reflexivity|].
  cbn [Py.lower map] in Hw. injection Hw as Ha Hw.
  destruct s as [|c s]; [reflexivity|].
  cbn [word Py.lower map Py.strip_prefix]. unfold char_eq. rewrite Ha.
  rewrite Ascii.eqb_sym.
  destruct (Ascii.eqb (Py.lower_char c) a) eqn:E.
  - apply IH, Hw.
  - reflexivity.
Qed.

(** A pattern [^(w1|w2|...)] tests for one of the words at the start. *)
Lemma starts_pattern ws t :
  List.Forall (fun w => Py.lower w = w) ws ->
  matches [Bol; GOpen; AltLit ws; GClose] t
  = existsb (fun w => starts_with_ci w t) ws.
Proof.
  intros Hws. unfold matches, rematch, match_at.
  rewrite run_Bol. cbn [pos Nat.eqb]. rewrite run_GOpen, run_AltLit.
  cbn [rest pos gopen group1].
  transitivity
    (accepted (alt true ws t 0
       (fun s i => run true [GClose] (MState s i (Some 0%nat) None)))).
  { destruct (alt true ws t 0 _); reflexivity. }
  rewrite accepted_alt.
  induction Hws as [|w ws Hw _ IH]; [reflexivity|].
  cbn [existsb]. rewrite IH. f_equal.
  rewrite <- (accepted_word w t 0 Hw).
  destruct (word true w t 0) as [[s' i']|]; reflexivity.
Qed.

Lemma body_start_re_spec t : matches body_start_re t = starts_body t.
Proof.
  unfold body_start_re. rewrite starts_pattern by (repeat constructor).
  cbn [existsb]. unfold starts_body. rewrite orb_false_r, orb_assoc.
  reflexivity.
Qed.

Lemma figure_or_table_re_spec t :
  matches figure_or_table_re t = starts_legend t.
Proof.
  unfold figure_or_table_re. rewrite starts_pattern by (repeat constructor).
  cbn [existsb]. unfold starts_legend. rewrite orb_false_r. reflexivity.
Qed.

Lemma accepted_opt cl r st :
  accepted (run true (Opt cl :: r) st)
  = match rest st with
    | c :: s' => in_class true cl c && accepted (run true r (advance st s'))
    | [] => false
    end
    || accepted (run true r st).
Proof.
  cbn [run]. destruct (rest st) as [|c s']; [reflexivity|].
  destruct (in_class true cl c); [|reflexivity].
  cbn [andb]. destruct (run true r (advance st s')); reflexivity.
Qed.

Lemma word_snoc w a : forall s i,
  word true (w ++ [a]) s i
  = match word true w s i with
    | Some (c :: s', i') =>
        if char_eq true a c then Some (s', S i') else None
    | _ => None
    end.
Proof.
  induction w as [|b w IH]; intros s i; cbn [app word].
  - destruct s as [|c s]; [reflexivity|].
    destruct (char_eq true a c); reflexivity.
  - destruct s as [|c s]; [reflexivity|].
    destruct (char_eq true b c); [apply IH|reflexivity].
Qed.

(** [^references?:?$] on a stripped line. *)
Lemma references_re_spec t :
  no_final_newline t ->
  matches references_re t = is_references_heading t.
Proof.
  intros Hnl. unfold matches, rematch, match_at, references_re.
  rewrite run_Bol. cbn [pos Nat.eqb]. unfold lits. rewrite run_lits.
  cbn [rest pos gopen group1]. unfold is_references_heading.
  rewrite <- (word_line (s_ "references") t 0 None None eq_refl Hnl).
  rewrite <- (word_line (s_ "reference") t 0 None None eq_refl Hnl).
  change (s_ "references") with (s_ "reference" ++ ["s"%char]).
  rewrite word_snoc.
  change (list_ascii_of_string "reference") with (s_ "reference").
  destruct (word true (s_ "reference") t 0) as [[s' i']|]; [|reflexivity].
  transitivity
    (accepted (run true [Opt (CSet [CLit "s"]); Opt (CSet [CLit ":"]); Eol]
                   (MState s' i' None None))).
  { destruct (run true _ _); reflexivity. }
  rewrite accepted_opt. cbn [rest]. f_equal.
  destruct s' as [|c s']; [reflexivity|].
  rewrite in_class_lit. destruct (char_eq true "s" c); reflexivity.
Qed.

(** [re.search] of [author|affiliation]. *)
Lemma author_re_spec t : found true author_re t = mentions_author t.
Proof.
  unfold found, mentions_author, mentions_ci.
  change (match search_from true author_re t 0 with
          | Some _ => true | None => false end)
    with (accepted (search_from true author_re t 0)).
  generalize 0%nat. induction t as [|c t IH]; intros i.
  - reflexivity.
  - cbn [search_from].
    assert (Hhere : accepted (match_at true author_re (c :: t) i)
                    = starts_with_ci (s_ "author") (c :: t)
                      || starts_with_ci (s_ "affiliation") (c :: t)).
    { unfold match_at, author_re. rewrite run_AltLit.
      cbn [rest pos gopen group1].
      transitivity
        (accepted (alt true [s_ "author"; s_ "affiliation"] (c :: t) i
           (fun s j => run true [] (MState s j None None)))).
      { destruct (alt true _ (c :: t) i _); reflexivity. }
      rewrite accepted_alt. cbn [existsb]. rewrite orb_false_r.
      rewrite <- !(fun w H => accepted_word w (c :: t) i H) by reflexivity.
      f_equal; destruct (word true _ (c :: t) i) as [[s' j]|]; reflexivity. }
    destruct (match_at true author_re (c :: t) i) as [m|] eqn:Hm.
    + cbn [accepted] in *. symmetry.
      unfold starts_with_ci in Hhere. cbn [Py.lower map] in *.
      symmetry in Hhere. apply orb_true_iff in Hhere as [H|H].
      * apply orb_true_iff. left. cbn [Py.contains].
        destruct (Py.strip_prefix (s_ "author") _); [reflexivity|discriminate].
      * apply orb_true_iff. right. cbn [Py.contains].
        destruct (Py.strip_prefix (s_ "affiliation") _);
          [reflexivity|discriminate].
    + rewrite IH. cbn [accepted] in Hhere.
      unfold starts_with_ci in Hhere. cbn [Py.lower map] in *.
      symmetry in Hhere. apply orb_false_iff in Hhere as [H1 H2].
      cbn [Py.contains].
      destruct (Py.strip_prefix (s_ "author") _); [discriminate|].
      destruct (Py.strip_prefix (s_ "affiliation") _); [discriminate|].
      reflexivity.
Qed.

End Headings.

(* ================================================================== *)
(** * Sections of the source: body, references, authors, title *)
(* ================================================================== *)

Section Sections.

Lemma stripped_references p :
  matches references_re (Py.strip (para_text p))
  = is_references_heading (stripped_text p).
Proof. apply references_re_spec, strip_no_final_newline. Qed.

Lemma extract_all_fields doc :
  let c := fst (extract_all_content doc) in
  let ps := doc_paragraphs doc in
  abstract c = Py.join (s_ " ") (abstract_loop ps false [])
  /\ authors c = authors_loop (firstn 30 ps) false []
  /\ references c = references_loop ps false [].
Proof.
  cbv zeta. unfold extract_all_content, _extract_figures, _extract_tables.
  destruct (figures_loop _ _ _ _ _) as [figs out1].
  destruct (tables_loop _ _ _ _ _) as [tabs out2].
  repeat split.
Qed.

(** Before the first line that starts the body nothing is kept. *)
Lemma extract_body_before pre rest acc :
  List.Forall (fun p => starts_body (stripped_text p) = false) pre ->
  extract_body_loop (pre ++ rest) false acc
  = extract_body_loop rest false acc.
Proof.
  induction 1 as [|p pre Hp _ IH]; [reflexivity|].
  cbn [app extract_body_loop]. cbv zeta.
  rewrite body_start_re_spec. fold (stripped_text p). rewrite Hp.
  cbn [orb andb]. destruct (skipped (stripped_text p)); exact IH.
Qed.

(** Once the body has started. *)
Lemma extract_body_inside ps : forall acc,
  extract_body_loop ps true acc
  = acc ++ map body_paragraph_of
             (List.filter body_line
                (upto (fun p => is_references_heading (stripped_text p)) ps)).
Proof.
  induction ps as [|p ps IH]; intros acc.
  - cbn. symmetry. apply app_nil_r.
  - cbn [extract_body_loop upto]. cbv zeta. cbn [orb andb].
    rewrite stripped_references. fold (stripped_text p).
    destruct (is_references_heading (stripped_text p)).
    + cbn. symmetry. apply app_nil_r.
    + cbn [List.filter]. unfold body_line at 1.
      destruct (skipped (stripped_text p)); cbn [negb andb]; [apply IH|].
      destruct (nonempty (stripped_text p)); [|apply IH].
      rewrite IH, <- app_assoc. reflexivity.
Qed.

Lemma extract_body_start h post acc :
  starts_body (stripped_text h) = true ->
  extract_body_loop (h :: post) false acc
  = extract_body_loop (h :: post) true acc.
Proof.
  intros Hh. cbn [extract_body_loop]. cbv zeta.
  rewrite body_start_re_spec. fold (stripped_text h). rewrite Hh.
  reflexivity.
Qed.

Lemma references_heading_no_legend t :
  is_references_heading t = true -> starts_legend t = false.
Proof.
  unfold is_references_heading, ci_line, starts_legend, starts_with_ci.
  rewrite !orb_true_iff, !bool_decide_eq_true.
  intros [[H|H]|[H|H]]; rewrite H; reflexivity.
Qed.

Lemma references_before pre rest acc :
  List.Forall (fun p => is_references_heading (stripped_text p) = false) pre ->
  references_loop (pre ++ rest) false acc = references_loop rest false acc.
Proof.
  induction 1 as [|p pre Hp _ IH]; [reflexivity|].
  cbn [app references_loop]. cbv zeta.
  rewrite stripped_references, Hp. exact IH.
Qed.

Lemma references_inside post : forall acc,
  references_loop post true acc
  = acc ++ List.filter
             (fun t => nonempty t && negb (is_references_heading t))
             (upto starts_legend (map stripped_text post)).
Proof.
  induction post as [|p post IH]; intros acc.
  - cbn. symmetry. apply app_nil_r.
  - cbn [references_loop map upto]. cbv zeta.
    rewrite stripped_references, figure_or_table_re_spec.
    fold (stripped_text p).
    destruct (is_references_heading (stripped_text p)) eqn:Hh.
    + rewrite (references_heading_no_legend _ Hh).
      cbn [List.filter]. rewrite Hh, andb_false_r. apply IH.
    + cbn [andb]. destruct (starts_legend (stripped_text p)).
      * cbn. symmetry. apply app_nil_r.
      * cbn [List.filter]. rewrite Hh, andb_true_r.
        destruct (nonempty (stripped_text p)); [|apply IH].
        rewrite IH, <- app_assoc. reflexivity.
Qed.

Lemma authors_loop_closed ps acc :
  List.Forall (fun p => mentions_author (stripped_text p) = false) ps ->
  authors_loop ps false acc = acc.
Proof.
  induction 1 as [|p ps Hp _ IH]; [reflexivity|].
  cbn [authors_loop]. cbv zeta.
  rewrite author_re_spec. fold (stripped_text p). rewrite Hp. exact IH.
Qed.

(** Where an extracted author line comes from. *)
Lemma authors_loop_origin ps : forall sec acc a,
  In a (authors_loop ps sec acc) ->
  In a acc
  \/ exists l1 p l2,
       ps = l1 ++ p :: l2
       /\ a = stripped_text p
       /\ mentions_author a = false
       /\ author_line a = true
       /\ (sec = true
           \/ List.Exists
                (fun h => mentions_author (stripped_text h) = true) l1).
Proof.
  induction ps as [|p ps IH]; intros sec acc a; cbn [authors_loop].
  - auto.
  - cbv zeta. rewrite author_re_spec. fold (stripped_text p).
    fold (author_line (stripped_text p)).
    destruct (mentions_author (stripped_text p)) eqn:Hm.
    + intros H. apply IH in H as [H|(l1 & q & l2 & -> & Ha & Hn & Hl & _)];
        [auto|].
      right. exists (p :: l1), q, l2. repeat split; try assumption.
      right. constructor. exact Hm.
    + destruct sec.
      * destruct (author_line (stripped_text p)) eqn:Hl.
        -- intros H.
           apply IH in H as [H|(l1 & q & l2 & -> & Ha & Hn & Hl' & _)].
           ++ apply in_app_or in H as [H|[<-|[]]]; [auto|].
              right. exists [], p, ps. repeat split; auto.
           ++ right. exists (p :: l1), q, l2. repeat split; auto.
        -- destruct (Py.contains (s_ "abstract") (Py.lower (stripped_text p)));
             [auto|].
           intros H.
           apply IH in H as [H|(l1 & q & l2 & -> & Ha & Hn & Hl' & _)];
             [auto|].
           right. exists (p :: l1), q, l2. repeat split; auto.
      * intros H.
        apply IH in H as [H|(l1 & q & l2 & -> & Ha & Hn & Hl' & Hsec)];
          [auto|].
        right. exists (p :: l1), q, l2. repeat split; try assumption.
        destruct Hsec as [Hsec|Hsec]; [discriminate|].
        right. apply List.Exists_cons_tl, Hsec.
Qed.

Lemma title_by_heuristic_none ps :
  List.Forall (fun q => title_candidate q = false) ps ->
  title_by_heuristic ps = None.
Proof.
  induction 1 as [|q ps Hq _ IH]; [reflexivity|].
  cbn [title_by_heuristic]. fold (title_candidate q). rewrite Hq. exact IH.
Qed.

Lemma title_fallback_first pre p post :
  List.Forall (fun q => blank q = true) pre ->
  blank p = false ->
  title_fallback (pre ++ p :: post) = Some (stripped_text p).
Proof.
  unfold blank, stripped_text. intros Hpre Hp.
  induction Hpre as [|q pre Hq _ IH]; cbn [app title_fallback].
  - destruct (nonempty (Py.strip (para_text p))); [reflexivity|discriminate].
  - destruct (nonempty (Py.strip (para_text q))); [discriminate|exact IH].
Qed.

Lemma title_fallback_none ps :
  List.Forall (fun q => blank q = true) ps -> title_fallback ps = None.
Proof.
  unfold blank, stripped_text.
  induction 1 as [|q ps Hq _ IH]; [reflexivity|]. cbn [title_fallback].
  destruct (nonempty (Py.strip (para_text q))); [discriminate|exact IH].
Qed.

End Sections.

(** X12. A document in which no line opens a section has an empty
    abstract, no authors, an empty body and no references: a missing
    section is an empty field, never an error. *)
Theorem document_without_headings (doc : docx_document) :
  List.Forall (fun p => plain_line (stripped_text p) = true)
              (doc_paragraphs doc) ->
  let c := fst (extract_all_content doc) in
  abstract c = [] /\ authors c = [] /\ body c = [] /\ references c = [].
Proof.
  intros Hplain. cbv zeta.
  destruct (extract_all_fields doc) as (Ha & Hau & Hr). cbv zeta in Ha, Hau, Hr.
  rewrite Ha, Hau, Hr, extract_all_body.
  assert (Hsplit : forall (f : str -> bool),
             (forall t, plain_line t = true -> f t = false) ->
             List.Forall (fun p => f (stripped_text p) = false)
                         (doc_paragraphs doc)).
  { intros f Hf. eapply List.Forall_impl; [|exact Hplain].
    intros p Hp. apply Hf, Hp. }
  repeat split.
  - rewrite <- (app_nil_r (doc_paragraphs doc)), abstract_loop_before;
      [reflexivity|].
    apply Hsplit. unfold plain_line. intros t Ht.
    destruct (is_abstract_heading t); [discriminate|reflexivity].
  - apply authors_loop_closed.
    rewrite <- (firstn_skipn 30 (doc_paragraphs doc)) in Hplain.
    apply List.Forall_app in Hplain as [Hplain _].
    eapply List.Forall_impl; [|exact Hplain]. intros p Hp. cbv beta in *.
    unfold plain_line in Hp.
    destruct (mentions_author (stripped_text p));
      [rewrite andb_false_r in Hp; discriminate|reflexivity].
  - rewrite <- (app_nil_r (doc_paragraphs doc)), extract_body_before;
      [reflexivity|].
    apply Hsplit. unfold plain_line. intros t Ht.
    destruct (starts_body t);
      [rewrite andb_false_r in Ht; discriminate|reflexivity].
  - rewrite <- (app_nil_r (doc_paragraphs doc)), references_before;
      [reflexivity|].
    apply Hsplit. unfold plain_line. intros t Ht.
    destruct (is_references_heading t);
      [rewrite andb_false_r in Ht; discriminate|reflexivity].
Qed.

Lemma document_without_headings_witness :
  let c := fst (extract_all_content
                  (DocxDocument [plain_paragraph "A plain note";
                                 plain_paragraph "with two lines"] [] [])) in
  abstract c = [] /\ authors c = [] /\ body c = [] /\ references c = [].
Proof.
  apply (document_without_headings
           (DocxDocument [plain_paragraph "A plain note";
                          plain_paragraph "with two lines"] [] [])).
  repeat constructor.
Defined.

(** X13. The body starts at the first line that begins with
    "Introduction", "Background" or "Methods" and ends before the first
    "References" line from there on; of the lines in between, the start
    line included, it keeps those that are not skipped and not empty,
    in order, each with its trimmed text, its style name and its
    heading flag. *)
Theorem body_between_start_and_references
        (pre post : list docx_paragraph) (h : docx_paragraph) (c : content) :
  List.Forall (fun p => starts_body (stripped_text p) = false) pre ->
  starts_body (stripped_text h) = true ->
  body (_extract_body (pre ++ h :: post) c)
  = map body_paragraph_of
        (List.filter body_line
           (upto (fun p => is_references_heading (stripped_text p))
                 (h :: post))).
Proof.
  intros Hpre Hh. unfold _extract_body. cbn [body set_body].
  rewrite extract_body_before by exact Hpre.
  rewrite extract_body_start by exact Hh.
  apply extract_body_inside.
Qed.

Lemma body_between_start_and_references_witness :
  body (_extract_body
          ([plain_paragraph "Title: A trial"; plain_paragraph "Abstract"]
           ++ plain_paragraph " Introduction "
           :: [plain_paragraph "Sleep matters."; plain_paragraph "";
               plain_paragraph "Figure 1: Flow"; plain_paragraph "References";
               plain_paragraph "1. Smith"])
          empty_content)
  = map body_paragraph_of
        (List.filter body_line
           (upto (fun p => is_references_heading (stripped_text p))
                 (plain_paragraph " Introduction "
                  :: [plain_paragraph "Sleep matters."; plain_paragraph "";
                      plain_paragraph "Figure 1: Flow";
                      plain_paragraph "References";
                      plain_paragraph "1. Smith"]))).
Proof.
  apply (body_between_start_and_references
           [plain_paragraph "Title: A trial"; plain_paragraph "Abstract"]
           [plain_paragraph "Sleep matters."; plain_paragraph "";
            plain_paragraph "Figure 1: Flow"; plain_paragraph "References";
            plain_paragraph "1. Smith"]
           (plain_paragraph " Introduction ") empty_content).
  - repeat constructor.
  - reflexivity.
Defined.

(** X14. The references are the trimmed non-empty lines after the first
    "Reference(s)" line, further such lines left out, up to and without
    the first line that begins with "Figure" or "Table". *)
Theorem references_after_heading
        (pre post : list docx_paragraph) (h : docx_paragraph) (c : content) :
  List.Forall (fun p => is_references_heading (stripped_text p) = false) pre ->
  is_references_heading (stripped_text h) = true ->
  references (_extract_references (pre ++ h :: post) c)
  = List.filter (fun t => nonempty t && negb (is_references_heading t))
                (upto starts_legend (map stripped_text post)).
Proof.
  intros Hpre Hh. unfold _extract_references. cbn [references set_references].
  rewrite references_before by exact Hpre.
  cbn [references_loop]. cbv zeta. rewrite stripped_references, Hh.
  apply references_inside.
Qed.

Lemma references_after_heading_witness :
  references (_extract_references
                ([plain_paragraph "Methods"]
                 ++ plain_paragraph "References:"
                 :: [plain_paragraph " 1. Smith 2020 "; plain_paragraph "";
                     plain_paragraph "2. Jones 2021";
                     plain_paragraph "Table 1. Baseline";
                     plain_paragraph "3. Late"])
                empty_content)
  = [s_ "1. Smith 2020"; s_ "2. Jones 2021"].
Proof.
  apply (references_after_heading
           [plain_paragraph "Methods"]
           [plain_paragraph " 1. Smith 2020 "; plain_paragraph "";
            plain_paragraph "2. Jones 2021";
            plain_paragraph "Table 1. Baseline"; plain_paragraph "3. Late"]
           (plain_paragraph "References:") empty_content).
  - repeat constructor.
  - reflexivity.
Defined.

(** X15. Every extracted author line is the trimmed text of one of the
    first 30 paragraphs, comes after a paragraph that mentions "author"
    or "affiliation", does not mention them itself, and has an at sign
    or a digit followed by a comma. *)
Theorem author_lines_origin
        (paragraphs : list docx_paragraph) (c : content) (a : str) :
  In a (authors (_extract_authors paragraphs c)) ->
  exists l1 p l2,
    firstn 30 paragraphs = l1 ++ p :: l2
    /\ a = stripped_text p
    /\ mentions_author a = false
    /\ author_line a = true
    /\ List.Exists (fun h => mentions_author (stripped_text h) = true) l1.
Proof.
  unfold _extract_authors. cbn [authors set_authors]. intros H.
  apply authors_loop_origin in H
    as [[]|(l1 & p & l2 & Hs & Ha & Hn & Hl & [Hsec|Hsec])];
    [discriminate|].
  exists l1, p, l2. auto.
Qed.

Lemma author_lines_origin_witness :
  exists l1 p l2,
    firstn 30 [plain_paragraph "Authors"; plain_paragraph "Ann Lee1, Bo Yi2";
               plain_paragraph "Abstract"]
    = l1 ++ p :: l2
    /\ s_ "Ann Lee1, Bo Yi2" = stripped_text p
    /\ mentions_author (s_ "Ann Lee1, Bo Yi2") = false
    /\ author_line (s_ "Ann Lee1, Bo Yi2") = true
    /\ List.Exists (fun h => mentions_author (stripped_text h) = true) l1.
Proof.
  apply (author_lines_origin
           [plain_paragraph "Authors"; plain_paragraph "Ann Lee1, Bo Yi2";
            plain_paragraph "Abstract"] empty_content
           (s_ "Ann Lee1, Bo Yi2")).
  vm_compute. left. reflexivity.
Defined.

(** X16. When none of the first ten paragraphs passes the title
    heuristic, the title is the trimmed text of the first paragraph of
    the whole document that has text; when no paragraph has text the
    title field is left as it was. *)
Theorem title_falls_back_to_first_text
        (paragraphs : list docx_paragraph) (c : content) :
  List.Forall (fun q => title_candidate q = false) (firstn 10 paragraphs) ->
  (forall pre p post,
     paragraphs = pre ++ p :: post ->
     List.Forall (fun q => blank q = true) pre ->
     blank p = false ->
     title (_extract_title paragraphs c) = stripped_text p)
  /\ (List.Forall (fun q => blank q = true) paragraphs ->
      _extract_title paragraphs c = c).
Proof.
  intros Hnone. unfold _extract_title.
  rewrite (title_by_heuristic_none _ Hnone). split.
  - intros pre p post -> Hpre Hp.
    rewrite (title_fallback_first pre p post Hpre Hp). reflexivity.
  - intros Hblank. rewrite (title_fallback_none _ Hblank). reflexivity.
Qed.

Lemma title_falls_back_to_first_text_witness :
  (forall pre p post,
     [plain_paragraph " "; plain_paragraph " Sleep and memory "]
     = pre ++ p :: post ->
     List.Forall (fun q => blank q = true) pre ->
     blank p = false ->
     title (_extract_title
              [plain_paragraph " "; plain_paragraph " Sleep and memory "]
              empty_content)
     = stripped_text p)
  /\ (List.Forall (fun q => blank q = true)
                  [plain_paragraph " "; plain_paragraph " Sleep and memory "] ->
      _extract_title
        [plain_paragraph " "; plain_paragraph " Sleep and memory "]
        empty_content
      = empty_content).
Proof.
  apply (title_falls_back_to_first_text
           [plain_paragraph " "; plain_paragraph " Sleep and memory "]
           empty_content).
  repeat constructor.
Defined.

(* ================================================================== *)
(** * Default captions *)
(* ================================================================== *)

Section Captions.

Import Re.

Lemma reaches_lits w r : forall st st',
  reaches (map lit w ++ r) st st' ->
  exists s' i', word true w (rest st) (pos st) = Some (s', i')
                /\ reaches r (MState s' i' (gopen st) (group1 st)) st'.
Proof.
  induction w as [|a w IH]; intros [s i go g] st'; cbn [map app].
  - intros H. exists s, i. cbn. auto.
  - change (lit a) with (One (CSet [CLit a])). cbn [reaches rest advance pos].
    intros (c & s' & -> & Hc & H). rewrite in_class_lit in Hc.
    apply IH in H as (s'' & i'' & Hw & H). cbn [rest pos gopen group1] in *.
    exists s'', i''. cbn [word]. rewrite Hc. auto.
Qed.

Lemma starts_mentions w : forall t,
  starts_with_ci w t = true -> mentions_ci w t = true.
Proof.
  unfold starts_with_ci, mentions_ci. intros t H.
  destruct (Py.lower t) as [|c l]; cbn [Py.contains];
    destruct (Py.strip_prefix w _); try reflexivity; discriminate.
Qed.

Lemma mentions_tail w c t :
  mentions_ci w t = true -> mentions_ci w (c :: t) = true.
Proof.
  unfold mentions_ci. cbn [Py.lower map Py.contains]. intros H.
  destruct (Py.strip_prefix w _); [reflexivity|exact H].
Qed.

(** A line that a caption pattern for the word [w] matches mentions
    that word. *)
Lemma caption_pattern_mentions w r t st' :
  Py.lower w = w ->
  reaches ([Bol; Opt (CSet [CLit "*"]); Opt (CSet [CLit "*"])]
           ++ map lit w ++ r)
          (MState t 0 None None) st' ->
  mentions_ci w t = true.
Proof.
  intros Hw. cbn [app reaches rest pos advance].
  assert (Hword : forall s i go g,
            reaches (map lit w ++ r) (MState s i go g) st' ->
            mentions_ci w s = true).
  { intros s i go g H. apply reaches_lits in H as (s' & i' & H & _).
    cbn [rest pos] in H. apply starts_mentions.
    rewrite <- (accepted_word w s i Hw), H. reflexivity. }
  intros (_ & [(c & s1 & -> & _ & [(d & s2 & Hs & _ & H)|H])|
               [(c & s1 & -> & _ & H)|H]]).
  - cbn [rest advance pos gopen group1] in *. subst s1.
    apply mentions_tail, mentions_tail. eapply Hword, H.
  - apply mentions_tail. eapply Hword, H.
  - apply mentions_tail. eapply Hword, H.
  - eapply Hword, H.
Qed.

Lemma find_caption_none w r ps :
  Py.lower w = w ->
  List.Forall (fun p => mentions_ci w (stripped_text p) = false) ps ->
  find_caption ([Bol; Opt (CSet [CLit "*"]); Opt (CSet [CLit "*"])]
                ++ map lit w ++ r) ps
  = None.
Proof.
  intros Hw. induction 1 as [|p ps Hp _ IH]; [reflexivity|].
  cbn [find_caption]. cbv zeta. unfold rematch, match_at.
  destruct (run true _ (MState (Py.strip (para_text p)) 0 None None))
    as [st'|] eqn:Hr; [|exact IH].
  apply run_reaches, (caption_pattern_mentions w r _ st' Hw) in Hr.
  unfold stripped_text in Hp. congruence.
Qed.

End Captions.

(** X18. When no paragraph mentions the word "figure" every figure
    gets the default caption "Figure N", and when none mentions "table"
    every table gets "Table N". *)
Theorem default_captions
        (paragraphs : list docx_paragraph) (n : Z) :
  (List.Forall (fun p => mentions_ci (s_ "figure") (stripped_text p) = false)
               paragraphs ->
   _find_figure_caption paragraphs n = s_ "Figure " ++ Py.str_of_int n)
  /\ (List.Forall (fun p => mentions_ci (s_ "table") (stripped_text p) = false)
                  paragraphs ->
      _find_table_caption paragraphs n = s_ "Table " ++ Py.str_of_int n).
Proof.
  split; intros H.
  - unfold _find_figure_caption, figure_caption_re, Re.lits.
    change (list_ascii_of_string "figure") with (s_ "figure").
    rewrite (find_caption_none (s_ "figure") _ paragraphs eq_refl H).
    reflexivity.
  - unfold _find_table_caption, table_caption_re, Re.lits.
    change (list_ascii_of_string "table") with (s_ "table").
    rewrite (find_caption_none (s_ "table") _ paragraphs eq_refl H).
    reflexivity.
Qed.

Lemma default_captions_witness :
  _find_figure_caption [plain_paragraph "Introduction";
                        plain_paragraph "Sleep matters."] 2
  = s_ "Figure " ++ Py.str_of_int 2
  /\ _find_table_caption [plain_paragraph "Introduction";
                          plain_paragraph "Sleep matters."] 2
     = s_ "Table " ++ Py.str_of_int 2.
Proof.
  destruct (default_captions [plain_paragraph "Introduction";
                              plain_paragraph "Sleep matters."] 2)
    as [Hf Ht].
  split; [apply Hf|apply Ht]; repeat constructor.
Defined.

(* ================================================================== *)
(** * The whole output document *)
(* ================================================================== *)

Section WholeDocument.

Variable image_size : list Byte.byte -> option (Z * Z).
Variable picture_ok : list Byte.byte -> bool.
Variable self : formatter.

(** The statements of the body append, whatever the content is. *)
Lemma regular_add_body_paragraph p : regular (add_body_paragraph self p).
Proof.
  unfold add_body_paragraph. destruct (bp_is_heading p).
  - destruct (bp_text p).
    + apply regular_bind; [apply regular_emit|]. intros _.
      apply (appends_regular _ (Raised IndexError) []), appends_raise.
    + apply regular_emit.
  - apply regular_emit.
Qed.

Lemma regular_body_loop c m paras : forall idx,
  regular (body_loop image_size picture_ok self c m idx paras).
Proof.
  induction paras as [|p paras IH]; intros idx; cbn [body_loop].
  - apply regular_ret.
  - apply regular_bind; [apply regular_add_body_paragraph|]. intros _.
    apply regular_bind; [|intros _; apply IH].
    rewrite lookup_for_each.
    apply (appends_regular _ (Done tt)
             (flat_map (placed image_size picture_ok self c)
                       (default [] (m !! idx)))).
    apply for_each_appends, insert_cited_appends.
Qed.

Lemma page_breaks_app l1 l2 :
  page_breaks (l1 ++ l2) = (page_breaks l1 + page_breaks l2)%nat.
Proof. unfold page_breaks. rewrite List.filter_app, length_app. reflexivity. Qed.

Lemma page_breaks_body bs : page_breaks (map Body bs) = 0%nat.
Proof. induction bs as [|b bs IH]; [reflexivity|exact IH]. Qed.

Lemma page_breaks_title c : page_breaks (_add_title_page c) = 1%nat.
Proof.
  unfold _add_title_page. rewrite !page_breaks_app.
  assert (Ha : page_breaks (map author_paragraph (authors c)) = 0%nat).
  { induction (authors c) as [|a l IH]; [reflexivity|exact IH]. }
  rewrite Ha. destruct (nonempty (title c)); reflexivity.
Qed.

Lemma page_breaks_abstract c : page_breaks (_add_abstract self c) = 0%nat.
Proof. unfold _add_abstract. destruct (nonempty (abstract c)); reflexivity. Qed.

Lemma page_breaks_references c :
  page_breaks (_add_references c)
  = if has_items (references c) then 1%nat else 0%nat.
Proof.
  assert (Hrefs : forall l, page_breaks (map reference_paragraph l) = 0%nat).
  { induction l as [|a l IH]; [reflexivity|exact IH]. }
  unfold _add_references. destruct (references c) as [|r refs];
    [reflexivity|].
  cbn [has_items].
  change (PageBreak :: section_heading (s_ "References")
          :: map reference_paragraph (r :: refs))
    with ([PageBreak; section_heading (s_ "References")]
          ++ map reference_paragraph (r :: refs)).
  rewrite page_breaks_app, Hrefs. reflexivity.
Qed.

End WholeDocument.

(** The statements of the body only append, which is why
    [format_document] may run them on the empty document and put the
    result behind what stands before the body. *)
Lemma body_loop_only_appends
        (image_size : list Byte.byte -> option (Z * Z))
        (picture_ok : list Byte.byte -> bool) (self : formatter)
        (c : content) (citations : list citation) (doc : document) :
  _add_body_with_citations image_size picture_ok self c citations doc
  = (fst (_add_body_with_citations image_size picture_ok self c citations []),
     doc ++ snd (_add_body_with_citations image_size picture_ok self c
                                          citations [])).
Proof.
  unfold _add_body_with_citations.
  apply (regular_body_loop image_size picture_ok self c
           (insertion_map citations) (body c) 0).
Qed.

(** X20. Formatting what was extracted from a document, with the
    citations detected in it, ends normally.  The output has margins of
    one inch and holds the title page, the abstract section, the body
    with the placed figures and tables, and the references section, in
    this order; it has one page break, after the title page, and a
    second one, before the references, exactly when there are
    references. *)
Theorem format_extracted_document
        (image_size : list Byte.byte -> option (Z * Z))
        (picture_ok : list Byte.byte -> bool) (self : formatter)
        (doc : docx_document) :
  let c := fst (extract_all_content doc) in
  exists out,
    format_document image_size picture_ok self c (detect_citations c)
    = Done out
    /\ fd_blocks out
       = _add_title_page c ++ _add_abstract self c
         ++ map Body (sections image_size picture_ok self c
                               (detect_citations c) 0 (body c))
         ++ _add_references c
    /\ (fd_top_margin out, fd_bottom_margin out,
        fd_left_margin out, fd_right_margin out) = (1%Q, 1%Q, 1%Q, 1%Q)
    /\ page_breaks (fd_blocks out)
       = if has_items (references c) then 2%nat else 1%nat.
Proof.
  cbv zeta. set (c := fst (extract_all_content doc)).
  unfold format_document.
  rewrite (add_body_result image_size picture_ok self c (detect_citations c)
             (extract_all_headings doc)).
  eexists. split; [reflexivity|]. cbn [fd_blocks fd_top_margin
    fd_bottom_margin fd_left_margin fd_right_margin].
  split; [reflexivity|]. split; [reflexivity|].
  rewrite !page_breaks_app, page_breaks_title, page_breaks_abstract,
    page_breaks_body, page_breaks_references.
  destruct (has_items (references c)); reflexivity.
Qed.

(* ================================================================== *)
(** * From the source document to the placed asset *)
(* ================================================================== *)

Section EndToEnd.

Variable image_size : list Byte.byte -> option (Z * Z).
Variable picture_ok : list Byte.byte -> bool.
Variable self : formatter.

Lemma extract_all_assets doc :
  let c := fst (extract_all_content doc) in
  figures c
  = fst (figures_loop (doc_paragraphs doc) (doc_rels doc) [] 0 [])
  /\ tables c
     = fst (tables_loop (doc_paragraphs doc) 0 (doc_tables doc) [] []).
Proof.
  cbv zeta. unfold extract_all_content, _extract_figures, _extract_tables.
  destruct (figures_loop _ _ _ _ _) as [figs out1].
  destruct (tables_loop _ _ _ _ _) as [tabs out2].
  split; reflexivity.
Qed.

Lemma extract_all_find_figure doc n :
  find_figure (fst (extract_all_content doc)) n
  = if 1 <=? n then
      option_map (figure_of_source (doc_paragraphs doc) n)
                 (readable_images (doc_rels doc) !! Z.to_nat (n - 1))
    else None.
Proof.
  unfold find_figure. destruct (extract_all_assets doc) as [Hf _].
  cbv zeta in Hf. rewrite Hf, figures_loop_figs. cbn [app].
  rewrite lookup_numbered_figure, Z.sub_0_r. reflexivity.
Qed.

Lemma extract_all_find_table doc n :
  find_table (fst (extract_all_content doc)) n
  = if 1 <=? n then
      match doc_tables doc !! Z.to_nat (n - 1) with
      | Some (Ok rows) =>
          Some (table_of_source (doc_paragraphs doc) (n - 1, rows))
      | _ => None
      end
    else None.
Proof.
  unfold find_table. destruct (extract_all_assets doc) as [_ Ht].
  cbv zeta in Ht. rewrite Ht.
  destruct (tables_loop_spec (doc_paragraphs doc) (doc_tables doc) 0 [] [])
    as [Hspec _].
  rewrite Hspec. cbn [app].
  rewrite lookup_readable_table, Z.sub_0_r. reflexivity.
Qed.

End EndToEnd.

(** X21. End to end for a figure.  When the body of the extracted
    content cites figure number n, and the n-th readable image of the
    source is sized and accepted, the run ends normally and right after
    the citing paragraph stand spacing, the picture of that image at
    min(figure width, 6.5) inches, its caption and spacing. *)
Theorem cited_readable_figure_is_placed
        (image_size : list Byte.byte -> option (Z * Z))
        (picture_ok : list Byte.byte -> bool) (self : formatter)
        (doc : docx_document) (cit : citation) (n : Z)
        (rel_id : str) (data : list Byte.byte) (w h : Z) :
  let c := fst (extract_all_content doc) in
  In cit (detect_citations c) ->
  c_type cit = KFigure ->
  figure_number_of cit = Some n ->
  1 <= n ->
  readable_images (doc_rels doc) !! Z.to_nat (n - 1) = Some (rel_id, data) ->
  image_size data = Some (w, h) -> w <> 0 ->
  picture_ok data = true ->
  exists out i p,
    _add_body_with_citations image_size picture_ok self c
                             (detect_citations c) []
    = (Done tt, out)
    /\ body c !! i = Some p
    /\ c_position cit = Z.of_nat i
    /\ placed_after image_size picture_ok self c (detect_citations c)
                    out i p cit
    /\ placed image_size picture_ok self c cit
       = [spacing;
          picture_block data (py_min (fmt_figure_width self) (65 # 10));
          figure_caption_block n
            (figure_of_source (doc_paragraphs doc) n (rel_id, data));
          spacing].
Proof.
  cbv zeta. set (c := fst (extract_all_content doc)).
  intros Hin Hk Hn Hpos Himg Hsize Hw Hok.
  destruct (detect_citations_anchored c cit Hin) as (i & p & Hp & Hi & _).
  exists (sections image_size picture_ok self c (detect_citations c) 0
                   (body c)), i, p.
  split; [apply add_body_result, extract_all_headings|].
  split; [exact Hp|]. split; [exact Hi|].
  split; [apply cited_placed_after; assumption|].
  apply placed_of_appends. unfold insert_cited. rewrite Hk.
  assert (Hfind : find_figure c n
                  = Some (figure_of_source (doc_paragraphs doc) n
                                           (rel_id, data))).
  { unfold c. rewrite extract_all_find_figure.
    destruct (Z.leb_spec 1 n); [|lia]. rewrite Himg. reflexivity. }
  apply (insert_figure_sized image_size picture_ok self c cit n _ w h
           Hn Hfind); assumption.
Qed.

(** X22. End to end for a table.  When the body of the extracted
    content cites table number n, and entry n - 1 of the tables of the
    source can be read and has a cell, the run ends normally and right
    after the citing paragraph stand spacing, the caption, the grid of
    the trimmed cell texts and spacing. *)
Theorem cited_readable_table_is_placed
        (image_size : list Byte.byte -> option (Z * Z))
        (picture_ok : list Byte.byte -> bool) (self : formatter)
        (doc : docx_document) (cit : citation) (n : Z)
        (rows : list (list str)) :
  let c := fst (extract_all_content doc) in
  let t := table_of_source (doc_paragraphs doc) (n - 1, rows) in
  In cit (detect_citations c) ->
  c_type cit = KTable ->
  Py.int (c_number cit) = Some n ->
  1 <= n ->
  doc_tables doc !! Z.to_nat (n - 1) = Some (Ok rows) ->
  (0 < max_row_width (tab_data t))%nat ->
  exists out i p,
    _add_body_with_citations image_size picture_ok self c
                             (detect_citations c) []
    = (Done tt, out)
    /\ body c !! i = Some p
    /\ c_position cit = Z.of_nat i
    /\ placed_after image_size picture_ok self c (detect_citations c)
                    out i p cit
    /\ placed image_size picture_ok self c cit
       = [spacing; table_caption_block n t;
          BTable (s_ "Table Grid")
                 (grid (tab_data t) (max_row_width (tab_data t)));
          spacing]
    /\ tab_data t = map (map Py.strip) rows.
Proof.
  cbv zeta. set (c := fst (extract_all_content doc)).
  intros Hin Hk Hn Hpos Htab Hcells.
  destruct (detect_citations_anchored c cit Hin) as (i & p & Hp & Hi & _).
  exists (sections image_size picture_ok self c (detect_citations c) 0
                   (body c)), i, p.
  split; [apply add_body_result, extract_all_headings|].
  split; [exact Hp|]. split; [exact Hi|].
  split; [apply cited_placed_after; assumption|].
  split; [|reflexivity].
  apply placed_of_appends. unfold insert_cited. rewrite Hk.
  apply insert_table_found; [exact Hn| |exact Hcells].
  unfold c. rewrite extract_all_find_table.
  destruct (Z.leb_spec 1 n); [|lia]. rewrite Htab. reflexivity.
Qed.

Lemma cited_readable_figure_is_placed_witness :
  let c := fst (extract_all_content example_source) in
  exists out i p,
    _add_body_with_citations size_1200_800 accept_all default_formatter c
                             (detect_citations c) []
    = (Done tt, out)
    /\ body c !! i = Some p
    /\ c_position example_figure_citation = Z.of_nat i
    /\ placed_after size_1200_800 accept_all default_formatter c
                    (detect_citations c) out i p example_figure_citation
    /\ placed size_1200_800 accept_all default_formatter c
              example_figure_citation
       = [spacing;
          picture_block []
            (py_min (fmt_figure_width default_formatter) (65 # 10));
          figure_caption_block 1
            (figure_of_source (doc_paragraphs example_source) 1
                              (s_ "rId7", []));
          spacing].
Proof.
  apply (cited_readable_figure_is_placed size_1200_800 accept_all
           default_formatter example_source example_figure_citation 1
           (s_ "rId7") [] 1200 800).
  - vm_compute. left. reflexivity.
  - reflexivity.
  - reflexivity.
  - lia.
  - reflexivity.
  - reflexivity.
  - lia.
  - reflexivity.
Defined.

Lemma cited_readable_table_is_placed_witness :
  let c := fst (extract_all_content example_source) in
  let t := table_of_source (doc_paragraphs example_source)
                           (1 - 1, [[s_ " Arm "; s_ "n"]; [s_ "A"; s_ " 12"]])
  in
  exists out i p,
    _add_body_with_citations size_1200_800 accept_all default_formatter c
                             (detect_citations c) []
    = (Done tt, out)
    /\ body c !! i = Some p
    /\ c_position example_table_citation = Z.of_nat i
    /\ placed_after size_1200_800 accept_all default_formatter c
                    (detect_citations c) out i p example_table_citation
    /\ placed size_1200_800 accept_all default_formatter c
              example_table_citation
       = [spacing; table_caption_block 1 t;
          BTable (s_ "Table Grid")
                 (grid (tab_data t) (max_row_width (tab_data t)));
          spacing]
    /\ tab_data t
       = map (map Py.strip) [[s_ " Arm "; s_ "n"]; [s_ "A"; s_ " 12"]].
Proof.
  apply (cited_readable_table_is_placed size_1200_800 accept_all
           default_formatter example_source example_table_citation 1
           [[s_ " Arm "; s_ "n"]; [s_ "A"; s_ " 12"]]).
  - vm_compute. right. left. reflexivity.
  - reflexivity.
  - reflexivity.
  - lia.
  - reflexivity.
  - vm_compute. lia.
Defined.
